(** * Royalties processor: sale aggregation and royalty computation

    A shallow embedding of the TypeScript sources of the royalties
    processor (services/sales_service.ts, types/project_report.ts,
    types/graphQL_entities_def.ts, the sale filters of index.ts and the two
    revisions of repositories/opensea_api.ts), followed by the properties
    proved about them.

    Conventions.
    - A JS [number] holding a block number or a percentage is a [Z]; a
      counter that only ever counts is a [nat]; an ethers [BigNumber] is a
      [Z] and [BigNumber.div] is [Z.quot] (truncation towards zero), raising
      on a zero divisor.
    - [Map<string, V>] is [gmap string V].
    - A [throw] (or the TypeError of reading a property of [undefined]) is the
      [Throw] branch of [result]; a [while (true)] loop carries fuel and
      answers [None] only when the fuel runs out.
    - [console.*] output is kept only where a property speaks about it (the
      diagnostics of the marketplace importer). *)

From Stdlib Require Import ZArith List String Ascii Lia Sorted Bool.
From stdpp Require Import gmap strings list fin_maps sorting.
Import ListNotations.

Local Open Scope string_scope.
Local Open Scope list_scope.
Local Open Scope Z_scope.

(** ** Exceptions *)

Inductive Thrown : Type :=
| TypeError               (* a property read on undefined *)
| DivisionByZero          (* BigNumber.div(0) *)
| InvalidBigNumberValue   (* BigNumber.from(undefined) *)
| NumericFault            (* BigNumber.from on a number out of the safe range *)
| UnknownPaymentToken     (* addressToPaymentToken on an unknown address *)
| UnexpectedOSResponse.   (* the string thrown by the importer *)

Inductive result (A : Type) : Type :=
| Ok (a : A)
| Throw (e : Thrown).
Arguments Ok {A} a.
Arguments Throw {A} e.

(** Sequencing: the first [Throw] aborts everything after it. It is
    registered as stdpp's [mbind], which gives the [x ← r; k] notation. *)
#[global] Instance result_bind : MBind result := fun A B k r =>
  match r with
  | Ok a => k a
  | Throw e => Throw e
  end.

#[global] Instance result_ret : MRet result := fun A a => Ok a.

(** [for (const x of xs) { acc = step(acc, x) }] where the body may throw. *)
Fixpoint forOf {A S} (step : S -> A -> result S) (xs : list A) (acc : S)
  : result S :=
  match xs with
  | [] => Ok acc
  | x :: rest => acc' ← step acc x; forOf step rest acc'
  end.

(** ** types/graphQL_entities_def.ts *)

Inductive Exchange := OSV1 | OSV2 | LOOKSRARE.
Inductive SaleType := Single | Bundle.
Inductive Collection := curated | playground | factory.

Record T_Project := {
  project_id : string;
  project_name : string;
  project_artistAddress : string;
  curationStatus : Collection;
  additionalPayee : option string;
  additionalPayeePercentage : option Z
}.

Record T_Contract := { contract_id : string }.

Record T_Token := {
  token_id : string;
  token_contract : T_Contract;
  token_project : T_Project
}.

(** The back pointer [sale] of a lookup table is never read by the code
    embedded here and is left out. *)
Record T_SaleLookupTable := {
  slt_id : string;
  slt_token : T_Token
}.

(** [price] is the decimal string of an integer in the source and is read
    only through [BigNumber.from]; it is kept as the integer it denotes. *)
Record T_Sale := {
  sale_id : string;
  exchange : Exchange;
  saleType : SaleType;
  blockNumber : Z;
  blockTimestamp : string;
  seller : string;
  buyer : string;
  paymentToken : string;
  price : Z;
  isPrivate : bool;
  summaryTokensSold : string;
  saleLookupTables : list T_SaleLookupTable;
  fees : Z
}.

Definition with_saleLookupTables (sale : T_Sale) (l : list T_SaleLookupTable)
  : T_Sale :=
  {| sale_id := sale_id sale; exchange := exchange sale;
     saleType := saleType sale; blockNumber := blockNumber sale;
     blockTimestamp := blockTimestamp sale; seller := seller sale;
     buyer := buyer sale; paymentToken := paymentToken sale;
     price := price sale; isPrivate := isPrivate sale;
     summaryTokensSold := summaryTokensSold sale;
     saleLookupTables := l; fees := fees sale |}.

(** ** [String.prototype.split] with the separator ["::"]

    The scan goes left to right; at each position where the two characters
    [::] start, the piece read so far is closed and the scan resumes after
    the separator, so matches never overlap. The last piece is always
    emitted, also when it is empty. [piece] holds the current piece in
    reverse. *)

Definition colon : ascii := ":"%char.

Fixpoint split_from (piece : list ascii) (s : string) : list string :=
  match s with
  | EmptyString => [string_of_list_ascii (rev piece)]
  | String c rest =>
      match rest with
      | String d rest' =>
          if (Ascii.eqb c colon && Ascii.eqb d colon)%bool
          then string_of_list_ascii (rev piece) :: split_from [] rest'
          else split_from (c :: piece) rest
      | EmptyString => split_from (c :: piece) rest
      end
  end.

(** [s.split("::")] *)
Definition split_colons (s : string) : list string := split_from [] s.

(** ** types/project_report.ts *)

Record CryptoRepartition := {
  toArtist : Z;
  toAdditional : Z
}.

(** The object [{ total, OSV1, OSV2, LOOKSRARE }]. *)
Record PaymentTokenVolume := {
  total : Z;
  volume_OSV1 : Z;
  volume_OSV2 : Z;
  volume_LOOKSRARE : Z
}.

(** [volume[exchange]] *)
Definition volume_get (volume : PaymentTokenVolume) (e : Exchange) : Z :=
  match e with
  | OSV1 => volume_OSV1 volume
  | OSV2 => volume_OSV2 volume
  | LOOKSRARE => volume_LOOKSRARE volume
  end.

(** [volume[exchange] = x] *)
Definition volume_set (volume : PaymentTokenVolume) (e : Exchange) (x : Z)
  : PaymentTokenVolume :=
  match e with
  | OSV1 => {| total := total volume; volume_OSV1 := x;
               volume_OSV2 := volume_OSV2 volume;
               volume_LOOKSRARE := volume_LOOKSRARE volume |}
  | OSV2 => {| total := total volume; volume_OSV1 := volume_OSV1 volume;
               volume_OSV2 := x;
               volume_LOOKSRARE := volume_LOOKSRARE volume |}
  | LOOKSRARE => {| total := total volume; volume_OSV1 := volume_OSV1 volume;
                    volume_OSV2 := volume_OSV2 volume;
                    volume_LOOKSRARE := x |}
  end.

Definition volume_set_total (volume : PaymentTokenVolume) (x : Z)
  : PaymentTokenVolume :=
  {| total := x; volume_OSV1 := volume_OSV1 volume;
     volume_OSV2 := volume_OSV2 volume;
     volume_LOOKSRARE := volume_LOOKSRARE volume |}.

Record ProjectReport := {
  projectId : Z;
  name : string;
  artistAddress : string;
  additionalPayeeAddress : option string;
  report_additionalPayeePercentage : option Z;
  totalSales : nat;
  paymentTokenVolumes : gmap string PaymentTokenVolume;
  cryptoDue : gmap string CryptoRepartition
}.

(** The constructor. *)
Definition new_ProjectReport (projectId : Z) (name artistAddress : string)
    (additionalPayeeAddress : option string)
    (additionalPayeePercentage : option Z) : ProjectReport :=
  {| projectId := projectId; name := name; artistAddress := artistAddress;
     additionalPayeeAddress := additionalPayeeAddress;
     report_additionalPayeePercentage := additionalPayeePercentage;
     totalSales := 0%nat;
     paymentTokenVolumes := ∅;
     cryptoDue := ∅ |}.

(** [a.div(b)] of ethers: truncating, and an exception on [b = 0]. *)
Definition BigNumber_div (a b : Z) : result Z :=
  if b =? 0 then Throw DivisionByZero else Ok (Z.quot a b).

(** [MAX_SAFE] of ethers' bignumber.ts, [0x1fffffffffffff]. *)
Definition MAX_SAFE : Z := 9007199254740991.

(** [BigNumber.from(value)] on what a parameter of type [number] holds.
    [None] is the [undefined] a parameter is bound to when the caller passes
    nothing, on which [from] raises its argument error. On a number at or
    beyond [MAX_SAFE], or at or below [-MAX_SAFE], it raises the overflow
    fault. The numbers of this development are integers; the underflow
    fault that [from] raises on a number with a fractional part has no
    input here. *)
Definition BigNumber_from (value : option Z) : result Z :=
  match value with
  | Some n =>
      if (MAX_SAFE <=? n) || (n <=? - MAX_SAFE)
      then Throw NumericFault
      else Ok n
  | None => Throw InvalidBigNumberValue
  end.

(** [a.mul(b)] of ethers with a [number] for [b]: the operand goes through
    [BigNumber.from]. *)
Definition BigNumber_mul (a : Z) (b : option Z) : result Z :=
  other ← BigNumber_from b;
  Ok (a * other).

Section ProjectReportMethods.

(** utils/token_conversion.ts is not among the sources. Its
    [addressToPaymentToken] is taken as it is used: a lookup from a payment
    token address to a symbol that raises on an unknown address ([None]). *)
Variable addressToPaymentToken : string -> option string.

Definition addSale (this : ProjectReport) (sale : T_Sale)
    (nbTokensSold : nat) : result ProjectReport :=
  let totalSales' := S (totalSales this) in
  priceAttributedToProject ← BigNumber_div (price sale) (Z.of_nat nbTokensSold);
  cryptoName ← match addressToPaymentToken (paymentToken sale) with
               | Some symbol => Ok symbol
               | None => Throw UnknownPaymentToken
               end;
  let volume :=
    match paymentTokenVolumes this !! cryptoName with
    | Some volume => volume
    | None => {| total := 0; volume_OSV1 := 0; volume_OSV2 := 0;
                 volume_LOOKSRARE := 0 |}
    end in
  let volume := volume_set_total volume (total volume + priceAttributedToProject) in
  let volume :=
    volume_set volume (exchange sale)
      (volume_get volume (exchange sale) + priceAttributedToProject) in
  Ok {| projectId := projectId this; name := name this;
        artistAddress := artistAddress this;
        additionalPayeeAddress := additionalPayeeAddress this;
        report_additionalPayeePercentage := report_additionalPayeePercentage this;
        totalSales := totalSales';
        paymentTokenVolumes := <[cryptoName := volume]> (paymentTokenVolumes this);
        cryptoDue := cryptoDue this |}.

End ProjectReportMethods.

Definition openseaFeesPercentage : Z := 5.

(** The royalty due for one payment token: [globalDue] in the source. *)
Definition globalDue (looksRareFeesPercentage : option Z)
    (volumeTotal : PaymentTokenVolume) : result Z :=
  let volumeOpensea := volume_OSV1 volumeTotal + volume_OSV2 volumeTotal in
  let volumeLoooksRare := volume_LOOKSRARE volumeTotal in
  openseaProduct ← BigNumber_mul volumeOpensea (Some openseaFeesPercentage);
  opensea ← BigNumber_div openseaProduct 100;
  looksRareProduct ← BigNumber_mul volumeLoooksRare looksRareFeesPercentage;
  looksRare ← BigNumber_div looksRareProduct 100;
  Ok (opensea + looksRare).

(** The body of the loop of [computeCryptoDue] for one payment token. *)
Definition cryptoDueOf (looksRareFeesPercentage : option Z)
    (additionalPayeePercentage : option Z) (volumeTotal : PaymentTokenVolume)
  : result CryptoRepartition :=
  globalDue ← globalDue looksRareFeesPercentage volumeTotal;
  toAdditionalPayee ←
    match additionalPayeePercentage with
    | Some percentage =>
        product ← BigNumber_mul globalDue (Some percentage);
        BigNumber_div product 100
    | None => Ok 0
    end;
  let dueToArtist := globalDue - toAdditionalPayee in
  Ok {| toArtist := dueToArtist; toAdditional := toAdditionalPayee |}.

(** [computeCryptoDue(looksRareFeesPercentage)]. The keys of
    [#paymentTokenVolumes] are visited in the order of [map_to_list]; each
    step writes only its own key of [#cryptoDue]. *)
Definition computeCryptoDue (looksRareFeesPercentage : option Z)
    (this : ProjectReport) : result ProjectReport :=
  due ← forOf
          (fun (due : gmap string CryptoRepartition)
               (entry : string * PaymentTokenVolume) =>
             repartition ← cryptoDueOf looksRareFeesPercentage
                             (report_additionalPayeePercentage this) entry.2;
             Ok (<[entry.1 := repartition]> due))
          (map_to_list (paymentTokenVolumes this))
          (cryptoDue this);
  Ok {| projectId := projectId this; name := name this;
        artistAddress := artistAddress this;
        additionalPayeeAddress := additionalPayeeAddress this;
        report_additionalPayeePercentage := report_additionalPayeePercentage this;
        totalSales := totalSales this;
        paymentTokenVolumes := paymentTokenVolumes this;
        cryptoDue := due |}.

(** ** services/sales_service.ts *)

Section SalesService.

(** constant.ts is not among the sources: the threshold block is a
    parameter. *)
Variable BLOCK_WHERE_PRIVATE_SALES_HAVE_ROYALTIES : Z.

Definition saleHasRoyalties (sale : T_Sale) : bool :=
  Bool.eqb (isPrivate sale) false
  || (isPrivate sale
      && (blockNumber sale >=? BLOCK_WHERE_PRIVATE_SALES_HAVE_ROYALTIES)).

(** The rows the subgraph has indexed, in the order it serves them. *)
Variable indexed : list T_Sale.

Definition inBlockRange (blockNumberGte blockNumberLt : Z) (sale : T_Sale)
  : bool :=
  (blockNumberGte <=? blockNumber sale) && (blockNumber sale <? blockNumberLt).

(** Modelled from the spec: [SalesRepository.getSalesBetweenBlockNumbers]
    (repositories/sales_repository.ts is not among the sources). The page
    is made of the rows whose block number lies in
    [[blockNumberGte, blockNumberLt)], in the order of the source, after
    [skip] rows and at most [first] of them. *)
Definition getSalesBetweenBlockNumbers (first skip : nat)
    (blockNumberGte blockNumberLt : Z) : list T_Sale :=
  firstn first
    (skipn skip (List.filter (inBlockRange blockNumberGte blockNumberLt) indexed)).

(** The inner [while (!foundBlockToSplit)] loop. [stack] is [newSales]
    seen from its end, so that [newSales.pop()] takes the head; popping the
    empty array gives [undefined], whose [blockNumber] cannot be read. The
    answer is [newSales] after the sale popped last was pushed back, and the
    new [blockNumberLt]. *)
Fixpoint findBlockToSplit (blockNumberFinalSale : Z) (stack : list T_Sale)
  : result (list T_Sale * Z) :=
  match stack with
  | [] => Throw TypeError
  | lastSale :: stack' =>
      if blockNumberFinalSale =? -1
      then findBlockToSplit (blockNumber lastSale) stack'
      else if blockNumberFinalSale <? blockNumber lastSale
      then Ok (rev (lastSale :: stack'), blockNumber lastSale)
      else findBlockToSplit blockNumberFinalSale stack'
  end.

(** The outer [while (true)] loop, for a page size [first]. *)
Fixpoint scrollSales (first : nat) (fuel : nat) (sales : list T_Sale)
    (blockNumberGte blockNumberLt : Z) : option (result (list T_Sale)) :=
  match fuel with
  | O => None
  | S fuel' =>
      let newSales :=
        getSalesBetweenBlockNumbers first 0 blockNumberGte blockNumberLt in
      if (length newSales <? first)%nat
      then Some (Ok (sales ++ newSales))
      else
        match findBlockToSplit (-1) (rev newSales) with
        | Throw e => Some (Throw e)
        | Ok (newSales', blockNumberLt') =>
            scrollSales first fuel' (sales ++ newSales')
              blockNumberGte blockNumberLt'
        end
  end.

Definition getAllSalesBetweenBlockNumbers (fuel : nat) (blockRange : Z * Z)
  : option (result (list T_Sale)) :=
  let first := 1000%nat in
  scrollSales first fuel [] blockRange.1 blockRange.2.

Variable addressToPaymentToken : string -> option string.

(** [parseInt] of the JS runtime. *)
Variable parseInt : string -> Z.

(** The body of the loop over the lookup tables of one sale. *)
Definition browseLookupTable (sale : T_Sale) (nbTokensSold : nat)
    (projectReports : gmap string ProjectReport)
    (tokenSaleLookupTable : T_SaleLookupTable)
  : result (gmap string ProjectReport) :=
  let token := slt_token tokenSaleLookupTable in
  let project := token_project token in
  let projectReport :=
    match projectReports !! project_name project with
    | Some projectReport => projectReport
    | None =>
        new_ProjectReport (parseInt (project_id project))
          (project_name project) (project_artistAddress project)
          (additionalPayee project) (additionalPayeePercentage project)
    end in
  projectReport' ← addSale addressToPaymentToken projectReport sale nbTokensSold;
  Ok (<[project_name project := projectReport']> projectReports).

(** The body of the loop over the sales. *)
Definition browseSale (projectReports : gmap string ProjectReport)
    (sale : T_Sale) : result (gmap string ProjectReport) :=
  let saleLookupTables := saleLookupTables sale in
  let nbTokensSold := length (split_colons (summaryTokensSold sale)) in
  forOf (browseLookupTable sale nbTokensSold) saleLookupTables projectReports.

(** The first loop of [generateProjectReports] ("Browse all sales"). *)
Definition browseAllSales (sales : list T_Sale)
  : result (gmap string ProjectReport) :=
  forOf browseSale sales ∅.

(** The body of the second loop: [projectReport.computeCryptoDue()], a
    call that passes no argument. *)
Definition finalizeReport (projectReports : gmap string ProjectReport)
    (projectName : string) : result (gmap string ProjectReport) :=
  match projectReports !! projectName with
  | Some projectReport =>
      projectReport' ← computeCryptoDue None projectReport;
      Ok (<[projectName := projectReport']> projectReports)
  | None => Throw TypeError
  end.

(** The keys of the second loop are visited in the order of [map_to_list];
    each step touches the report under its own key only. *)
Definition generateProjectReports (sales : list T_Sale)
  : result (gmap string ProjectReport) :=
  projectReports ← browseAllSales sales;
  forOf finalizeReport (map_to_list projectReports).*1 projectReports.

End SalesService.

(** ** index.ts: the sale filters of [processSales] *)

Inductive ContractFilterType := ONLY | ONLY_NOT.

Record SalesFilter := {
  collectionFilter : option Collection;
  contractFilterType : option ContractFilterType;
  contractsFilter : option (list string)
}.

Definition Collection_eqb (a b : Collection) : bool :=
  match a, b with
  | curated, curated | playground, playground | factory, factory => true
  | _, _ => false
  end.

(** [array.includes(x)] on an array of strings. *)
Definition array_includes (l : list string) (x : string) : bool :=
  existsb (String.eqb x) l.

(** [contractsFilter!.includes(x)]: the [!] only silences the compiler. *)
Definition contractsFilter_includes (salesFilter : SalesFilter) (x : string)
  : result bool :=
  match contractsFilter salesFilter with
  | Some l => Ok (array_includes l x)
  | None => Throw TypeError
  end.

(** The callback of [saleLookupTable.filter]; the counters it keeps are only
    printed. *)
Definition lookupTablePasses (salesFilter : SalesFilter)
    (saleLookupTable : T_SaleLookupTable) : result bool :=
  let token := slt_token saleLookupTable in
  let curationFilterPass :=
    match collectionFilter salesFilter with
    | None => true
    | Some c => Collection_eqb (curationStatus (token_project token)) c
    end in
  contractsFilterPass ←
    match contractFilterType salesFilter with
    | None => Ok true
    | Some ONLY =>
        contractsFilter_includes salesFilter (contract_id (token_contract token))
    | Some ONLY_NOT =>
        included ← contractsFilter_includes salesFilter
                     (contract_id (token_contract token));
        Ok (negb included)
    end;
  Ok (curationFilterPass && contractsFilterPass).

(** [array.filter(callback)] with a callback that may throw. *)
Fixpoint filterR {A} (callback : A -> result bool) (l : list A)
  : result (list A) :=
  match l with
  | [] => Ok []
  | x :: rest =>
      keep ← callback x;
      rest' ← filterR callback rest;
      Ok (if keep : bool then x :: rest' else rest')
  end.

(** The callback of the first [sales.filter]: the sale leaves with its
    lookup tables replaced, and is kept when some are left. *)
Definition narrowSale (salesFilter : SalesFilter) (sale : T_Sale)
  : result T_Sale :=
  filteredSaleLookupTable ←
    filterR (lookupTablePasses salesFilter) (saleLookupTables sale);
  Ok (with_saleLookupTables sale filteredSaleLookupTable).

Fixpoint filterMatchingSales (salesFilter : SalesFilter) (sales : list T_Sale)
  : result (list T_Sale) :=
  match sales with
  | [] => Ok []
  | sale :: rest =>
      sale' ← narrowSale salesFilter sale;
      rest' ← filterMatchingSales salesFilter rest;
      Ok (if (0 <? length (saleLookupTables sale'))%nat
          then sale' :: rest' else rest')
  end.

(** The two [sales.filter] calls of [processSales], in their order. *)
Definition processSales_filters (BLOCK_WHERE_PRIVATE_SALES_HAVE_ROYALTIES : Z)
    (salesFilter : SalesFilter) (sales : list T_Sale) : result (list T_Sale) :=
  sales ← filterMatchingSales salesFilter sales;
  Ok (List.filter (saleHasRoyalties BLOCK_WHERE_PRIVATE_SALES_HAVE_ROYALTIES) sales).

(** ** repositories/opensea_api.ts

    The file is present in two revisions. What they share comes first;
    [Revision1] and [Revision2] hold what differs: the treatment of a bundle
    in [openSeaEventModelToSubgraphModel] and the scan of a page in
    [getOpenSeaSalesEvents]. *)

Module OpenSea.

(** The fields of an event of the marketplace API that the code reads. *)
Record Asset := {
  asset_token_id : string;
  collection_slug : string
}.

Record Event := {
  event_id : string;
  asset : option Asset;                 (* null on a bundle *)
  asset_bundle : option (list Asset);   (* asset_bundle.assets, or null *)
  transaction_block_number : Z;
  transaction_timestamp : string;
  transaction_hash : string;
  to_account_address : string;
  winner_account_address : string;
  payment_token_address : string;
  total_price : Z;
  is_private : bool
}.

Record Page := {
  asset_events : list Event;
  next : option string
}.

Record T_TokenZero := { tokens : list T_Token }.

Record T_OpenSeaToken := {
  os_token_id : string;
  tokenId : string;
  os_contract : T_Contract;
  os_project : T_Project
}.

Record T_OpenSeaSaleLookupTable := {
  os_slt_id : string;
  os_slt_token : T_OpenSeaToken
}.

Record T_OpenSeaSale := {
  os_sale_id : string;
  openSeaVersion : string;
  os_saleType : SaleType;
  os_blockNumber : Z;
  os_blockTimestamp : string;
  os_seller : string;
  os_buyer : string;
  os_paymentToken : string;
  os_price : Z;
  os_isPrivate : bool;
  os_summaryTokensSold : string;
  openSeaSaleLookupTables : list T_OpenSeaSaleLookupTable
}.

(** What the importer prints and a property refers to. *)
Inductive Diagnostic :=
| BundleWithMultipleCollectionSlugs (txHash : string)
| TokenInSimilarCollection (tokenId expected actual : string)
| BundleInDifferentCollectionsSkipped (txHash : string)
| CryptocitizensSkipped.

(** [_summaryTokensSold] after [k] rounds of the loop that appends to it. *)
Fixpoint summaryAfter (k : nat) : string :=
  match k with
  | O => "dummy"
  | S k' => (summaryAfter k' ++ "::dummy")%string
  end.

Definition summaryTokensSoldOf (_event : Event) : string :=
  match asset_bundle _event with
  | None => "dummy"
  | Some assets => summaryAfter (length assets - 1)
  end.

(** [tokenZero.tokens[0]], read for one of its fields. *)
Definition tokenZero_first (tokenZero : T_TokenZero) : result T_Token :=
  match tokens tokenZero with
  | t :: _ => Ok t
  | [] => Throw TypeError
  end.

(** The lookup table pushed for one token; [sep] is [":"] for a single
    sale and ["::"] for a bundle. *)
Definition tableOf (zero : T_Token) (sep : string) (_event : Event)
    (token_id : string) : T_OpenSeaSaleLookupTable :=
  let _token :=
    {| os_token_id := (contract_id (token_contract zero) ++ "-" ++ token_id)%string;
       tokenId := token_id;
       os_contract := token_contract zero;
       os_project := token_project zero |} in
  {| os_slt_id := (project_id (token_project zero) ++ sep
                   ++ os_token_id _token ++ sep ++ event_id _event)%string;
     os_slt_token := _token |}.

Definition lookupTableFor (tokenZero : T_TokenZero) (sep : string)
    (_event : Event) (token_id : string) : result T_OpenSeaSaleLookupTable :=
  zero ← tokenZero_first tokenZero;
  Ok (tableOf zero sep _event token_id).

Definition singleLookupTables (tokenZero : T_TokenZero) (_event : Event)
  : result (list T_OpenSeaSaleLookupTable) :=
  match asset _event with
  | Some a =>
      table ← lookupTableFor tokenZero ":" _event (asset_token_id a);
      Ok [table]
  | None => Throw TypeError
  end.

Definition saleOf (_event : Event)
    (_openSeaLookupTables : list T_OpenSeaSaleLookupTable) : T_OpenSeaSale :=
  {| os_sale_id := event_id _event;
     openSeaVersion := "Vunknown";
     os_saleType := match asset_bundle _event with
                    | None => Single
                    | Some _ => Bundle
                    end;
     os_blockNumber := transaction_block_number _event;
     os_blockTimestamp := transaction_timestamp _event;
     os_seller := to_account_address _event;
     os_buyer := winner_account_address _event;
     os_paymentToken := payment_token_address _event;
     os_price := total_price _event;
     os_isPrivate := is_private _event;
     os_summaryTokensSold := summaryTokensSoldOf _event;
     openSeaSaleLookupTables := _openSeaLookupTables |}.

(** [s.includes(sub)] *)
Fixpoint includes (s sub : string) : bool :=
  if String.prefix sub s then true
  else match s with
       | EmptyString => false
       | String _ rest => includes rest sub
       end.

Section Importer.

(** The part of [openSeaEventModelToSubgraphModel] that a revision
    defines: the lookup tables of a bundle and what is printed. *)
Variable bundleLookupTables :
  T_TokenZero -> string -> Event -> list Asset ->
  result (list T_OpenSeaSaleLookupTable * list Diagnostic).

(** The scan of a page in [getOpenSeaSalesEvents]: the sales collected
    so far with the kept ones pushed, and [_reachedMinBlockNumber]. *)
Variable scanPage :
  Z -> list T_OpenSeaSale -> list T_OpenSeaSale ->
  list T_OpenSeaSale * bool.

Definition eventToSale (tokenZero : T_TokenZero) (collectionSlug : string)
    (_event : Event) : result (T_OpenSeaSale * list Diagnostic) :=
  match asset_bundle _event with
  | None =>
      tables ← singleLookupTables tokenZero _event;
      Ok (saleOf _event tables, [])
  | Some assets =>
      tables ← bundleLookupTables tokenZero collectionSlug _event assets;
      Ok (saleOf _event tables.1, tables.2)
  end.

(** [openSeaEvents.map(...)], with the diagnostics in their order. *)
Fixpoint openSeaEventModelToSubgraphModel (tokenZero : T_TokenZero)
    (collectionSlug : string) (openSeaEvents : list Event)
  : result (list T_OpenSeaSale * list Diagnostic) :=
  match openSeaEvents with
  | [] => Ok ([], [])
  | _event :: rest =>
      head ← eventToSale tokenZero collectionSlug _event;
      tail ← openSeaEventModelToSubgraphModel tokenZero collectionSlug rest;
      Ok (head.1 :: tail.1, head.2 ++ tail.2)
  end.

(** The answers of the events endpoint, by collection slug,
    [occurred_before] timestamp and cursor; the empty cursor is the
    request without one. Transport failures and the retries they cause
    are not part of this model: a request gives the decoded page. *)
Variable api : string -> Z -> string -> Page.

(** The [while (true)] loop of [getOpenSeaSalesEvents]. *)
Fixpoint scrollEvents (fuel : nat) (collectionSlug : string)
    (tokenZero : T_TokenZero) (occurredBeforeTimestamp minBlockNumber : Z)
    (openSeaSales : list T_OpenSeaSale) (printed : list Diagnostic)
    (_next : string)
  : option (result (list T_OpenSeaSale * list Diagnostic)) :=
  match fuel with
  | O => None
  | S fuel' =>
      let data := api collectionSlug occurredBeforeTimestamp _next in
      match openSeaEventModelToSubgraphModel tokenZero collectionSlug
              (asset_events data) with
      | Throw e => Some (Throw e)
      | Ok (newOpenSeaSales, warnings) =>
          let scanned := scanPage minBlockNumber newOpenSeaSales openSeaSales in
          let _reachedMinBlockNumber := scanned.2 in
          match next data with
          | None => Some (Ok (scanned.1, printed ++ warnings))
          | Some cursor =>
              if _reachedMinBlockNumber
              then Some (Ok (scanned.1, printed ++ warnings))
              else scrollEvents fuel' collectionSlug tokenZero
                     occurredBeforeTimestamp minBlockNumber scanned.1
                     (printed ++ warnings) cursor
          end
      end
  end.

Definition getOpenSeaSalesEvents (fuel : nat) (collectionSlug : string)
    (tokenZero : T_TokenZero) (occurredBeforeTimestamp minBlockNumber : Z)
  : option (result (list T_OpenSeaSale * list Diagnostic)) :=
  if String.eqb collectionSlug "cryptocitizensofficial"
  then Some (Ok ([], [CryptocitizensSkipped]))
  else scrollEvents fuel collectionSlug tokenZero occurredBeforeTimestamp
         minBlockNumber [] [] "".

End Importer.

(** The revision whose page scan leaves at the first sale below
    [minBlockNumber], and whose bundles keep the assets of the requested
    collection. *)
Module Revision1.

Fixpoint bundleLookupTables (tokenZero : T_TokenZero)
    (collectionSlug : string) (_event : Event) (assets : list Asset)
  : result (list T_OpenSeaSaleLookupTable * list Diagnostic) :=
  match assets with
  | [] => Ok ([], [])
  | a :: rest =>
      if String.eqb (collection_slug a) collectionSlug
      then
        table ← lookupTableFor tokenZero "::" _event (asset_token_id a);
        tail ← bundleLookupTables tokenZero collectionSlug _event rest;
        Ok (table :: tail.1, tail.2)
      else
        tail ← bundleLookupTables tokenZero collectionSlug _event rest;
        Ok (tail.1,
            BundleWithMultipleCollectionSlugs (transaction_hash _event)
              :: tail.2)
  end.

(** [for (i ...) { if (block >= min) push else { reached = true; break } }] *)
Fixpoint scanPage (minBlockNumber : Z)
    (newOpenSeaSales openSeaSales : list T_OpenSeaSale)
  : list T_OpenSeaSale * bool :=
  match newOpenSeaSales with
  | [] => (openSeaSales, false)
  | sale :: rest =>
      if os_blockNumber sale >=? minBlockNumber
      then scanPage minBlockNumber rest (openSeaSales ++ [sale])
      else (openSeaSales, true)
  end.

Definition openSeaEventModelToSubgraphModel :=
  OpenSea.openSeaEventModelToSubgraphModel bundleLookupTables.

Definition getOpenSeaSalesEvents :=
  OpenSea.getOpenSeaSalesEvents bundleLookupTables scanPage.

End Revision1.

(** The revision whose page scan goes through the whole page, and whose
    bundles are taken whole or not at all. *)
Module Revision2.

(** [assets.every(a => a.collection.slug === assets[0].collection.slug)] *)
Definition everySameSlug (assets : list Asset) : bool :=
  match assets with
  | [] => true
  | first :: _ =>
      forallb (fun a => String.eqb (collection_slug a) (collection_slug first))
        assets
  end.

(** The loop over a bundle whose assets share one slug. A slug that
    contains the requested one without being it is overwritten with the
    requested one before the comparison. *)
Fixpoint uniformBundleLookupTables (tokenZero : T_TokenZero)
    (collectionSlug : string) (_event : Event) (assets : list Asset)
  : result (list T_OpenSeaSaleLookupTable * list Diagnostic) :=
  match assets with
  | [] => Ok ([], [])
  | a :: rest =>
      let openSeaCollectionSlug := collection_slug a in
      let similar :=
        includes openSeaCollectionSlug collectionSlug
        && negb (String.eqb openSeaCollectionSlug collectionSlug) in
      let slug := if similar then collectionSlug else openSeaCollectionSlug in
      if String.eqb slug collectionSlug
      then
        table ← lookupTableFor tokenZero "::" _event (asset_token_id a);
        tail ← uniformBundleLookupTables tokenZero collectionSlug _event rest;
        Ok (table :: tail.1,
            (if similar
             then [TokenInSimilarCollection (asset_token_id a)
                     collectionSlug openSeaCollectionSlug]
             else []) ++ tail.2)
      else Throw UnexpectedOSResponse
  end.

Definition bundleLookupTables (tokenZero : T_TokenZero)
    (collectionSlug : string) (_event : Event) (assets : list Asset)
  : result (list T_OpenSeaSaleLookupTable * list Diagnostic) :=
  if everySameSlug assets
  then uniformBundleLookupTables tokenZero collectionSlug _event assets
  else Ok ([], [BundleInDifferentCollectionsSkipped (transaction_hash _event)]).

(** [for (i ...) { if (block >= min) push else reached = true }] *)
Fixpoint scanPage (minBlockNumber : Z)
    (newOpenSeaSales openSeaSales : list T_OpenSeaSale)
  : list T_OpenSeaSale * bool :=
  match newOpenSeaSales with
  | [] => (openSeaSales, false)
  | sale :: rest =>
      if os_blockNumber sale >=? minBlockNumber
      then scanPage minBlockNumber rest (openSeaSales ++ [sale])
      else ((scanPage minBlockNumber rest openSeaSales).1, true)
  end.

Definition openSeaEventModelToSubgraphModel :=
  OpenSea.openSeaEventModelToSubgraphModel bundleLookupTables.

Definition getOpenSeaSalesEvents :=
  OpenSea.getOpenSeaSalesEvents bundleLookupTables scanPage.

End Revision2.

End OpenSea.

(** ** index.ts: the command handler and the report paths *)

Section CommandHandler.

(** constant.ts is not among the sources: the list of flagship contracts is
    a parameter, and so is [String.prototype.toLowerCase]. *)
Variable AB_FLAGSHIP_CONTRACTS : list string.
Variable toLowerCase : string -> string.

(** [if (x)] on an optional boolean flag and on an optional string. *)
Definition flagSet (flag : option bool) : bool :=
  match flag with
  | Some true => true
  | _ => false
  end.

Definition stringSet (s : option string) : bool :=
  match s with
  | Some EmptyString | None => false
  | Some _ => true
  end.

(** The filter that the handler of the [range] command builds from
    [--collection], [--flagship], [--PBAB] and [--contract]. *)
Definition buildSalesFilter (collection : option Collection)
    (flagship pbab : option bool) (contract : option string) : SalesFilter :=
  if flagSet flagship
  then {| collectionFilter := collection;
          contractFilterType := Some ONLY;
          contractsFilter := Some AB_FLAGSHIP_CONTRACTS |}
  else if flagSet pbab
  then {| collectionFilter := collection;
          contractFilterType := Some ONLY_NOT;
          contractsFilter := Some AB_FLAGSHIP_CONTRACTS |}
  else if stringSet contract
  then {| collectionFilter := collection;
          contractFilterType := Some ONLY;
          contractsFilter :=
            Some [toLowerCase (match contract with
                               | Some c => c
                               | None => EmptyString
                               end)] |}
  else {| collectionFilter := collection;
          contractFilterType := None;
          contractsFilter := None |}.

End CommandHandler.

(** What is left of [s] after its first [n] characters. *)
Fixpoint string_skip (n : nat) (s : string) : string :=
  match n, s with
  | O, _ => s
  | S n', String _ rest => string_skip n' rest
  | S _, EmptyString => EmptyString
  end.

(** [s.replace(searchValue, replaceValue)] with a string to search for: the
    first occurrence is replaced, and [s] is returned as it is when there is
    none. The replacement is taken literally, which is what JS does for a
    replacement without a dollar sign. *)
Fixpoint replace (s searchValue replaceValue : string) : string :=
  if String.prefix searchValue s
  then (replaceValue ++ string_skip (String.length searchValue) s)%string
  else match s with
       | EmptyString => EmptyString
       | String c rest => String c (replace rest searchValue replaceValue)
       end.

Section ReportPaths.

(** constant.ts is not among the sources: the folder is a parameter, and so
    is the conversion of a number to a string in a template literal. *)
Variable REPORTS_FOLDER : string.
Variable numberToString : Z -> string.

Definition generateFriendlyCsvOutputFilePath (command : string)
    (previousBlock currentBlock : Z) : string :=
  (REPORTS_FOLDER ++ "/" ++ command ++ "_" ++ numberToString previousBlock
   ++ "_" ++ numberToString currentBlock ++ ".csv")%string.

End ReportPaths.

(** The paths that [processSales] hands to the report service when a csv
    path is given, in the order of the three calls: the summary, the
    detailed report, the raw report. *)
Definition csvOutputFilePaths (csvOutputFilePath : string) : list string :=
  let csvRawOutputFilePath := replace csvOutputFilePath ".csv" "_raw.csv" in
  let csvDetailedOutputFilePath :=
    replace csvOutputFilePath ".csv" "_detailed.csv" in
  [csvOutputFilePath; csvDetailedOutputFilePath; csvRawOutputFilePath].

(** ** repositories/opensea_api.ts: the request of one page

    The [while (!success)] loop of [getOpenSeaSalesEvents], the same in both
    revisions. [attempts i] is what the [i]-th call of [fetch] does: it
    answers, with its [ok] flag and its body, or it throws, which the loop
    swallows, leaving [response] as it was. *)

Inductive FetchAttempt :=
| Answered (ok : bool) (data : OpenSea.Page)
| FetchThrew.

Inductive FetchOutcome :=
| Fetched (data : OpenSea.Page)     (* the loop ended, [response.json()] *)
| ResponseUndefined                 (* [response.ok] read on undefined *)
| MaxRetriesReached.                (* the string thrown by the loop *)

Definition MAX_RETRIES : nat := 15.

(** The loop from its [i]-th call of [fetch] on, [retries] answers having
    been refused so far. The answer comes with the number of calls of
    [fetch] made and of cool-offs of five seconds waited. *)
Fixpoint requestPage (fuel : nat) (attempts : nat -> FetchAttempt) (i : nat)
    (response : option (bool * OpenSea.Page)) (retries : nat)
  : option (FetchOutcome * nat * nat) :=
  match fuel with
  | O => None
  | S fuel' =>
      let response :=
        match attempts i with
        | Answered ok data => Some (ok, data)
        | FetchThrew => response
        end in
      match response with
      | None => Some (ResponseUndefined, S i, retries)
      | Some (ok, data) =>
          if negb ok
          then
            (* await delay(5000) *)
            if (retries <? MAX_RETRIES)%nat
            then requestPage fuel' attempts (S i) response (S retries)
            else Some (MaxRetriesReached, S i, S retries)
          else Some (Fetched data, S i, retries)
      end
  end.

(** The loop as [getOpenSeaSalesEvents] enters it. *)
Definition requestPageFromStart (fuel : nat) (attempts : nat -> FetchAttempt)
  : option (FetchOutcome * nat * nat) :=
  requestPage fuel attempts 0 None 0.

(** ** index.ts: the counters of the first filter of [processSales]

    The first [sales.filter] of [processSales] once more, this time with the
    three counters that its callbacks increment and that [processSales]
    prints after the filter. *)

Record FilterCounters := {
  additionalSalesFoundInBundledSales : nat;
  skippedOtherContractsTokens : nat;
  skippedCurationStatus : nat
}.

Definition curationFilterPass (salesFilter : SalesFilter)
    (saleLookupTable : T_SaleLookupTable) : bool :=
  match collectionFilter salesFilter with
  | None => true
  | Some c =>
      Collection_eqb
        (curationStatus (token_project (slt_token saleLookupTable))) c
  end.

Definition contractsFilterPass (salesFilter : SalesFilter)
    (saleLookupTable : T_SaleLookupTable) : result bool :=
  let token := slt_token saleLookupTable in
  match contractFilterType salesFilter with
  | None => Ok true
  | Some ONLY =>
      contractsFilter_includes salesFilter (contract_id (token_contract token))
  | Some ONLY_NOT =>
      included ← contractsFilter_includes salesFilter
                   (contract_id (token_contract token));
      Ok (negb included)
  end.

(** The callback of [saleLookupTable.filter]; the state is [nbTokenSold]
    and the counters. *)
Definition countLookupTable (salesFilter : SalesFilter)
    (state : nat * FilterCounters) (saleLookupTable : T_SaleLookupTable)
  : result (bool * (nat * FilterCounters)) :=
  let nbTokenSold := S state.1 in
  let counters := state.2 in
  let counters :=
    if (1 <? nbTokenSold)%nat
    then {| additionalSalesFoundInBundledSales :=
              S (additionalSalesFoundInBundledSales counters);
            skippedOtherContractsTokens := skippedOtherContractsTokens counters;
            skippedCurationStatus := skippedCurationStatus counters |}
    else counters in
  let curationFilterPass := curationFilterPass salesFilter saleLookupTable in
  contractsFilterPass ← contractsFilterPass salesFilter saleLookupTable;
  let counters :=
    if negb curationFilterPass
    then {| additionalSalesFoundInBundledSales :=
              additionalSalesFoundInBundledSales counters;
            skippedOtherContractsTokens := skippedOtherContractsTokens counters;
            skippedCurationStatus := S (skippedCurationStatus counters) |}
    else if negb contractsFilterPass
    then {| additionalSalesFoundInBundledSales :=
              additionalSalesFoundInBundledSales counters;
            skippedOtherContractsTokens :=
              S (skippedOtherContractsTokens counters);
            skippedCurationStatus := skippedCurationStatus counters |}
    else counters in
  Ok (curationFilterPass && contractsFilterPass, (nbTokenSold, counters)).

(** [array.filter(callback)] with a callback that may throw and that
    writes to variables of its closure. *)
Fixpoint filterS {A S} (callback : S -> A -> result (bool * S)) (l : list A)
    (state : S) : result (list A * S) :=
  match l with
  | [] => Ok ([], state)
  | x :: rest =>
      keep ← callback state x;
      rest' ← filterS callback rest keep.2;
      Ok (if keep.1 : bool then x :: rest'.1 else rest'.1, rest'.2)
  end.

(** The callback of the first [sales.filter], with the counters. *)
Definition countNarrowSale (salesFilter : SalesFilter)
    (counters : FilterCounters) (sale : T_Sale)
  : result (T_Sale * FilterCounters) :=
  let nbTokenSold := 0%nat in
  filtered ←
    filterS (countLookupTable salesFilter) (saleLookupTables sale)
      (nbTokenSold, counters);
  Ok (with_saleLookupTables sale filtered.1, filtered.2.2).

Fixpoint countMatchingSales (salesFilter : SalesFilter) (sales : list T_Sale)
    (counters : FilterCounters) : result (list T_Sale * FilterCounters) :=
  match sales with
  | [] => Ok ([], counters)
  | sale :: rest =>
      sale' ← countNarrowSale salesFilter counters sale;
      rest' ← countMatchingSales salesFilter rest sale'.2;
      Ok (if (0 <? length (saleLookupTables sale'.1))%nat
          then sale'.1 :: rest'.1 else rest'.1,
          rest'.2)
  end.

(** The counters as [processSales] declares them. *)
Definition newFilterCounters : FilterCounters :=
  {| additionalSalesFoundInBundledSales := 0;
     skippedOtherContractsTokens := 0;
     skippedCurationStatus := 0 |}.

(** ** index.ts: [processSales]

    [ReportService] is not among the sources: a run that gets to it is
    modelled by what it hands over, the reports and the files they go to
    ([None] for the console). *)

Inductive ProcessOutcome :=
| NoSalesFound
| ReportsHandedOver (projectReports : gmap string ProjectReport)
    (files : option (list string)).

Section ProcessSales.

Variable BLOCK_WHERE_PRIVATE_SALES_HAVE_ROYALTIES : Z.
Variable indexed : list T_Sale.
Variable addressToPaymentToken : string -> option string.
Variable parseInt : string -> Z.

Definition processSales (fuel : nat) (blockRange : Z * Z)
    (salesFilter : SalesFilter) (csvOutputFilePath : option string)
  : option (result ProcessOutcome) :=
  match getAllSalesBetweenBlockNumbers indexed fuel blockRange with
  | None => None
  | Some fetched =>
      Some (sales ← fetched;
            sales ← processSales_filters
                      BLOCK_WHERE_PRIVATE_SALES_HAVE_ROYALTIES salesFilter sales;
            if (length sales <=? 0)%nat
            then Ok NoSalesFound
            else
              projectReports ←
                generateProjectReports addressToPaymentToken parseInt sales;
              Ok (ReportsHandedOver projectReports
                    (option_map csvOutputFilePaths csvOutputFilePath)))
  end.

End ProcessSales.

(** * Vocabulary of the properties *)

(** Descending and ascending block numbers. *)
Definition desc (a b : T_Sale) : Prop := blockNumber b <= blockNumber a.

Definition asc (a b : T_Sale) : Prop := blockNumber a <= blockNumber b.

Definition above (c : Z) (s : T_Sale) : bool := c <? blockNumber s.

Definition Exchange_eqb (a b : Exchange) : bool :=
  match a, b with
  | OSV1, OSV1 | OSV2, OSV2 | LOOKSRARE, LOOKSRARE => true
  | _, _ => false
  end.

Definition totalIn (crypto : string) (r : ProjectReport) : Z :=
  match paymentTokenVolumes r !! crypto with
  | Some volume => total volume
  | None => 0
  end.

Definition exchangeIn (crypto : string) (e : Exchange) (r : ProjectReport) : Z :=
  match paymentTokenVolumes r !! crypto with
  | Some volume => volume_get volume e
  | None => 0
  end.

(** The sum of a measure over all the reports of the map. *)
Definition sumOver (measure : ProjectReport -> Z)
    (projectReports : gmap string ProjectReport) : Z :=
  map_fold (fun _ r acc => measure r + acc) 0 projectReports.

Definition sumTotalSales (projectReports : gmap string ProjectReport) : Z :=
  sumOver (fun r => Z.of_nat (totalSales r)) projectReports.

Definition measureAt (measure : ProjectReport -> Z)
    (projectReports : gmap string ProjectReport) (projectName : string) : Z :=
  from_option measure 0 (projectReports !! projectName).

(** The number of lookup tables of a sale that belong to a project. *)
Definition tokensOf (projectName : string) (sale : T_Sale) : nat :=
  length (List.filter
            (fun t => String.eqb (project_name (token_project (slt_token t)))
                        projectName)
            (saleLookupTables sale)).

Definition nbTokensSoldOf (sale : T_Sale) : nat :=
  length (split_colons (summaryTokensSold sale)).

(** [sumList f l] is the sum of [f x] for [x] in [l]. *)
Definition sumList {A} (f : A -> Z) (l : list A) : Z :=
  fold_right (fun x acc => f x + acc) 0 l.

(** What a sale adds to the total volume of [crypto] per lookup table. *)
Definition shareIn (resolver : string -> option string) (crypto : string)
    (sale : T_Sale) (nb : nat) : Z :=
  match resolver (paymentToken sale) with
  | Some symbol =>
      if String.eqb symbol crypto then Z.quot (price sale) (Z.of_nat nb) else 0
  | None => 0
  end.

(** The number of sales that have at least one lookup table. *)
Definition salesWithTables (sales : list T_Sale) : Z :=
  Z.of_nat (length (List.filter
                      (fun sale => (0 <? length (saleLookupTables sale))%nat)
                      sales)).

(** All the lookup tables of the sale belong to one project. *)
Definition spansOneProject (sale : T_Sale) : bool :=
  match saleLookupTables sale with
  | [] => true
  | t :: rest =>
      forallb (fun u => String.eqb (project_name (token_project (slt_token u)))
                          (project_name (token_project (slt_token t))))
        rest
  end.

(** A number that [BigNumber.from] accepts. *)
Definition safeNumber (n : Z) : Prop := - MAX_SAFE < n < MAX_SAFE.

Definition safePercentage (percentage : option Z) : Prop :=
  forall p, percentage = Some p -> safeNumber p.

(** The royalty due for one payment token when the LooksRare fee is given. *)
Definition royaltyDue (looksRareFeesPercentage : Z)
    (volumeTotal : PaymentTokenVolume) : Z :=
  Z.quot ((volume_OSV1 volumeTotal + volume_OSV2 volumeTotal) * 5) 100
  + Z.quot (volume_LOOKSRARE volumeTotal * looksRareFeesPercentage) 100.

Definition additionalDue (percentage : option Z) (due : Z) : Z :=
  match percentage with
  | Some p => Z.quot (due * p) 100
  | None => 0
  end.

Import OpenSea.

Definition atOrAbove (minBlockNumber : Z) (sale : T_OpenSeaSale) : bool :=
  os_blockNumber sale >=? minBlockNumber.

(** ** The wording of the specification where the code departs from it *)

(** The conservation property with its equality case as the specification
    words it. *)
Definition conservation_as_stated
    (addressToPaymentToken : string -> option string) (parseInt : string -> Z)
    (sales : list T_Sale) : Prop :=
  forall projectReports,
    browseAllSales addressToPaymentToken parseInt sales = Ok projectReports ->
    sumTotalSales projectReports >= salesWithTables sales
    /\ (forallb spansOneProject sales = true ->
        sumTotalSales projectReports = salesWithTables sales).

(** The early stop as the specification words it, for an importer given by
    its bundle treatment and its page scan: at any round, when the page
    holds an event below [minBlockNumber], the call returns what was
    collected so far followed by the sales of the page that come before the
    first such event, and nothing else. *)
Definition stopsAtFirstBelow
    (bundleLookupTables :
       T_TokenZero -> string -> Event -> list Asset ->
       result (list T_OpenSeaSaleLookupTable * list Diagnostic))
    (scanPage :
       Z -> list T_OpenSeaSale -> list T_OpenSeaSale ->
       list T_OpenSeaSale * bool) : Prop :=
  forall api fuel collectionSlug tokenZero occurredBeforeTimestamp minBlockNumber
         openSeaSales printed _next before sale after warnings,
    OpenSea.openSeaEventModelToSubgraphModel bundleLookupTables tokenZero
      collectionSlug (asset_events (api collectionSlug occurredBeforeTimestamp _next))
    = Ok (before ++ sale :: after, warnings) ->
    forallb (atOrAbove minBlockNumber) before = true ->
    os_blockNumber sale < minBlockNumber ->
    scrollEvents bundleLookupTables scanPage api (S fuel) collectionSlug tokenZero
      occurredBeforeTimestamp minBlockNumber openSeaSales printed _next
    = Some (Ok (openSeaSales ++ before, printed ++ warnings)).

(** The treatment of a bundle split across collections as the specification
    words it, for an importer given by its bundle treatment: when one asset
    is in the requested collection and another reports a slug that does not
    even contain the requested one, the sale has no lookup table and
    something is printed. *)
Definition mixedBundleContributesNothing
    (bundleLookupTables :
       T_TokenZero -> string -> Event -> list Asset ->
       result (list T_OpenSeaSaleLookupTable * list Diagnostic)) : Prop :=
  forall tokenZero collectionSlug _event assets a b,
    asset_bundle _event = Some assets ->
    In a assets -> In b assets ->
    collection_slug a = collectionSlug ->
    includes (collection_slug b) collectionSlug = false ->
    exists printed,
      eventToSale bundleLookupTables tokenZero collectionSlug _event
      = Ok (saleOf _event [], printed)
      /\ printed <> [].

(** ** Sample data *)

Definition sampleResolver (address : string) : option string :=
  if String.eqb address "0x0000000000000000000000000000000000000000"
  then Some "ETH" else None.

Definition sampleParseInt (s : string) : Z := 0.

Definition sampleProject (projectName : string) (percentage : option Z)
  : T_Project :=
  {| project_id := "0"; project_name := projectName;
     project_artistAddress := "0xa"; curationStatus := curated;
     additionalPayee := match percentage with
                        | Some _ => Some "0xb"
                        | None => None
                        end;
     additionalPayeePercentage := percentage |}.

Definition sampleTable (tokenId projectName : string) : T_SaleLookupTable :=
  {| slt_id := tokenId;
     slt_token := {| token_id := tokenId;
                     token_contract := {| contract_id := "0xc" |};
                     token_project := sampleProject projectName (Some 20) |} |}.

Definition sampleSale (saleId : string) (e : Exchange) (block amount : Z)
    (private : bool) (summary : string) (tables : list T_SaleLookupTable)
  : T_Sale :=
  {| sale_id := saleId; exchange := e;
     saleType := match tables with [_] => Single | _ => Bundle end;
     blockNumber := block; blockTimestamp := "0";
     seller := "0xd"; buyer := "0xe";
     paymentToken := "0x0000000000000000000000000000000000000000";
     price := amount; isPrivate := private;
     summaryTokensSold := summary;
     saleLookupTables := tables; fees := 0 |}.

(** A bundle of two tokens of one project. *)
Definition bundleOfOneProject : T_Sale :=
  sampleSale "s1" OSV2 100 100 false "t1::t2"
    [sampleTable "t1" "Chromie Squiggle"; sampleTable "t2" "Chromie Squiggle"].

(** A sale of three tokens of three projects, priced 100. *)
Definition bundleOfThree : T_Sale :=
  sampleSale "s2" OSV1 100 100 false "t1::t2::t3"
    [sampleTable "t1" "P"; sampleTable "t2" "Q"; sampleTable "t3" "R"].

(** A sale on LooksRare with one token. *)
Definition looksRareSale : T_Sale :=
  sampleSale "s3" LOOKSRARE 100 50000 false "t1" [sampleTable "t1" "P"].

(** Four rows by descending block number. *)
Definition sampleIndexed : list T_Sale :=
  [ sampleSale "a" OSV1 9 100 false "t" [sampleTable "t" "P"];
    sampleSale "b" OSV2 9 100 false "t" [sampleTable "t" "P"];
    sampleSale "c" OSV1 8 100 false "t" [sampleTable "t" "Q"];
    sampleSale "d" LOOKSRARE 5 100 false "t" [sampleTable "t" "Q"] ].

(** A thousand rows of block 7. *)
Definition oneBlockIndexed : list T_Sale :=
  repeat (sampleSale "a" OSV1 7 100 false "t" [sampleTable "t" "P"]) 1000.

(** A private sale one block before the threshold 100, one at it, and a
    public one. *)
Definition privateBefore : T_Sale :=
  sampleSale "a" OSV1 99 100 true "t" [sampleTable "t" "P"].

Definition privateAt : T_Sale :=
  sampleSale "b" OSV1 100 100 true "t" [sampleTable "t" "P"].

Definition publicSale : T_Sale :=
  sampleSale "c" OSV1 5 100 false "t" [sampleTable "t" "Q"].

Definition sampleSalesToFilter : list T_Sale :=
  [privateBefore; privateAt; publicSale].

Definition noFilter : SalesFilter :=
  {| collectionFilter := None; contractFilterType := None;
     contractsFilter := None |}.

Definition orEmpty (r : result (gmap string ProjectReport))
  : gmap string ProjectReport :=
  match r with
  | Ok projectReports => projectReports
  | Throw _ => ∅
  end.

(** A report with a volume of 20000 on the first OpenSea exchange and an
    additional payee at 20 percent. *)
Definition sampleReport : ProjectReport :=
  {| projectId := 0; name := "P"; artistAddress := "0xa";
     additionalPayeeAddress := Some "0xb";
     report_additionalPayeePercentage := Some 20;
     totalSales := 1%nat;
     paymentTokenVolumes :=
       {[ "ETH" := {| total := 20000; volume_OSV1 := 20000; volume_OSV2 := 0;
                      volume_LOOKSRARE := 0 |} ]};
     cryptoDue := ∅ |}.

Definition sampleTokenZero : T_TokenZero :=
  {| tokens := [ {| token_id := "0xc-0";
                    token_contract := {| contract_id := "0xc" |};
                    token_project := sampleProject "P" None |} ] |}.

Definition sampleEvent (eventId : string) (block : Z)
    (single : option Asset) (bundle : option (list Asset)) : Event :=
  {| event_id := eventId; asset := single; asset_bundle := bundle;
     transaction_block_number := block; transaction_timestamp := "0";
     transaction_hash := ("0xhash" ++ eventId)%string;
     to_account_address := "0xd"; winner_account_address := "0xe";
     payment_token_address := "0x0000000000000000000000000000000000000000";
     total_price := 100; is_private := false |}.

Definition singleEvent (eventId : string) (block : Z) : Event :=
  sampleEvent eventId block
    (Some {| asset_token_id := eventId; collection_slug := "chromie-squiggle" |})
    None.

(** A first page with an event below block 5 between two above it, and a
    second page behind its cursor. *)
Definition sampleApi (collectionSlug : string) (occurredBefore : Z)
    (cursor : string) : Page :=
  if String.eqb cursor ""
  then {| asset_events := [singleEvent "1" 10; singleEvent "2" 3; singleEvent "3" 8];
          next := Some "page2" |}
  else {| asset_events := [singleEvent "4" 2]; next := None |}.

(** The sale made of a single-asset sample event. *)
Definition sampleSaleOf (eventId : string) (block : Z) : T_OpenSeaSale :=
  match tokens sampleTokenZero with
  | zero :: _ =>
      saleOf (singleEvent eventId block)
        [tableOf zero ":" (singleEvent eventId block) eventId]
  | [] => saleOf (singleEvent eventId block) []
  end.

(** A bundle with one asset of the requested collection and one of
    another. *)
Definition mixedBundle : Event :=
  sampleEvent "5" 10 None
    (Some [ {| asset_token_id := "7"; collection_slug := "chromie-squiggle" |};
            {| asset_token_id := "8"; collection_slug := "cryptopunks" |} ]).

(** ** Vocabulary of the further properties *)

(** Some block of [rows] holds [first] rows or more. *)
Definition blockFillsAPage (first : nat) (rows : list T_Sale) : bool :=
  existsb
    (fun s =>
       (first <=? length (List.filter
                            (fun x => (blockNumber x =? blockNumber s)%Z) rows))%nat)
    rows.

(** The filter with the same collection and contracts and the given type. *)
Definition contractFilter (collection : option Collection)
    (type : option ContractFilterType) (contracts : list string) : SalesFilter :=
  {| collectionFilter := collection;
     contractFilterType := type;
     contractsFilter := Some contracts |}.

(** A filter whose contract list is there whenever its type is. *)
Definition filterIsComplete (salesFilter : SalesFilter) : bool :=
  match contractFilterType salesFilter, contractsFilter salesFilter with
  | Some _, None => false
  | _, _ => true
  end.

(** A sale on which a filter has nothing left to do. *)
Definition settled (salesFilter : SalesFilter) (sale : T_Sale) : Prop :=
  narrowSale salesFilter sale = Ok sale /\ saleLookupTables sale <> [].

(** A bundle with one token of a flagship contract and one of another. *)
Definition twoContractsSale : T_Sale :=
  sampleSale "s4" OSV2 100 100 false "t1::t2"
    [ {| slt_id := "t1";
         slt_token := {| token_id := "t1";
                         token_contract := {| contract_id := "0xflagship" |};
                         token_project := sampleProject "P" None |} |};
      {| slt_id := "t2";
         slt_token := {| token_id := "t2";
                         token_contract := {| contract_id := "0xpartner" |};
                         token_project := sampleProject "Q" None |} |} ].

(** The test of [lookupTablePasses] when nothing can raise. *)
Definition tablePasses (salesFilter : SalesFilter)
    (saleLookupTable : T_SaleLookupTable) : bool :=
  let token := slt_token saleLookupTable in
  let contracts :=
    match contractsFilter salesFilter with
    | Some l => l
    | None => []
    end in
  match collectionFilter salesFilter with
  | None => true
  | Some c => Collection_eqb (curationStatus (token_project token)) c
  end
  && match contractFilterType salesFilter with
     | None => true
     | Some ONLY => array_includes contracts (contract_id (token_contract token))
     | Some ONLY_NOT =>
         negb (array_includes contracts (contract_id (token_contract token)))
     end.

(** The sale with the lookup tables that pass. *)
Definition narrowed (salesFilter : SalesFilter) (sale : T_Sale) : T_Sale :=
  with_saleLookupTables sale
    (List.filter (tablePasses salesFilter) (saleLookupTables sale)).

Definition hasTables (sale : T_Sale) : bool :=
  (0 <? length (saleLookupTables sale))%nat.

(** A call of [fetch] that does not end the loop: a thrown one, or an answer
    whose [ok] is not set. *)
Definition refused (attempt : FetchAttempt) : bool :=
  match attempt with
  | Answered true _ => false
  | _ => true
  end.

Definition answered (attempt : FetchAttempt) : bool :=
  match attempt with
  | Answered _ _ => true
  | FetchThrew => false
  end.

Definition emptyPage : OpenSea.Page :=
  {| OpenSea.asset_events := []; OpenSea.next := None |}.

(** A server that refuses twice, once by an answer and once by a thrown
    call, and then answers. *)
Definition thirdTimeLucky (i : nat) : FetchAttempt :=
  match i with
  | 0%nat => Answered false emptyPage
  | 1%nat => FetchThrew
  | _ => Answered true (sampleApi "" 0 "")
  end.

(** The split that [computeCryptoDue] records for one payment token when
    the LooksRare fee is given. *)
Definition repartitionOf (looksRareFeesPercentage : Z)
    (additionalPayeePercentage : option Z) (volumeTotal : PaymentTokenVolume)
  : CryptoRepartition :=
  {| toArtist :=
       royaltyDue looksRareFeesPercentage volumeTotal
       - additionalDue additionalPayeePercentage
           (royaltyDue looksRareFeesPercentage volumeTotal);
     toAdditional :=
       additionalDue additionalPayeePercentage
         (royaltyDue looksRareFeesPercentage volumeTotal) |}.

(** The total of a volume is the sum of its three sub-totals. *)
Definition volumeBalanced (volume : PaymentTokenVolume) : Prop :=
  total volume
  = volume_OSV1 volume + volume_OSV2 volume + volume_LOOKSRARE volume.

Definition volumeNonNegative (volume : PaymentTokenVolume) : Prop :=
  0 <= volume_OSV1 volume /\ 0 <= volume_OSV2 volume
  /\ 0 <= volume_LOOKSRARE volume /\ 0 <= total volume.

(** A sale that [generateProjectReports] can browse: it has no lookup
    table, or its payment token is known. *)
Definition payable (addressToPaymentToken : string -> option string)
    (sale : T_Sale) : bool :=
  match saleLookupTables sale, addressToPaymentToken (paymentToken sale) with
  | _ :: _, None => false
  | _, _ => true
  end.

(** The name of the project of a lookup table. *)
Definition projectNameOf (t : T_SaleLookupTable) : string :=
  project_name (token_project (slt_token t)).

(** A sale paid in a token that the sample resolver does not know. *)
Definition unknownTokenSale : T_Sale :=
  {| sale_id := "s5"; exchange := OSV1; saleType := Single;
     blockNumber := 100; blockTimestamp := "0"; seller := "0xd"; buyer := "0xe";
     paymentToken := "0xunknown"; price := 100; isPrivate := false;
     summaryTokensSold := "t1"; saleLookupTables := [sampleTable "t1" "P"];
     fees := 0 |}.

(** Two projects that share a name. *)
Definition sameNameSales : list T_Sale :=
  [ sampleSale "s6" OSV1 100 100 false "t1"
      [ {| slt_id := "t1";
           slt_token := {| token_id := "t1";
                           token_contract := {| contract_id := "0xc" |};
                           token_project :=
                             {| project_id := "1"; project_name := "Untitled";
                                project_artistAddress := "0xfirst";
                                curationStatus := curated;
                                additionalPayee := None;
                                additionalPayeePercentage := None |} |} |} ];
    sampleSale "s7" OSV1 101 100 false "t2"
      [ {| slt_id := "t2";
           slt_token := {| token_id := "t2";
                           token_contract := {| contract_id := "0xc" |};
                           token_project :=
                             {| project_id := "2"; project_name := "Untitled";
                                project_artistAddress := "0xsecond";
                                curationStatus := factory;
                                additionalPayee := Some "0xb";
                                additionalPayeePercentage := Some 50 |} |} |} ] ].

(** The lookup tables in the order in which [generateProjectReports]
    browses them. *)
Definition tablesBrowsed (sales : list T_Sale) : list T_SaleLookupTable :=
  List.flat_map saleLookupTables sales.

(** The first lookup table browsed whose project has the given name. *)
Definition firstTableOf (projectName : string) (tables : list T_SaleLookupTable)
  : option T_SaleLookupTable :=
  List.find (fun t => String.eqb (projectNameOf t) projectName) tables.

(** The report has the identity of the project. *)
Definition identifiedBy (parseInt : string -> Z) (project : T_Project)
    (report : ProjectReport) : Prop :=
  projectId report = parseInt (project_id project)
  /\ name report = project_name project
  /\ artistAddress report = project_artistAddress project
  /\ additionalPayeeAddress report = additionalPayee project
  /\ report_additionalPayeePercentage report = additionalPayeePercentage project.

(** ** Vocabulary of the properties of the importer *)

(** The sale carries the fields of the event. *)
Definition convertedFrom (_event : Event) (sale : T_OpenSeaSale) : Prop :=
  sale = saleOf _event (openSeaSaleLookupTables sale).

(** Events served from the most recent block to the oldest. *)
Definition eventsDescending (events : list Event) : Prop :=
  StronglySorted
    (fun a b => transaction_block_number b <= transaction_block_number a)
    events.

Definition salesDescending (sales : list T_OpenSeaSale) : Prop :=
  StronglySorted (fun a b => os_blockNumber b <= os_blockNumber a) sales.

Definition ofCollection (collectionSlug : string) (a : Asset) : bool :=
  String.eqb (collection_slug a) collectionSlug.

(** Every bundle holds assets of the requested collection only. *)
Definition bundlesOfCollection (collectionSlug : string) (events : list Event)
  : bool :=
  forallb
    (fun _event =>
       match asset_bundle _event with
       | None => true
       | Some assets => forallb (ofCollection collectionSlug) assets
       end)
    events.

(** The sales of a run that returned, and what it printed. *)
Definition salesOf
    (run : option (result (list T_OpenSeaSale * list Diagnostic)))
  : list T_OpenSeaSale :=
  match run with
  | Some (Ok (sales, _)) => sales
  | _ => []
  end.

Definition printedOf
    (run : option (result (list T_OpenSeaSale * list Diagnostic)))
  : list Diagnostic :=
  match run with
  | Some (Ok (_, printed)) => printed
  | _ => []
  end.

(** A bundle of two assets of the requested collection. *)
Definition squiggleBundle : Event :=
  sampleEvent "6" 9 None
    (Some [ {| asset_token_id := "7"; collection_slug := "chromie-squiggle" |};
            {| asset_token_id := "8"; collection_slug := "chromie-squiggle" |} ]).

(** Two pages in descending block order, the first with a bundle. *)
Definition descendingApi (collectionSlug : string) (occurredBefore : Z)
    (cursor : string) : Page :=
  if String.eqb cursor ""
  then {| asset_events := [singleEvent "1" 10; squiggleBundle; singleEvent "2" 8];
          next := Some "page2" |}
  else {| asset_events := [singleEvent "3" 6; singleEvent "4" 2]; next := None |}.

(** The tokens that a filter skipped, whatever the reason. *)
Definition skipped (counters : FilterCounters) : nat :=
  skippedCurationStatus counters + skippedOtherContractsTokens counters.

(** The contracts of the sample bundle that count as flagship. *)
Definition flagshipOnly : SalesFilter :=
  contractFilter None (Some ONLY) ["0xflagship"].

(** An event that carries what its sale type reads: a bundle, or an
    asset. *)
Definition carriesItsAsset (_event : Event) : bool :=
  match asset_bundle _event, asset _event with
  | None, None => false
  | _, _ => true
  end.

(** ** A source of two pages

    1500 rows by descending block number, two rows to a block but for
    block 750: the first page of 1000 rows ends inside block 250. *)
Definition twoPagesIndexed : list T_Sale :=
  map (fun i =>
         sampleSale "r" OSV1 (Z.of_nat ((1500 - i) / 2)) 100 false "t"
           [sampleTable "t" "P"])
    (seq 0 1500).

(** Three rows that are not in the order of their blocks. *)
Definition unsortedIndexed : list T_Sale :=
  [ sampleSale "a" OSV1 5 100 false "t" [sampleTable "t" "P"];
    sampleSale "b" OSV2 9 100 false "t" [sampleTable "t" "P"];
    sampleSale "c" OSV1 8 100 false "t" [sampleTable "t" "Q"] ].

(** The test of [StronglySorted desc]. *)
Fixpoint descendingb (rows : list T_Sale) : bool :=
  match rows with
  | [] => true
  | a :: rest =>
      forallb (fun b => blockNumber b <=? blockNumber a) rest
      && descendingb rest
  end.

(** * Properties *)

(** ** The definitions on small inputs *)

Example split_colons_empty : split_colons "" = [""].
Proof. reflexivity. Qed.

Example split_colons_three :
  split_colons "dummy::dummy::dummy" = ["dummy"; "dummy"; "dummy"].
Proof. reflexivity. Qed.

Example split_colons_leftmost : split_colons "a:::b::" = ["a"; ":b"; ""].
Proof. reflexivity. Qed.

(** Pages of three rows over blocks 9, 9, 8, 5: the first page is full, its
    last block 8 is given back and asked for again below 9. *)
Example scrollSales_pages_of_three :
  scrollSales sampleIndexed 3 5 [] 0 10 = Some (Ok sampleIndexed).
Proof. vm_compute. reflexivity. Qed.

(** Pages of two rows: the two rows of block 9 fill the first page. *)
Example scrollSales_pages_of_two :
  scrollSales sampleIndexed 2 5 [] 0 10 = Some (Throw TypeError).
Proof. vm_compute. reflexivity. Qed.

Example findBlockToSplit_sentinel :
  findBlockToSplit (-1) (rev sampleIndexed)
  = Ok (firstn 3 sampleIndexed, 8).
Proof. vm_compute. reflexivity. Qed.

(** The count written by the importer for a bundle of two is read back as
    two by the aggregation. *)
Example summary_of_bundle_read_back :
  length (split_colons (summaryTokensSoldOf mixedBundle)) = 2%nat.
Proof. reflexivity. Qed.

Example browse_bundle_of_three :
  let projectReports :=
    orEmpty (browseAllSales sampleResolver sampleParseInt [bundleOfThree]) in
  totalSales <$> projectReports !! "Q" = Some 1%nat
  /\ totalIn "ETH" <$> projectReports !! "Q" = Some 33
  /\ projectReports !! "S" = None.
Proof. vm_compute. repeat split; reflexivity. Qed.

(** ** Lists ordered by descending block number *)

Lemma StronglySorted_filter {A} (R : A -> A -> Prop) (p : A -> bool) l :
  StronglySorted R l -> StronglySorted R (List.filter p l).
Proof.
  induction 1 as [|a l Hl IH Ha]; simpl; [constructor|].
  destruct (p a); [|exact IH].
  constructor; [exact IH|].
  rewrite List.Forall_forall in *. intros x Hx.
  apply Ha. apply filter_In in Hx. tauto.
Qed.

Lemma StronglySorted_rev_desc l :
  StronglySorted desc l -> StronglySorted asc (rev l).
Proof.
  induction 1 as [|a l Hl IH Ha]; simpl; [constructor|].
  apply StronglySorted_app_2; [|exact IH|repeat constructor].
  intros x1 x2 Hx1 Hx2.
  apply list_elem_of_In, in_rev in Hx1.
  apply list_elem_of_singleton in Hx2. subst x2.
  rewrite List.Forall_forall in Ha. exact (Ha _ Hx1).
Qed.

Lemma filter_none {A} (p : A -> bool) l :
  (forall x, In x l -> p x = false) -> List.filter p l = [].
Proof.
  induction l as [|a l IH]; simpl; intros H; [reflexivity|].
  rewrite (H a) by auto. apply IH. auto.
Qed.

Lemma filter_all {A} (p : A -> bool) l :
  (forall x, In x l -> p x = true) -> List.filter p l = l.
Proof.
  intros H. apply forallb_filter_id, forallb_forall. exact H.
Qed.

Lemma filter_length_le {A} (p : A -> bool) l :
  (length (List.filter p l) <= length l)%nat.
Proof.
  induction l as [|a l IH]; simpl; [lia|]. destruct (p a); simpl; lia.
Qed.

Lemma filter_length_firstn {A} (p : A -> bool) n (l : list A) :
  (length (List.filter p (firstn n l)) <= length (List.filter p l))%nat.
Proof.
  rewrite <- (firstn_skipn n l) at 2.
  rewrite List.filter_app, List.length_app. lia.
Qed.

Lemma inBlockRange_spec gte lt sale :
  inBlockRange gte lt sale = true <-> gte <= blockNumber sale < lt.
Proof. unfold inBlockRange. rewrite andb_true_iff. lia. Qed.

Lemma inBlockRange_false gte lt sale :
  inBlockRange gte lt sale = false <-> ~ (gte <= blockNumber sale < lt).
Proof. rewrite <- inBlockRange_spec. destruct (inBlockRange gte lt sale); intuition congruence. Qed.

Ltac range_facts :=
  repeat match goal with
    | H : inBlockRange _ _ _ = true |- _ => apply inBlockRange_spec in H
    | H : inBlockRange _ _ _ = false |- _ => apply inBlockRange_false in H
    end.

(** Cutting a descending list at a block number: the rows of
    [[mid, hi)] come first, those of [[lo, mid)] after them. *)
Lemma filter_range_split lo mid hi l :
  StronglySorted desc l -> lo <= mid <= hi ->
  List.filter (inBlockRange lo hi) l
  = List.filter (inBlockRange mid hi) l ++ List.filter (inBlockRange lo mid) l.
Proof.
  intros Hs Hm. induction Hs as [|a l Hl IH Ha]; simpl; [reflexivity|].
  destruct (inBlockRange lo hi a) eqn:E1, (inBlockRange mid hi a) eqn:E2,
    (inBlockRange lo mid a) eqn:E3; range_facts; try lia; simpl.
  - rewrite IH. reflexivity.
  - rewrite IH.
    rewrite (filter_none (inBlockRange mid hi) l); [reflexivity|].
    intros x Hx. rewrite List.Forall_forall in Ha. specialize (Ha x Hx).
    unfold desc in Ha. apply inBlockRange_false. lia.
  - exact IH.
Qed.

(** ** The boundary search of [getAllSalesBetweenBlockNumbers] *)

(** On a stack in ascending order, the search keeps the sales strictly above
    the block it started from, and fails exactly when there are none. *)
Lemma findBlockToSplit_asc c stack :
  c <> -1 -> StronglySorted asc stack ->
  findBlockToSplit c stack
  = match List.filter (above c) stack with
    | [] => Throw TypeError
    | s :: _ => Ok (rev (List.filter (above c) stack), blockNumber s)
    end.
Proof.
  intros Hc Hs. induction Hs as [|a l Hl IH Ha]; simpl; [reflexivity|].
  destruct (Z.eqb_spec c (-1)) as [|_]; [contradiction|].
  change (c <? blockNumber a) with (above c a).
  destruct (above c a) eqn:E.
  - rewrite (filter_all (above c) l); [reflexivity|].
    intros x Hx. rewrite List.Forall_forall in Ha. specialize (Ha x Hx).
    unfold asc in Ha. unfold above in *. apply Z.ltb_lt. apply Z.ltb_lt in E. lia.
  - exact IH.
Qed.

(** A page made of one block only: every pop discards, and the pop of the
    emptied page raises. *)
Lemma findBlockToSplit_one_block c stack :
  (forall s, In s stack -> blockNumber s = c) ->
  findBlockToSplit (-1) stack = Throw TypeError
  /\ findBlockToSplit c stack = Throw TypeError.
Proof.
  induction stack as [|a l IH]; intros Hall; simpl; [split; reflexivity|].
  assert (Ha : blockNumber a = c) by (apply Hall; simpl; auto).
  destruct IH as [IH1 IH2]; [intros s Hs; apply Hall; simpl; auto|].
  rewrite Ha. split; [exact IH2|].
  destruct (c =? -1); [exact IH2|].
  rewrite Z.ltb_irrefl. exact IH2.
Qed.

(** The search on a full page cut out of a descending list [M]: either the
    page is one block and the search raises, or it stops at a sale [s] of
    [M] and keeps the rows of [M] from the block of [s] upwards, which are
    fewer than a page. *)
Lemma findBlockToSplit_page (first : nat) (M : list T_Sale) :
  StronglySorted desc M ->
  Forall (fun s => 0 <= blockNumber s) M ->
  length (firstn first M) = first ->
  first <> 0%nat ->
  (exists c,
      (forall y, In y (firstn first M) -> (blockNumber y =? c) = true)
      /\ findBlockToSplit (-1) (rev (firstn first M)) = Throw TypeError)
  \/ (exists s,
        In s M
        /\ findBlockToSplit (-1) (rev (firstn first M))
           = Ok (List.filter (fun x => blockNumber s <=? blockNumber x) M,
                 blockNumber s)
        /\ (length (List.filter
                       (fun x => (blockNumber s <=? blockNumber x)%Z) M)
            < first)%nat).
Proof.
  intros Hs Hpos Hfull Hfirst.
  pose proof (firstn_skipn first M) as HM.
  set (page := firstn first M) in *. set (rest := skipn first M) in *.
  assert (Hpage : StronglySorted desc page).
  { rewrite <- HM in Hs. exact (StronglySorted_app_1_l _ _ _ Hs). }
  assert (Hin : forall x, In x page -> In x M).
  { intros x Hx. rewrite <- HM. apply in_or_app. auto. }
  pose proof (StronglySorted_rev_desc _ Hpage) as Hasc.
  pose proof (length_rev page) as Hlen.
  destruct (rev page) as [|x stack] eqn:Erev.
  { simpl in Hlen. lia. }
  assert (Hxpage : In x page).
  { apply in_rev. rewrite Erev. simpl. auto. }
  assert (Hx0 : 0 <= blockNumber x).
  { rewrite List.Forall_forall in Hpos. apply Hpos, Hin, Hxpage. }
  apply StronglySorted_inv in Hasc. destruct Hasc as [Hstack Hmin].
  rewrite List.Forall_forall in Hmin.
  simpl. rewrite (findBlockToSplit_asc (blockNumber x) stack) by (lia || assumption).
  set (c := blockNumber x) in *.
  assert (Hkept : List.filter (above c) (rev page) = List.filter (above c) stack).
  { rewrite Erev. simpl. unfold above at 1. fold c. rewrite Z.ltb_irrefl. reflexivity. }
  assert (Hrest : forall y, In y rest -> blockNumber y <= c).
  { intros y Hy. rewrite <- HM in Hs.
    apply (StronglySorted_app_1_elem_of _ _ _ x y Hs);
      apply list_elem_of_In; assumption. }
  assert (HkeptM : List.filter (above c) M = rev (List.filter (above c) stack)).
  { rewrite <- Hkept, List.filter_rev, rev_involutive.
    rewrite <- HM at 1. rewrite List.filter_app.
    rewrite (filter_none (above c) rest), app_nil_r; [reflexivity|].
    intros y Hy. unfold above. apply Z.ltb_ge. auto. }
  assert (HkeptLen : (length (List.filter (above c) M) < first)%nat).
  { rewrite HkeptM, length_rev.
    pose proof (filter_length_le (above c) stack). simpl in Hlen. lia. }
  destruct (List.filter (above c) stack) as [|s kept] eqn:Ekept.
  - (* nothing above the last block: the page is one block *)
    left. exists c. split; [|reflexivity].
    intros y Hy. apply Z.eqb_eq.
    apply in_rev in Hy. rewrite Erev in Hy. destruct Hy as [<-|Hy]; [reflexivity|].
    pose proof (Hmin y Hy) as Hge. unfold asc in Hge. fold c in Hge.
    destruct (Z.ltb_spec c (blockNumber y)) as [Hlt|Hle]; [|lia].
    assert (In y (List.filter (above c) stack)) as Hk.
    { apply filter_In. split; [assumption|]. unfold above. apply Z.ltb_lt. lia. }
    rewrite Ekept in Hk. destruct Hk.
  - right. exists s.
    assert (Hsk : In s (List.filter (above c) stack)) by (rewrite Ekept; simpl; auto).
    apply filter_In in Hsk. destruct Hsk as [Hsstack Hsc].
    unfold above in Hsc. apply Z.ltb_lt in Hsc.
    assert (Hsame : List.filter (above c) M
                    = List.filter (fun x => blockNumber s <=? blockNumber x) M).
    { apply filter_ext_in. intros y Hy.
      unfold above.
      pose proof (StronglySorted_filter asc (above c) stack Hstack) as Hks.
      rewrite Ekept in Hks. apply StronglySorted_inv in Hks.
      destruct Hks as [_ Hsmin]. rewrite List.Forall_forall in Hsmin.
      destruct (Z.ltb_spec c (blockNumber y)) as [Hlt|Hle];
        destruct (Z.leb_spec (blockNumber s) (blockNumber y)) as [Hle'|Hlt'];
        try reflexivity; try lia.
      exfalso.
      assert (In y (List.filter (above c) M)) as Hk.
      { apply filter_In. split; [assumption|]. unfold above. apply Z.ltb_lt. lia. }
      rewrite HkeptM in Hk. apply in_rev in Hk.
      destruct Hk as [<-|Hk]; [lia|].
      specialize (Hsmin y Hk). unfold asc in Hsmin. lia. }
    split; [apply Hin, in_rev; rewrite Erev; simpl; auto|].
    split; [|rewrite <- Hsame; exact HkeptLen].
    rewrite <- Hsame, HkeptM. reflexivity.
Qed.

(** When no block of [M] fills a page, the search on a full page finds its
    boundary. *)
Lemma findBlockToSplit_full_page (first : nat) (M : list T_Sale) :
  StronglySorted desc M ->
  Forall (fun s => 0 <= blockNumber s) M ->
  length (firstn first M) = first ->
  (forall b : Z,
      (length (List.filter (fun s => (blockNumber s =? b)%Z) M) < first)%nat) ->
  exists s,
    In s M
    /\ findBlockToSplit (-1) (rev (firstn first M))
       = Ok (List.filter (fun x => blockNumber s <=? blockNumber x) M,
             blockNumber s).
Proof.
  intros Hs Hpos Hfull Hblock.
  assert (Hfirst : first <> 0%nat) by (specialize (Hblock 0); lia).
  destruct (findBlockToSplit_page first M Hs Hpos Hfull Hfirst)
    as [[c [Hone _]]|[s [HsM [Hrun _]]]].
  - exfalso. specialize (Hblock c).
    pose proof (filter_length_firstn (fun s => blockNumber s =? c) first M) as Hle.
    rewrite (filter_all _ _ Hone) in Hle. lia.
  - exists s. split; assumption.
Qed.

Lemma filter_above_range lo lt B l :
  lo <= B ->
  List.filter (fun x => B <=? blockNumber x) (List.filter (inBlockRange lo lt) l)
  = List.filter (inBlockRange B lt) l.
Proof.
  intros HB. induction l as [|a l IH]; simpl; [reflexivity|].
  destruct (inBlockRange lo lt a) eqn:E1, (inBlockRange B lt a) eqn:E2;
    range_facts; simpl; rewrite ?IH;
    destruct (Z.leb_spec B (blockNumber a)); try reflexivity; lia.
Qed.

Lemma NoDup_map_filter {A B} (f : A -> B) (p : A -> bool) l :
  List.NoDup (map f l) -> List.NoDup (map f (List.filter p l)).
Proof.
  induction l as [|a l IH]; simpl; intros Hnd; [constructor|].
  apply List.NoDup_cons_iff in Hnd. destruct Hnd as [Hnotin Hnd].
  destruct (p a); simpl; [|auto].
  apply List.NoDup_cons; [|auto].
  intros Hin. apply Hnotin. apply in_map_iff in Hin.
  destruct Hin as [x [Hfx Hx]]. apply filter_In in Hx.
  apply in_map_iff. exists x. tauto.
Qed.

Section Scroll.

Variable indexed : list T_Sale.
Variable first : nat.
Variables lo hi : Z.

Hypothesis indexed_desc : StronglySorted desc indexed.
Hypothesis indexed_nonneg : Forall (fun s => 0 <= blockNumber s) indexed.
Hypothesis no_block_fills_a_page : forall b : Z,
  (length (List.filter (fun s => (blockNumber s =? b)%Z)
             (List.filter (inBlockRange lo hi) indexed)) < first)%nat.

(** The loop invariant: what was collected, followed by what is still to
    be asked for, is the whole range. Each full page lowers
    [blockNumberLt], which bounds the number of rounds. *)
Lemma scrollSales_invariant fuel sales blockNumberLt :
  sales ++ List.filter (inBlockRange lo blockNumberLt) indexed
    = List.filter (inBlockRange lo hi) indexed ->
  (Z.to_nat (blockNumberLt - lo) < fuel)%nat ->
  scrollSales indexed first fuel sales lo blockNumberLt
  = Some (Ok (List.filter (inBlockRange lo hi) indexed)).
Proof.
  revert sales blockNumberLt.
  induction fuel as [|fuel IH]; intros sales lt Hinv Hfuel; [lia|].
  simpl. unfold getSalesBetweenBlockNumbers.
  change (skipn 0 (List.filter (inBlockRange lo lt) indexed))
    with (List.filter (inBlockRange lo lt) indexed).
  set (M := List.filter (inBlockRange lo lt) indexed) in *.
  destruct (Nat.ltb_spec (length (firstn first M)) first) as [Hshort|Hfull].
  - rewrite length_firstn in Hshort.
    rewrite firstn_all2 by lia. rewrite Hinv. reflexivity.
  - assert (HfullEq : length (firstn first M) = first).
    { rewrite length_firstn in *. lia. }
    destruct (findBlockToSplit_full_page first M) as [s [HsM Hsplit]].
    + apply StronglySorted_filter, indexed_desc.
    + rewrite List.Forall_forall in *. intros x Hx.
      apply indexed_nonneg. apply filter_In in Hx. tauto.
    + exact HfullEq.
    + intros b. specialize (no_block_fills_a_page b).
      rewrite <- Hinv, List.filter_app, List.length_app in no_block_fills_a_page.
      lia.
    + rewrite Hsplit.
      apply filter_In in HsM. destruct HsM as [_ Hrange]. range_facts.
      apply IH; [|lia].
      unfold M. rewrite filter_above_range by lia.
      rewrite <- Hinv, <- app_assoc. f_equal.
      symmetry. apply filter_range_split; [exact indexed_desc|lia].
Qed.

End Scroll.

Section ScrollRaises.

Variable indexed : list T_Sale.
Variable first : nat.
Variable lo : Z.
Variable b : Z.

Hypothesis indexed_desc : StronglySorted desc indexed.
Hypothesis indexed_nonneg : Forall (fun s => 0 <= blockNumber s) indexed.
Hypothesis first_positive : first <> 0%nat.

(** The other way round: as long as the block [b] holds a full page of the
    rows still to be asked for, every round either raises or lowers
    [blockNumberLt] to a block above [b]; the rounds being bounded, the call
    raises. *)
Lemma scrollSales_block_fills_a_page fuel : forall sales blockNumberLt,
  (first <= length (List.filter (fun s => (blockNumber s =? b)%Z)
                      (List.filter (inBlockRange lo blockNumberLt) indexed)))%nat ->
  (Z.to_nat (blockNumberLt - lo) < fuel)%nat ->
  scrollSales indexed first fuel sales lo blockNumberLt = Some (Throw TypeError).
Proof.
  induction fuel as [|fuel IH]; intros sales lt Hcount Hfuel; [lia|].
  simpl. unfold getSalesBetweenBlockNumbers.
  change (skipn 0 (List.filter (inBlockRange lo lt) indexed))
    with (List.filter (inBlockRange lo lt) indexed).
  set (M := List.filter (inBlockRange lo lt) indexed) in *.
  pose proof (filter_length_le (fun s => blockNumber s =? b) M) as HM.
  assert (Hfull : length (firstn first M) = first) by (rewrite length_firstn; lia).
  rewrite Hfull, Nat.ltb_irrefl.
  assert (HsortedM : StronglySorted desc M) by apply StronglySorted_filter, indexed_desc.
  assert (HnonnegM : Forall (fun s => 0 <= blockNumber s) M).
  { rewrite List.Forall_forall in *. intros x Hx.
    apply indexed_nonneg. apply filter_In in Hx. tauto. }
  destruct (findBlockToSplit_page first M HsortedM HnonnegM Hfull first_positive)
    as [[c [_ Hrun]]|[s [HsM [Hrun Hkept]]]]; rewrite Hrun; [reflexivity|].
  apply filter_In in HsM. destruct HsM as [_ Hrange]. range_facts.
  apply IH; [|lia].
  unfold M in Hkept, Hcount. rewrite filter_above_range in Hkept by lia.
  rewrite (filter_range_split lo (blockNumber s) lt indexed indexed_desc) in Hcount
    by lia.
  rewrite List.filter_app, List.length_app in Hcount.
  destruct (Z.ltb_spec b (blockNumber s)) as [Hbelow|Habove].
  - rewrite (filter_none _ (List.filter (inBlockRange (blockNumber s) lt) indexed))
      in Hcount; [exact Hcount|].
    intros x Hx. apply filter_In in Hx. destruct Hx as [_ Hx]. range_facts.
    apply Z.eqb_neq. lia.
  - exfalso.
    rewrite (filter_none _ (List.filter (inBlockRange lo (blockNumber s)) indexed))
      in Hcount.
    + pose proof (filter_length_le (fun s => blockNumber s =? b)
                    (List.filter (inBlockRange (blockNumber s) lt) indexed)).
      simpl in Hcount. lia.
    + intros x Hx. apply filter_In in Hx. destruct Hx as [_ Hx]. range_facts.
      apply Z.eqb_neq. lia.
Qed.

End ScrollRaises.

(** A block of the range that holds 1000 rows or more makes the whole call
    raise: without the condition on the blocks the call does not return. *)
Lemma getAllSalesBetweenBlockNumbers_block_of_1000
    (indexed : list T_Sale) (lo hi b : Z) (fuel : nat) :
  StronglySorted desc indexed ->
  Forall (fun s => 0 <= blockNumber s) indexed ->
  (1000 <= length (List.filter (fun s => (blockNumber s =? b)%Z)
                     (List.filter (inBlockRange lo hi) indexed)))%nat ->
  (Z.to_nat (hi - lo) < fuel)%nat ->
  getAllSalesBetweenBlockNumbers indexed fuel (lo, hi) = Some (Throw TypeError).
Proof.
  intros Hdesc Hnonneg Hblock Hfuel.
  unfold getAllSalesBetweenBlockNumbers. simpl.
  apply (scrollSales_block_fills_a_page indexed 1000 lo b); auto.
Qed.

(** C1. [getAllSalesBetweenBlockNumbers] on [[lo, hi)]: when the source
    serves its rows by descending block number (block numbers being
    non-negative) and no block of the range holds a full page of 1000 rows,
    the call returns, after at most [hi - lo + 1] rounds, exactly the rows of
    the source that lie in the range, in the order of the source: none is
    missing, none is repeated (distinct sale ids stay distinct), and the
    block numbers descend. *)
Theorem getAllSalesBetweenBlockNumbers_complete
    (indexed : list T_Sale) (lo hi : Z) (fuel : nat) :
  StronglySorted desc indexed ->
  Forall (fun s => 0 <= blockNumber s) indexed ->
  (forall b : Z,
      (length (List.filter (fun s => (blockNumber s =? b)%Z)
                 (List.filter (inBlockRange lo hi) indexed)) < 1000)%nat) ->
  (Z.to_nat (hi - lo) < fuel)%nat ->
  exists sales,
    getAllSalesBetweenBlockNumbers indexed fuel (lo, hi) = Some (Ok sales)
    /\ sales = List.filter (inBlockRange lo hi) indexed
    /\ (forall s, In s sales <-> In s indexed /\ lo <= blockNumber s < hi)
    /\ (List.NoDup (map sale_id indexed) -> List.NoDup (map sale_id sales))
    /\ StronglySorted desc sales.
Proof.
  intros Hdesc Hnonneg Hblock Hfuel.
  exists (List.filter (inBlockRange lo hi) indexed).
  split; [|split; [reflexivity|split; [|split]]].
  - unfold getAllSalesBetweenBlockNumbers. simpl.
    apply scrollSales_invariant; auto.
  - intros s. rewrite filter_In, inBlockRange_spec. reflexivity.
  - apply NoDup_map_filter.
  - apply StronglySorted_filter, Hdesc.
Qed.

(** C8. A full page of 1000 rows that all carry one block number, at any
    round of [getAllSalesBetweenBlockNumbers] (whatever was collected before
    and whatever the current upper bound): the boundary search pops the page
    empty and the pop after that raises; the call ends with that exception
    for every positive amount of fuel, so it neither goes on asking nor
    returns the rows collected so far. *)
Theorem getAllSalesBetweenBlockNumbers_one_block_page
    (indexed : list T_Sale) (fuel : nat) (sales : list T_Sale)
    (blockNumberGte blockNumberLt b : Z) :
  let newSales :=
    getSalesBetweenBlockNumbers indexed 1000 0 blockNumberGte blockNumberLt in
  length newSales = 1000%nat ->
  forallb (fun s => blockNumber s =? b) newSales = true ->
  findBlockToSplit (-1) (rev newSales) = Throw TypeError
  /\ scrollSales indexed 1000 (S fuel) sales blockNumberGte blockNumberLt
     = Some (Throw TypeError)
  /\ getAllSalesBetweenBlockNumbers indexed (S fuel) (blockNumberGte, blockNumberLt)
     = Some (Throw TypeError).
Proof.
  intros newSales Hlen Hone.
  assert (Hsearch : findBlockToSplit (-1) (rev newSales) = Throw TypeError).
  { apply (findBlockToSplit_one_block b).
    intros s Hs. apply in_rev in Hs.
    rewrite forallb_forall in Hone. apply Z.eqb_eq, Hone, Hs. }
  assert (Hround : forall acc,
             scrollSales indexed 1000 (S fuel) acc blockNumberGte blockNumberLt
             = Some (Throw TypeError)).
  { intros acc. cbn [scrollSales]. fold newSales.
    rewrite Hlen, Nat.ltb_irrefl, Hsearch. reflexivity. }
  split; [exact Hsearch|split; [apply Hround|]].
  unfold getAllSalesBetweenBlockNumbers. apply Hround.
Qed.

(** ** Sums over the project reports *)

Lemma sumOver_empty measure : sumOver measure ∅ = 0.
Proof. unfold sumOver. apply map_fold_empty. Qed.

Lemma sumOver_insert_fresh measure (m : gmap string ProjectReport) k r :
  m !! k = None ->
  sumOver measure (<[k := r]> m) = sumOver measure m + measure r.
Proof.
  intros Hk. unfold sumOver.
  rewrite map_fold_insert_L; [lia| |exact Hk].
  intros. lia.
Qed.

Lemma sumOver_insert measure (m : gmap string ProjectReport) k r :
  sumOver measure (<[k := r]> m)
  = sumOver measure m - from_option measure 0 (m !! k) + measure r.
Proof.
  destruct (m !! k) as [old|] eqn:Hk; simpl.
  - rewrite <- (insert_delete_eq m k r).
    rewrite <- (insert_delete_id m k old Hk) at 2.
    rewrite !sumOver_insert_fresh by apply lookup_delete_eq. lia.
  - rewrite sumOver_insert_fresh by exact Hk. lia.
Qed.

(** ** [addSale] *)

Lemma addSale_Ok resolver (r r' : ProjectReport) sale nb :
  addSale resolver r sale nb = Ok r' ->
  exists crypto,
    nb <> 0%nat
    /\ resolver (paymentToken sale) = Some crypto
    /\ totalSales r' = S (totalSales r)
    /\ totalIn crypto r' = totalIn crypto r + Z.quot (price sale) (Z.of_nat nb)
    /\ (forall e, exchangeIn crypto e r'
                   = exchangeIn crypto e r
                     + (if Exchange_eqb e (exchange sale)
                        then Z.quot (price sale) (Z.of_nat nb) else 0))
    /\ (forall other, other <> crypto ->
         totalIn other r' = totalIn other r
         /\ forall e, exchangeIn other e r' = exchangeIn other e r).
Proof.
  unfold addSale, BigNumber_div.
  destruct (Z.eqb_spec (Z.of_nat nb) 0) as [|Hnb]; [discriminate|].
  destruct (resolver (paymentToken sale)) as [crypto|]; [|discriminate].
  cbn. intros [= <-]. exists crypto.
  unfold totalIn, exchangeIn; cbn.
  split; [lia|]. split; [reflexivity|]. split; [reflexivity|].
  split; [|split].
  - rewrite lookup_insert_eq.
    destruct (paymentTokenVolumes r !! crypto) as [v|];
      destruct (exchange sale); reflexivity.
  - intros e. rewrite lookup_insert_eq.
    destruct (paymentTokenVolumes r !! crypto) as [v|];
      destruct (exchange sale), e; cbn; lia.
  - intros other Hother. rewrite lookup_insert_ne by congruence.
    split; reflexivity.
Qed.

(** ** The first loop of [generateProjectReports] *)

Lemma sumList_nil {A} (f : A -> Z) : sumList f [] = 0.
Proof. reflexivity. Qed.

Lemma sumList_cons {A} (f : A -> Z) x l : sumList f (x :: l) = f x + sumList f l.
Proof. reflexivity. Qed.

Section Ingestion.

Variable addressToPaymentToken : string -> option string.
Variable parseInt : string -> Z.

(** A quantity read off a report that starts at 0 and that every
    [addSale] raises by an amount depending on the sale only. *)
Variable measure : ProjectReport -> Z.
Variable delta : T_Sale -> nat -> Z.
Hypothesis measure_new : forall i n a p q,
  measure (new_ProjectReport i n a p q) = 0.
Hypothesis measure_addSale : forall r r' sale nb,
  addSale addressToPaymentToken r sale nb = Ok r' ->
  measure r' = measure r + delta sale nb.

Let nameOf (t : T_SaleLookupTable) : string :=
  project_name (token_project (slt_token t)).

Lemma browseLookupTable_measure sale nb reports t reports' :
  browseLookupTable addressToPaymentToken parseInt sale nb reports t
    = Ok reports' ->
  sumOver measure reports' = sumOver measure reports + delta sale nb
  /\ forall projectName,
       measureAt measure reports' projectName
       = measureAt measure reports projectName
         + (if String.eqb (nameOf t) projectName then delta sale nb else 0).
Proof.
  unfold browseLookupTable, measureAt. fold (nameOf t).
  set (r := match reports !! nameOf t with Some r => r | None => _ end).
  destruct (addSale addressToPaymentToken r sale nb) as [r'|e] eqn:Hadd;
    [|discriminate].
  cbn. intros [= <-]. apply measure_addSale in Hadd.
  assert (Hr : measure r = from_option measure 0 (reports !! nameOf t)).
  { subst r. destruct (reports !! nameOf t); [reflexivity|apply measure_new]. }
  clearbody r. rewrite Hr in Hadd.
  split.
  - rewrite sumOver_insert, Hadd. ring.
  - intros projectName. destruct (String.eqb_spec (nameOf t) projectName) as [<-|Hne].
    + rewrite lookup_insert_eq. simpl. exact Hadd.
    + rewrite lookup_insert_ne by exact Hne. ring.
Qed.

Lemma browseLookupTables_measure sale nb tables : forall reports reports',
  forOf (browseLookupTable addressToPaymentToken parseInt sale nb) tables reports
    = Ok reports' ->
  sumOver measure reports'
    = sumOver measure reports + Z.of_nat (length tables) * delta sale nb
  /\ forall projectName,
       measureAt measure reports' projectName
       = measureAt measure reports projectName
         + Z.of_nat (length (List.filter
                               (fun t => String.eqb (nameOf t) projectName)
                               tables))
           * delta sale nb.
Proof.
  induction tables as [|t tables IH]; intros reports reports'; simpl.
  - intros [= <-]. split; [|intros]; lia.
  - destruct (browseLookupTable _ _ sale nb reports t) as [mid|e] eqn:Hstep;
      [|discriminate].
    cbn. intros Hrest.
    apply browseLookupTable_measure in Hstep. destruct Hstep as [Hs1 Hs2].
    apply IH in Hrest. destruct Hrest as [Hr1 Hr2].
    split; [lia|].
    intros projectName. rewrite Hr2, Hs2.
    destruct (String.eqb (nameOf t) projectName); simpl length; lia.
Qed.

Lemma browseSales_measure sales : forall reports reports',
  forOf (browseSale addressToPaymentToken parseInt) sales reports = Ok reports' ->
  sumOver measure reports'
    = sumOver measure reports
      + sumList (fun sale => Z.of_nat (length (saleLookupTables sale))
                             * delta sale (nbTokensSoldOf sale)) sales
  /\ forall projectName,
       measureAt measure reports' projectName
       = measureAt measure reports projectName
         + sumList (fun sale => Z.of_nat (tokensOf projectName sale)
                                * delta sale (nbTokensSoldOf sale)) sales.
Proof.
  induction sales as [|sale sales IH]; intros reports reports';
    rewrite ?sumList_nil; cbn [forOf].
  - intros [= <-]. split; [|intros]; rewrite ?sumList_nil; lia.
  - destruct (browseSale _ _ reports sale) as [mid|e] eqn:Hstep; [|discriminate].
    intros Hrest. cbn in Hrest. unfold browseSale in Hstep.
    apply browseLookupTables_measure in Hstep. destruct Hstep as [Hs1 Hs2].
    apply IH in Hrest. destruct Hrest as [Hr1 Hr2].
    split; [rewrite sumList_cons, Hr1, Hs1; unfold nbTokensSoldOf; ring|].
    intros projectName.
    rewrite sumList_cons, Hr2, Hs2. unfold tokensOf, nameOf, nbTokensSoldOf. ring.
Qed.

End Ingestion.

Lemma totalIn_new crypto i n a p q :
  totalIn crypto (new_ProjectReport i n a p q) = 0.
Proof. reflexivity. Qed.

Lemma exchangeIn_new crypto e i n a p q :
  exchangeIn crypto e (new_ProjectReport i n a p q) = 0.
Proof. reflexivity. Qed.

Lemma totalIn_addSale resolver crypto r r' sale nb :
  addSale resolver r sale nb = Ok r' ->
  totalIn crypto r' = totalIn crypto r + shareIn resolver crypto sale nb.
Proof.
  intros H. apply addSale_Ok in H.
  destruct H as [c [_ [Hc [_ [Htot [_ Hother]]]]]].
  unfold shareIn. rewrite Hc.
  destruct (String.eqb_spec c crypto) as [<-|Hne]; [exact Htot|].
  destruct (Hother crypto) as [-> _]; [congruence|lia].
Qed.

Lemma exchangeIn_addSale resolver crypto e r r' sale nb :
  addSale resolver r sale nb = Ok r' ->
  exchangeIn crypto e r'
  = exchangeIn crypto e r
    + (if Exchange_eqb e (exchange sale) then shareIn resolver crypto sale nb else 0).
Proof.
  intros H. apply addSale_Ok in H.
  destruct H as [c [_ [Hc [_ [_ [Hex Hother]]]]]].
  unfold shareIn. rewrite Hc.
  destruct (String.eqb_spec c crypto) as [<-|Hne]; [apply Hex|].
  destruct (Hother crypto) as [_ ->]; [congruence|].
  destruct (Exchange_eqb e (exchange sale)); lia.
Qed.

Lemma totalSales_addSale resolver r r' sale nb :
  addSale resolver r sale nb = Ok r' ->
  Z.of_nat (totalSales r') = Z.of_nat (totalSales r) + 1.
Proof.
  intros H. apply addSale_Ok in H.
  destruct H as [c [_ [_ [Hn _]]]]. lia.
Qed.

(** C2. In [generateProjectReports], a sale is shared out by its price
    divided, with truncation, by the length of the ["::"]-split of
    [summaryTokensSold]: after the lookup tables of the sale have been
    browsed, the total volume of each project in the sale's payment token,
    and its sub-total for the sale's exchange, have grown by that share once
    per lookup table of the project, and all the reports together by the
    share times the number of lookup tables left, whatever that number is.
    Nothing is added for the remainder: with a price of 100 and 3 tokens the
    share is 33 and three shares make 99, less than the price. *)
Theorem share_is_price_by_original_token_count
    (addressToPaymentToken : string -> option string) (parseInt : string -> Z)
    (projectReports projectReports' : gmap string ProjectReport)
    (sale : T_Sale) (crypto : string) :
  browseSale addressToPaymentToken parseInt projectReports sale
    = Ok projectReports' ->
  addressToPaymentToken (paymentToken sale) = Some crypto ->
  let nbTokensSold := length (split_colons (summaryTokensSold sale)) in
  let share := Z.quot (price sale) (Z.of_nat nbTokensSold) in
  (forall projectName,
      measureAt (totalIn crypto) projectReports' projectName
      = measureAt (totalIn crypto) projectReports projectName
        + Z.of_nat (tokensOf projectName sale) * share)
  /\ (forall projectName,
      measureAt (exchangeIn crypto (exchange sale)) projectReports' projectName
      = measureAt (exchangeIn crypto (exchange sale)) projectReports projectName
        + Z.of_nat (tokensOf projectName sale) * share)
  /\ sumOver (totalIn crypto) projectReports'
     = sumOver (totalIn crypto) projectReports
       + Z.of_nat (length (saleLookupTables sale)) * share
  /\ (price sale = 100 -> nbTokensSold = 3%nat ->
      share = 33 /\ 3 * share = 99 /\ 3 * share < price sale).
Proof.
  intros Hbrowse Hcrypto nbTokensSold share.
  assert (Hshare : shareIn addressToPaymentToken crypto sale nbTokensSold = share).
  { unfold shareIn. rewrite Hcrypto, String.eqb_refl. reflexivity. }
  unfold browseSale in Hbrowse. fold nbTokensSold in Hbrowse.
  pose proof (browseLookupTables_measure addressToPaymentToken parseInt
                (totalIn crypto) (shareIn addressToPaymentToken crypto)
                (totalIn_new crypto)
                (totalIn_addSale addressToPaymentToken crypto)
                _ _ _ _ _ Hbrowse) as [Hsum Htotal].
  pose proof (browseLookupTables_measure addressToPaymentToken parseInt
                (exchangeIn crypto (exchange sale))
                (fun s nb => if Exchange_eqb (exchange sale) (exchange s)
                             then shareIn addressToPaymentToken crypto s nb else 0)
                (exchangeIn_new crypto (exchange sale))
                (exchangeIn_addSale addressToPaymentToken crypto (exchange sale))
                _ _ _ _ _ Hbrowse) as [_ Hexchange].
  rewrite Hshare in Hsum, Htotal.
  assert (He : Exchange_eqb (exchange sale) (exchange sale) = true)
    by (destruct (exchange sale); reflexivity).
  cbv beta in Hexchange. rewrite He, Hshare in Hexchange.
  split; [exact Htotal|]. split; [exact Hexchange|]. split; [exact Hsum|].
  intros Hprice Hnb. subst share. rewrite Hprice, Hnb.
  repeat split; reflexivity.
Qed.

(** ** The token count is never zero *)

Lemma split_from_nonempty s : forall piece,
  (1 <= length (split_from piece s))%nat
  /\ forall c, (1 <= length (split_from piece (String c s)))%nat.
Proof.
  induction s as [|d s IH]; intros piece.
  - split; [simpl; lia|]. intros c. simpl. lia.
  - split; [apply IH|].
    intros c. cbn [split_from].
    destruct (Ascii.eqb c colon && Ascii.eqb d colon)%bool.
    + cbn [length]. lia.
    + apply IH.
Qed.

Lemma forOf_never {A S} (step : S -> A -> result S) (e : Thrown) xs :
  (forall acc x, step acc x <> Throw e) ->
  forall acc, forOf step xs acc <> Throw e.
Proof.
  intros Hstep. induction xs as [|x xs IH]; intros acc; simpl; [discriminate|].
  destruct (step acc x) as [acc'|e'] eqn:E; cbn.
  - apply IH.
  - intros [= ->]. exact (Hstep _ _ E).
Qed.

(** C10. Whatever [summaryTokensSold] is, the empty string included, its
    ["::"]-split has at least one piece; the division of the price by that
    count in [addSale] therefore succeeds, and neither a sale nor a list of
    sales browsed by [generateProjectReports] ends on a division by zero. *)
Theorem nbTokensSold_at_least_one
    (addressToPaymentToken : string -> option string) (parseInt : string -> Z)
    (sale : T_Sale) :
  let nbTokensSold := length (split_colons (summaryTokensSold sale)) in
  (1 <= nbTokensSold)%nat
  /\ length (split_colons "") = 1%nat
  /\ BigNumber_div (price sale) (Z.of_nat nbTokensSold)
     = Ok (Z.quot (price sale) (Z.of_nat nbTokensSold))
  /\ (forall this, addSale addressToPaymentToken this sale nbTokensSold
                   <> Throw DivisionByZero)
  /\ (forall projectReports,
         browseSale addressToPaymentToken parseInt projectReports sale
         <> Throw DivisionByZero)
  /\ (forall sales,
         browseAllSales addressToPaymentToken parseInt sales
         <> Throw DivisionByZero).
Proof.
  assert (Hpos : forall s, (1 <= length (split_colons s))%nat).
  { intros s. apply split_from_nonempty. }
  assert (Hdiv : forall a s,
             BigNumber_div a (Z.of_nat (length (split_colons s)))
             = Ok (Z.quot a (Z.of_nat (length (split_colons s))))).
  { intros a s. unfold BigNumber_div. specialize (Hpos s).
    destruct (Z.eqb_spec (Z.of_nat (length (split_colons s))) 0); [lia|reflexivity]. }
  assert (Hadd : forall s this,
             addSale addressToPaymentToken this s
               (length (split_colons (summaryTokensSold s)))
             <> Throw DivisionByZero).
  { intros s this. unfold addSale. rewrite Hdiv. cbn.
    destruct (addressToPaymentToken (paymentToken s)); cbn; discriminate. }
  assert (Hsale : forall projectReports s,
             browseSale addressToPaymentToken parseInt projectReports s
             <> Throw DivisionByZero).
  { intros projectReports s. unfold browseSale. apply forOf_never.
    intros acc t. unfold browseLookupTable.
    match goal with
    | |- context [addSale ?f ?r ?s ?n] =>
        pose proof (Hadd s r) as Hne; destruct (addSale f r s n)
    end; cbn; [discriminate|congruence]. }
  intros nbTokensSold.
  split; [apply Hpos|]. split; [reflexivity|]. split; [apply Hdiv|].
  split; [apply Hadd|]. split; [intros; apply Hsale|].
  intros sales. unfold browseAllSales. apply forOf_never. apply Hsale.
Qed.

Lemma sumList_tables_ge sales :
  sumList (fun sale => Z.of_nat (length (saleLookupTables sale)) * 1) sales
    >= salesWithTables sales
  /\ (Forall (fun sale => (length (saleLookupTables sale) <= 1)%nat) sales ->
      sumList (fun sale => Z.of_nat (length (saleLookupTables sale)) * 1) sales
      = salesWithTables sales).
Proof.
  unfold salesWithTables.
  induction sales as [|sale sales [IHge IHeq]]; [split; [cbn; lia|reflexivity]|].
  rewrite sumList_cons. cbn [List.filter].
  destruct (Nat.ltb_spec 0 (length (saleLookupTables sale))) as [Hpos|Hzero];
    cbn [length]; split; try lia.
  - intros Hall. inversion Hall; subst. specialize (IHeq ltac:(assumption)). lia.
  - intros Hall. inversion Hall; subst. specialize (IHeq ltac:(assumption)). lia.
Qed.

(** C9, in the form that holds of the code. After the sales have been browsed by
    [generateProjectReports], the sum of [totalSales] over the reports is the
    number of lookup tables of all the sales (each project counting its own);
    it is at least the number of sales that have a lookup table, and equal
    to it when no sale has more than one. *)
Theorem totalSales_conservation
    (addressToPaymentToken : string -> option string) (parseInt : string -> Z)
    (sales : list T_Sale) (projectReports : gmap string ProjectReport) :
  browseAllSales addressToPaymentToken parseInt sales = Ok projectReports ->
  sumTotalSales projectReports
    = sumList (fun sale => Z.of_nat (length (saleLookupTables sale))) sales
  /\ (forall projectName,
         measureAt (fun r => Z.of_nat (totalSales r)) projectReports projectName
         = sumList (fun sale => Z.of_nat (tokensOf projectName sale)) sales)
  /\ sumTotalSales projectReports >= salesWithTables sales
  /\ (Forall (fun sale => (length (saleLookupTables sale) <= 1)%nat) sales ->
      sumTotalSales projectReports = salesWithTables sales).
Proof.
  intros Hbrowse. unfold browseAllSales in Hbrowse.
  pose proof (browseSales_measure addressToPaymentToken parseInt
                (fun r => Z.of_nat (totalSales r)) (fun _ _ => 1)
                (fun _ _ _ _ _ => eq_refl)
                (totalSales_addSale addressToPaymentToken)
                _ _ _ Hbrowse) as [Hsum Hproject].
  rewrite sumOver_empty in Hsum. fold (sumTotalSales projectReports) in Hsum.
  destruct (sumList_tables_ge sales) as [Hge Heq].
  assert (Hone : forall (f : T_Sale -> Z) l,
             sumList (fun sale => f sale * 1) l = sumList f l).
  { intros f l. induction l as [|x l IH]; [reflexivity|].
    rewrite !sumList_cons, IH. lia. }
  rewrite Hone in Hsum, Hge, Heq.
  split; [lia|]. split.
  - intros projectName. rewrite Hproject, Hone.
    unfold measureAt. rewrite lookup_empty. simpl. lia.
  - split; [lia|]. intros Hall. rewrite <- (Heq Hall). lia.
Qed.

(** C9 as worded fails: a bundle of two tokens of one project is one sale
    that spans one project and is counted twice. *)
Lemma totalSales_equality_counterexample :
  ~ conservation_as_stated sampleResolver sampleParseInt [bundleOfOneProject].
Proof.
  intros Hclaim.
  destruct (browseAllSales sampleResolver sampleParseInt [bundleOfOneProject])
    as [projectReports|e] eqn:Hbrowse; [|vm_compute in Hbrowse; discriminate].
  destruct (Hclaim projectReports Hbrowse) as [_ Heq].
  specialize (Heq eq_refl).
  vm_compute in Hbrowse. injection Hbrowse as <-.
  vm_compute in Heq. discriminate.
Qed.

(** ** The sale filters *)

Lemma narrowSale_keeps salesFilter sale sale' :
  narrowSale salesFilter sale = Ok sale' ->
  isPrivate sale' = isPrivate sale /\ blockNumber sale' = blockNumber sale.
Proof.
  unfold narrowSale.
  destruct (filterR _ _) as [l|e]; cbn; [|discriminate].
  intros [= <-]. split; reflexivity.
Qed.

Lemma filterMatchingSales_In salesFilter sales : forall kept,
  filterMatchingSales salesFilter sales = Ok kept ->
  forall sale', In sale' kept <->
    exists sale, In sale sales
                 /\ narrowSale salesFilter sale = Ok sale'
                 /\ saleLookupTables sale' <> [].
Proof.
  induction sales as [|sale sales IH]; intros kept; simpl.
  - intros [= <-] sale'. simpl. split; [tauto|]. intros [? [[] _]].
  - destruct (narrowSale salesFilter sale) as [narrowed|e] eqn:Hn; cbn; [|discriminate].
    destruct (filterMatchingSales salesFilter sales) as [rest|e] eqn:Hr; cbn;
      [|discriminate].
    intros [= <-] sale'. specialize (IH rest eq_refl sale').
    destruct (saleLookupTables narrowed) as [|t l] eqn:Htables; cbn.
    + rewrite IH. split.
      * intros [s [Hs H]]. exists s. tauto.
      * intros [s [[<-|Hs] [Hns Hne]]]; [|exists s; tauto].
        rewrite Hn in Hns. injection Hns as <-. contradiction.
    + split.
      * intros [<-|Hin].
        -- exists sale. rewrite Htables. repeat split; auto; discriminate.
        -- apply IH in Hin. destruct Hin as [s [Hs H]]. exists s. tauto.
      * intros [s [[<-|Hs] [Hns Hne]]].
        -- rewrite Hn in Hns. injection Hns as <-. left. reflexivity.
        -- right. apply IH. exists s. tauto.
Qed.

(** C7. The royalty filter of [processSales] keeps a sale exactly when it is
    not private, or is private and at or after the threshold block. A
    private sale one block before the threshold is dropped, one at the
    threshold is kept. The test reads only [isPrivate] and [blockNumber]:
    sales that agree on both get the same answer, and so does a sale before
    and after its lookup tables were narrowed; in the pipeline, what comes
    out is the narrowed form of the sales that keep a lookup table and whose
    original passes the test. *)
Theorem saleHasRoyalties_private_threshold
    (BLOCK_WHERE_PRIVATE_SALES_HAVE_ROYALTIES : Z) (salesFilter : SalesFilter)
    (sales kept : list T_Sale) :
  processSales_filters BLOCK_WHERE_PRIVATE_SALES_HAVE_ROYALTIES salesFilter sales
    = Ok kept ->
  let hasRoyalties := saleHasRoyalties BLOCK_WHERE_PRIVATE_SALES_HAVE_ROYALTIES in
  (forall sale,
      hasRoyalties sale = true <->
      isPrivate sale = false
      \/ (isPrivate sale = true
          /\ BLOCK_WHERE_PRIVATE_SALES_HAVE_ROYALTIES <= blockNumber sale))
  /\ (forall l sale,
         In sale (List.filter hasRoyalties l) <->
         In sale l /\ hasRoyalties sale = true)
  /\ (forall sale,
         isPrivate sale = true ->
         (blockNumber sale = BLOCK_WHERE_PRIVATE_SALES_HAVE_ROYALTIES - 1 ->
          hasRoyalties sale = false)
         /\ (blockNumber sale = BLOCK_WHERE_PRIVATE_SALES_HAVE_ROYALTIES ->
             hasRoyalties sale = true))
  /\ (forall sale1 sale2,
         isPrivate sale1 = isPrivate sale2 ->
         blockNumber sale1 = blockNumber sale2 ->
         hasRoyalties sale1 = hasRoyalties sale2)
  /\ (forall sale',
         In sale' kept <->
         exists sale,
           In sale sales
           /\ narrowSale salesFilter sale = Ok sale'
           /\ saleLookupTables sale' <> []
           /\ hasRoyalties sale = true).
Proof.
  intros Hfilters hasRoyalties.
  assert (Hiff : forall sale,
             hasRoyalties sale = true <->
             isPrivate sale = false
             \/ (isPrivate sale = true
                 /\ BLOCK_WHERE_PRIVATE_SALES_HAVE_ROYALTIES <= blockNumber sale)).
  { intros sale. unfold hasRoyalties, saleHasRoyalties.
    rewrite orb_true_iff, andb_true_iff, Z.geb_le.
    destruct (isPrivate sale); simpl; intuition congruence. }
  assert (Hsame : forall sale1 sale2,
             isPrivate sale1 = isPrivate sale2 ->
             blockNumber sale1 = blockNumber sale2 ->
             hasRoyalties sale1 = hasRoyalties sale2).
  { intros sale1 sale2 Hp Hb. unfold hasRoyalties, saleHasRoyalties.
    rewrite Hp, Hb. reflexivity. }
  split; [exact Hiff|]. split; [intros; apply filter_In|]. split; [|split].
  - intros sale Hprivate. split; intros Hblock.
    + destruct (hasRoyalties sale) eqn:E; [|reflexivity].
      apply Hiff in E. destruct E as [E|[_ E]]; [congruence|lia].
    + apply Hiff. right. split; [assumption|lia].
  - exact Hsame.
  - unfold processSales_filters in Hfilters.
    destruct (filterMatchingSales salesFilter sales) as [matching|e] eqn:Hm;
      cbn in Hfilters; [|discriminate].
    injection Hfilters as <-. intros sale'.
    rewrite filter_In, (filterMatchingSales_In _ _ _ Hm sale').
    fold hasRoyalties. split.
    + intros [[sale [Hin [Hn Hne]]] Hroyal]. exists sale.
      repeat split; auto.
      destruct (narrowSale_keeps _ _ _ Hn) as [Hp Hb].
      rewrite <- Hroyal. apply Hsame; congruence.
    + intros [sale [Hin [Hn [Hne Hroyal]]]]. split; [exists sale; auto|].
      destruct (narrowSale_keeps _ _ _ Hn) as [Hp Hb].
      rewrite <- Hroyal. apply Hsame; congruence.
Qed.

(** ** [computeCryptoDue] *)

Lemma BigNumber_from_cases n :
  (safeNumber n /\ BigNumber_from (Some n) = Ok n)
  \/ (~ safeNumber n /\ BigNumber_from (Some n) = Throw NumericFault).
Proof.
  unfold BigNumber_from, safeNumber.
  destruct (Z.leb_spec MAX_SAFE n), (Z.leb_spec n (- MAX_SAFE)); cbn [orb];
    [right|right|right|left]; split; try reflexivity; lia.
Qed.

Lemma BigNumber_mul_safe a n :
  safeNumber n -> BigNumber_mul a (Some n) = Ok (a * n).
Proof.
  intros Hn. unfold BigNumber_mul.
  destruct (BigNumber_from_cases n) as [[_ ->]|[Hno _]];
    [reflexivity|contradiction].
Qed.

Lemma BigNumber_mul_unsafe a n :
  ~ safeNumber n -> BigNumber_mul a (Some n) = Throw NumericFault.
Proof.
  intros Hn. unfold BigNumber_mul.
  destruct (BigNumber_from_cases n) as [[Hyes _]|[_ ->]];
    [contradiction|reflexivity].
Qed.

Lemma safeNumber_5 : safeNumber openseaFeesPercentage.
Proof. unfold safeNumber, openseaFeesPercentage, MAX_SAFE. lia. Qed.

Lemma globalDue_supplied fee volumeTotal :
  safeNumber fee ->
  globalDue (Some fee) volumeTotal = Ok (royaltyDue fee volumeTotal).
Proof.
  intros Hfee. unfold globalDue.
  rewrite (BigNumber_mul_safe _ _ safeNumber_5), (BigNumber_mul_safe _ _ Hfee).
  reflexivity.
Qed.

Lemma globalDue_unsafe fee volumeTotal :
  ~ safeNumber fee ->
  globalDue (Some fee) volumeTotal = Throw NumericFault.
Proof.
  intros Hfee. unfold globalDue.
  rewrite (BigNumber_mul_safe _ _ safeNumber_5), (BigNumber_mul_unsafe _ _ Hfee).
  reflexivity.
Qed.

Lemma cryptoDueOf_supplied fee percentage volumeTotal :
  safeNumber fee -> safePercentage percentage ->
  cryptoDueOf (Some fee) percentage volumeTotal
  = Ok {| toArtist := royaltyDue fee volumeTotal
                      - additionalDue percentage (royaltyDue fee volumeTotal);
          toAdditional := additionalDue percentage (royaltyDue fee volumeTotal) |}.
Proof.
  intros Hfee Hpercentage. unfold cryptoDueOf.
  rewrite (globalDue_supplied _ _ Hfee). cbn [mbind result_bind].
  destruct percentage as [p|]; [|reflexivity].
  rewrite (BigNumber_mul_safe _ _ (Hpercentage p eq_refl)). reflexivity.
Qed.

(** A call that returns was given numbers that [BigNumber.from] accepts. *)
Lemma cryptoDueOf_Ok_safe fee percentage volumeTotal repartition :
  cryptoDueOf (Some fee) percentage volumeTotal = Ok repartition ->
  safeNumber fee /\ safePercentage percentage.
Proof.
  unfold cryptoDueOf.
  destruct (BigNumber_from_cases fee) as [[Hfee _]|[Hfee _]].
  - rewrite (globalDue_supplied _ _ Hfee). cbn [mbind result_bind].
    intros Hrun. split; [exact Hfee|]. intros p ->.
    destruct (BigNumber_from_cases p) as [[Hp _]|[Hp _]]; [exact Hp|].
    rewrite (BigNumber_mul_unsafe _ _ Hp) in Hrun. discriminate.
  - rewrite (globalDue_unsafe _ _ Hfee). discriminate.
Qed.

(** A loop that writes [g v] under every key [k] of a list of entries. *)
Lemma forOf_insert_lookup {V W} (f : V -> result W) (g : V -> W)
    (entries : list (string * V)) :
  (forall v, f v = Ok (g v)) ->
  forall acc : gmap string W,
  exists acc',
    forOf (fun (m : gmap string W) (entry : string * V) =>
             w ← f entry.2; Ok (<[entry.1 := w]> m)) entries acc = Ok acc'
    /\ (forall k, k ∉ entries.*1 -> acc' !! k = acc !! k)
    /\ (NoDup entries.*1 ->
        forall k v, (k, v) ∈ entries -> acc' !! k = Some (g v)).
Proof.
  intros Hf. induction entries as [|[k0 v0] entries IH]; intros acc.
  - exists acc. split; [reflexivity|]. split; [reflexivity|].
    intros _ k v Hin. inversion Hin.
  - cbn [forOf]. cbn. rewrite Hf. cbn.
    destruct (IH (<[k0 := g v0]> acc)) as [acc' [Hrun [Hout Hin]]].
    exists acc'. split; [exact Hrun|]. split.
    + intros k Hk. cbn in Hk. apply not_elem_of_cons in Hk. destruct Hk as [Hne Hk].
      rewrite (Hout k Hk). apply lookup_insert_ne. congruence.
    + intros Hnd k v Hkv. cbn in Hnd. apply NoDup_cons in Hnd.
      destruct Hnd as [Hfresh Hnd].
      apply elem_of_cons in Hkv. destruct Hkv as [[= -> ->]|Hkv].
      * rewrite (Hout k0 Hfresh). apply lookup_insert_eq.
      * apply Hin; assumption.
Qed.

Lemma computeCryptoDue_without_fee this :
  paymentTokenVolumes this <> ∅ ->
  computeCryptoDue None this = Throw InvalidBigNumberValue.
Proof.
  intros Hne. unfold computeCryptoDue.
  destruct (map_to_list (paymentTokenVolumes this)) as [|[k v] l] eqn:E.
  - apply map_to_list_empty_iff in E. contradiction.
  - reflexivity.
Qed.

(** Volumes and a fee that are not negative give a royalty due that is not
    negative. *)
Lemma royaltyDue_nonneg fee volumeTotal :
  0 <= fee ->
  0 <= volume_OSV1 volumeTotal -> 0 <= volume_OSV2 volumeTotal ->
  0 <= volume_LOOKSRARE volumeTotal ->
  0 <= royaltyDue fee volumeTotal.
Proof.
  intros Hfee H1 H2 H3. unfold royaltyDue.
  rewrite !Z.quot_div_nonneg by nia.
  assert (0 <= (volume_OSV1 volumeTotal + volume_OSV2 volumeTotal) * 5 / 100)
    by (apply Z.div_pos; nia).
  assert (0 <= volume_LOOKSRARE volumeTotal * fee / 100)
    by (apply Z.div_pos; nia).
  lia.
Qed.

(** C3. Given a fee percentage and an additional-payee percentage that
    [BigNumber.from] accepts, that is, strictly between [-MAX_SAFE] and
    [MAX_SAFE], [computeCryptoDue] returns, and for every payment token of
    the report it records a split whose two parts add up to the royalty due,
    the artist receiving the royalty due minus the part of the additional
    payee. Without an additional-payee percentage that part is 0. With a
    percentage between 0 and 100 and a royalty due that is not negative,
    neither part is negative. A royalty due of 1000 with a percentage of 20
    gives 800 and 200. The sale count and the volumes are left as they
    were. *)
Theorem computeCryptoDue_splits_exactly
    (looksRareFeesPercentage : Z) (this : ProjectReport) (crypto : string)
    (volumeTotal : PaymentTokenVolume) :
  paymentTokenVolumes this !! crypto = Some volumeTotal ->
  safeNumber looksRareFeesPercentage ->
  safePercentage (report_additionalPayeePercentage this) ->
  exists this' due,
    computeCryptoDue (Some looksRareFeesPercentage) this = Ok this'
    /\ cryptoDue this' !! crypto = Some due
    /\ totalSales this' = totalSales this
    /\ paymentTokenVolumes this' = paymentTokenVolumes this
    /\ let globalDue := royaltyDue looksRareFeesPercentage volumeTotal in
       toArtist due + toAdditional due = globalDue
       /\ toArtist due = globalDue - toAdditional due
       /\ (report_additionalPayeePercentage this = None ->
           toAdditional due = 0 /\ toArtist due = globalDue)
       /\ (forall p,
              report_additionalPayeePercentage this = Some p ->
              toAdditional due = Z.quot (globalDue * p) 100
              /\ (0 <= p <= 100 -> 0 <= globalDue ->
                  0 <= toAdditional due <= globalDue /\ 0 <= toArtist due)
              /\ (globalDue = 1000 -> p = 20 ->
                  toArtist due = 800 /\ toAdditional due = 200)).
Proof.
  intros Hvolume Hfee Hpercentage. unfold computeCryptoDue.
  destruct (forOf_insert_lookup
              (cryptoDueOf (Some looksRareFeesPercentage)
                 (report_additionalPayeePercentage this))
              _ (map_to_list (paymentTokenVolumes this))
              (fun volume =>
                 cryptoDueOf_supplied looksRareFeesPercentage
                   (report_additionalPayeePercentage this) volume Hfee
                   Hpercentage)
              (cryptoDue this)) as [due' [Hrun [_ Hin]]].
  rewrite Hrun. cbn.
  specialize (Hin (NoDup_fst_map_to_list _) crypto volumeTotal
                (proj2 (elem_of_map_to_list _ _ _) Hvolume)).
  eexists. eexists. split; [reflexivity|]. cbn.
  split; [exact Hin|]. split; [reflexivity|]. split; [reflexivity|].
  cbn. set (g := royaltyDue looksRareFeesPercentage volumeTotal).
  split; [lia|]. split; [lia|]. split.
  - intros ->. cbn. split; lia.
  - intros p ->. cbn. split; [reflexivity|]. split.
    + intros Hp Hg.
      assert (0 <= Z.quot (g * p) 100 <= g); [|lia].
      rewrite Z.quot_div_nonneg by nia. split.
      * apply Z.div_pos; nia.
      * apply Z.div_le_upper_bound; nia.
    + intros -> ->. split; reflexivity.
Qed.

(** C6. What the code does where the claim fails. [generateProjectReports]
    finalizes each report once, but by a call that passes no fee: on a single
    LooksRare sale the run ends on the exception that [BigNumber.mul] raises
    for [undefined]. Had a fee of 2 been passed to [computeCryptoDue] on the
    same report, the LooksRare volume of 50000 would have given a royalty of
    1000, split 800 and 200. *)
Theorem generateProjectReports_passes_no_fee :
  generateProjectReports sampleResolver sampleParseInt [looksRareSale]
  = Throw InvalidBigNumberValue
  /\ match browseAllSales sampleResolver sampleParseInt [looksRareSale] with
     | Ok projectReports =>
         match projectReports !! "P" with
         | Some report =>
             match computeCryptoDue (Some 2) report with
             | Ok report' =>
                 cryptoDue report' !! "ETH"
                 = Some {| toArtist := 800; toAdditional := 200 |}
             | Throw _ => False
             end
         | None => False
         end
     | Throw _ => False
     end.
Proof. split; vm_compute; reflexivity. Qed.

(** ** The marketplace importer *)

Lemma Revision1_scanPage_stops minBlockNumber before sale after : forall collected,
  forallb (atOrAbove minBlockNumber) before = true ->
  os_blockNumber sale < minBlockNumber ->
  Revision1.scanPage minBlockNumber (before ++ sale :: after) collected
  = (collected ++ before, true).
Proof.
  induction before as [|s before IH]; intros collected Hbefore Hsale; simpl.
  - destruct (Z.geb_spec (os_blockNumber sale) minBlockNumber); [lia|].
    rewrite app_nil_r. reflexivity.
  - simpl in Hbefore. apply andb_true_iff in Hbefore. destruct Hbefore as [Hs Hbefore].
    unfold atOrAbove in Hs. rewrite Hs, IH by assumption.
    rewrite <- app_assoc. reflexivity.
Qed.

Lemma Revision2_scanPage_filters minBlockNumber page : forall collected,
  Revision2.scanPage minBlockNumber page collected
  = (collected ++ List.filter (atOrAbove minBlockNumber) page,
     negb (forallb (atOrAbove minBlockNumber) page)).
Proof.
  induction page as [|s page IH]; intros collected; simpl.
  - rewrite app_nil_r. reflexivity.
  - change (os_blockNumber s >=? minBlockNumber) with (atOrAbove minBlockNumber s).
    destruct (atOrAbove minBlockNumber s); rewrite IH; simpl.
    + rewrite <- app_assoc. reflexivity.
    + reflexivity.
Qed.

(** Outside the excluded collection, [getOpenSeaSalesEvents] is the loop
    started with nothing collected and no cursor. *)
Lemma getOpenSeaSalesEvents_start bundleLookupTables scanPage api fuel
    collectionSlug tokenZero occurredBeforeTimestamp minBlockNumber :
  collectionSlug <> "cryptocitizensofficial" ->
  OpenSea.getOpenSeaSalesEvents bundleLookupTables scanPage api fuel
    collectionSlug tokenZero occurredBeforeTimestamp minBlockNumber
  = scrollEvents bundleLookupTables scanPage api fuel collectionSlug tokenZero
      occurredBeforeTimestamp minBlockNumber [] [] "".
Proof.
  intros Hslug. unfold OpenSea.getOpenSeaSalesEvents.
  destruct (String.eqb_spec collectionSlug "cryptocitizensofficial");
    [contradiction|reflexivity].
Qed.

(** A page of one event is converted by [eventToSale]. *)
Lemma openSeaEventModelToSubgraphModel_one bundleLookupTables tokenZero
    collectionSlug _event sale printed :
  eventToSale bundleLookupTables tokenZero collectionSlug _event
    = Ok (sale, printed) ->
  OpenSea.openSeaEventModelToSubgraphModel bundleLookupTables tokenZero
    collectionSlug [_event]
  = Ok ([sale], printed).
Proof.
  intros Hevent. cbn [OpenSea.openSeaEventModelToSubgraphModel].
  rewrite Hevent. cbn. rewrite app_nil_r. reflexivity.
Qed.

Lemma scrollEvents_round bundleLookupTables scanPage api fuel collectionSlug
    tokenZero occurredBeforeTimestamp minBlockNumber openSeaSales printed _next
    newOpenSeaSales warnings :
  OpenSea.openSeaEventModelToSubgraphModel bundleLookupTables tokenZero
    collectionSlug (asset_events (api collectionSlug occurredBeforeTimestamp _next))
  = Ok (newOpenSeaSales, warnings) ->
  (scanPage minBlockNumber newOpenSeaSales openSeaSales).2 = true ->
  scrollEvents bundleLookupTables scanPage api (S fuel) collectionSlug tokenZero
    occurredBeforeTimestamp minBlockNumber openSeaSales printed _next
  = Some (Ok ((scanPage minBlockNumber newOpenSeaSales openSeaSales).1,
              printed ++ warnings)).
Proof.
  intros Hconvert Hreached. cbn [scrollEvents].
  rewrite Hconvert. cbn. rewrite Hreached.
  destruct (next (api collectionSlug occurredBeforeTimestamp _next)); reflexivity.
Qed.

(** C4, in the form that holds of the code. At any round of [getOpenSeaSalesEvents], when the page
    holds a first sale below [minBlockNumber]: the first revision returns
    what was collected followed by the sales of the page before that one,
    so that sale, the rest of the page and every later page are left out;
    the second revision also returns at that round, asking for no later
    page, but with every sale of the rest of the page that is at or above
    [minBlockNumber] kept as well. *)
Theorem early_stop_by_revision
    (api : string -> Z -> string -> Page) (fuel : nat) (collectionSlug : string)
    (tokenZero : T_TokenZero) (occurredBeforeTimestamp minBlockNumber : Z)
    (openSeaSales : list T_OpenSeaSale) (printed : list Diagnostic)
    (_next : string) (before : list T_OpenSeaSale) (sale : T_OpenSeaSale)
    (after : list T_OpenSeaSale) (warnings : list Diagnostic) :
  forallb (atOrAbove minBlockNumber) before = true ->
  os_blockNumber sale < minBlockNumber ->
  (Revision1.openSeaEventModelToSubgraphModel tokenZero collectionSlug
     (asset_events (api collectionSlug occurredBeforeTimestamp _next))
   = Ok (before ++ sale :: after, warnings) ->
   scrollEvents Revision1.bundleLookupTables Revision1.scanPage api (S fuel)
     collectionSlug tokenZero occurredBeforeTimestamp minBlockNumber
     openSeaSales printed _next
   = Some (Ok (openSeaSales ++ before, printed ++ warnings)))
  /\ (Revision2.openSeaEventModelToSubgraphModel tokenZero collectionSlug
        (asset_events (api collectionSlug occurredBeforeTimestamp _next))
      = Ok (before ++ sale :: after, warnings) ->
      scrollEvents Revision2.bundleLookupTables Revision2.scanPage api (S fuel)
        collectionSlug tokenZero occurredBeforeTimestamp minBlockNumber
        openSeaSales printed _next
      = Some (Ok (openSeaSales ++ before
                    ++ List.filter (atOrAbove minBlockNumber) after,
                  printed ++ warnings))).
Proof.
  intros Hbefore Hsale.
  assert (Hbelow : atOrAbove minBlockNumber sale = false).
  { unfold atOrAbove. destruct (Z.geb_spec (os_blockNumber sale) minBlockNumber);
      [lia|reflexivity]. }
  split; intros Hconvert.
  - rewrite (scrollEvents_round _ _ _ _ _ _ _ _ _ _ _ _ _ Hconvert);
      rewrite Revision1_scanPage_stops by assumption; reflexivity.
  - rewrite (scrollEvents_round _ _ _ _ _ _ _ _ _ _ _ _ _ Hconvert);
      rewrite Revision2_scanPage_filters; cbn [fst snd].
    + rewrite List.filter_app. cbn [List.filter]. rewrite Hbelow.
      rewrite (filter_all _ before); [reflexivity|].
      apply forallb_forall. exact Hbefore.
    + rewrite forallb_app. cbn [forallb]. rewrite Hbelow.
      rewrite andb_false_r. reflexivity.
Qed.

(** C4 as worded fails for the second revision: on the sample page, whose
    blocks are 10, 3 and 8 with a minimum of 5, the sale of block 8 is
    returned although it comes after the sale of block 3. *)
Lemma early_stop_counterexample :
  ~ stopsAtFirstBelow Revision2.bundleLookupTables Revision2.scanPage.
Proof.
  intros Hclaim.
  specialize (Hclaim sampleApi 0%nat "chromie-squiggle" sampleTokenZero 0 5
                [] [] "" [sampleSaleOf "1" 10] (sampleSaleOf "2" 3)
                [sampleSaleOf "3" 8] [] eq_refl eq_refl eq_refl).
  vm_compute in Hclaim. discriminate.
Qed.

(** ** Bundles *)

Lemma prefix_refl s : String.prefix s s = true.
Proof.
  induction s as [|c s IH]; simpl; [reflexivity|].
  destruct (ascii_dec c c); [exact IH|contradiction].
Qed.

Lemma includes_refl s : includes s s = true.
Proof. destruct s; cbn [includes]; rewrite prefix_refl; reflexivity. Qed.

Lemma everySameSlug_false assets a b :
  In a assets -> In b assets -> collection_slug a <> collection_slug b ->
  Revision2.everySameSlug assets = false.
Proof.
  intros Ha Hb Hne. unfold Revision2.everySameSlug.
  destruct assets as [|first rest]; [destruct Ha|].
  destruct (forallb _ (first :: rest)) eqn:E; [|reflexivity].
  rewrite forallb_forall in E.
  pose proof (E a Ha) as Ea. pose proof (E b Hb) as Eb.
  apply String.eqb_eq in Ea, Eb. congruence.
Qed.

Lemma Revision1_bundleLookupTables_filter tokenZero zero collectionSlug _event assets :
  tokenZero_first tokenZero = Ok zero ->
  Revision1.bundleLookupTables tokenZero collectionSlug _event assets
  = Ok (map (fun a => tableOf zero "::" _event (asset_token_id a))
          (List.filter (fun a => String.eqb (collection_slug a) collectionSlug)
             assets),
        map (fun _ => BundleWithMultipleCollectionSlugs (transaction_hash _event))
          (List.filter
             (fun a => negb (String.eqb (collection_slug a) collectionSlug))
             assets)).
Proof.
  intros Hzero. induction assets as [|a assets IH]; [reflexivity|].
  cbn [Revision1.bundleLookupTables List.filter].
  unfold lookupTableFor. rewrite Hzero, IH.
  destruct (String.eqb (collection_slug a) collectionSlug); reflexivity.
Qed.

Lemma Revision2_uniform_accepted tokenZero zero collectionSlug _event assets :
  tokenZero_first tokenZero = Ok zero ->
  forallb (fun a => includes (collection_slug a) collectionSlug) assets = true ->
  exists printed,
    Revision2.uniformBundleLookupTables tokenZero collectionSlug _event assets
    = Ok (map (fun a => tableOf zero "::" _event (asset_token_id a)) assets,
          printed).
Proof.
  intros Hzero. induction assets as [|a assets IH]; intros Hall.
  - exists []. reflexivity.
  - cbn [forallb] in Hall. apply andb_true_iff in Hall. destruct Hall as [Ha Hall].
    destruct (IH Hall) as [printed Hrest].
    cbn [Revision2.uniformBundleLookupTables]. rewrite Ha.
    unfold lookupTableFor. rewrite Hzero, Hrest.
    destruct (String.eqb_spec (collection_slug a) collectionSlug) as [Heq|Hne]; cbn.
    + rewrite (proj2 (String.eqb_eq _ _) Heq). cbn. eexists. reflexivity.
    + rewrite String.eqb_refl. cbn. eexists. reflexivity.
Qed.

Lemma Revision2_uniform_rejected tokenZero zero collectionSlug _event assets :
  tokenZero_first tokenZero = Ok zero ->
  forallb (fun a => includes (collection_slug a) collectionSlug) assets = false ->
  Revision2.uniformBundleLookupTables tokenZero collectionSlug _event assets
  = Throw UnexpectedOSResponse.
Proof.
  intros Hzero. induction assets as [|a assets IH]; intros Hall; [discriminate|].
  cbn [forallb] in Hall. cbn [Revision2.uniformBundleLookupTables].
  destruct (includes (collection_slug a) collectionSlug) eqn:Ha.
  - cbn in Hall. rewrite (IH Hall). unfold lookupTableFor. rewrite Hzero.
    destruct (String.eqb_spec (collection_slug a) collectionSlug) as [Heq|Hne]; cbn.
    + rewrite (proj2 (String.eqb_eq _ _) Heq). reflexivity.
    + rewrite String.eqb_refl. reflexivity.
  - cbn. destruct (String.eqb_spec (collection_slug a) collectionSlug) as [Heq|Hne];
      [|reflexivity].
    rewrite Heq, includes_refl in Ha. discriminate.
Qed.

(** C5, in the form that holds of the code. For a bundle event (the token taken as model being
    there): the first revision keeps exactly the assets whose reported slug
    is the requested one, in their order, and prints a diagnostic for each
    other asset, so a bundle split across collections keeps its matching
    assets. The second revision gives a sale without lookup tables and one
    diagnostic as soon as two assets of the bundle report different slugs;
    a bundle with one reported slug is kept whole when that slug is or
    contains the requested one, and raises otherwise. *)
Theorem bundle_assets_by_revision
    (tokenZero : T_TokenZero) (zero : T_Token) (collectionSlug : string)
    (_event : Event) (assets : list Asset) :
  asset_bundle _event = Some assets ->
  tokenZero_first tokenZero = Ok zero ->
  let table := fun a => tableOf zero "::" _event (asset_token_id a) in
  let matching := fun a => String.eqb (collection_slug a) collectionSlug in
  eventToSale Revision1.bundleLookupTables tokenZero collectionSlug _event
  = Ok (saleOf _event (map table (List.filter matching assets)),
        map (fun _ => BundleWithMultipleCollectionSlugs (transaction_hash _event))
          (List.filter (fun a => negb (matching a)) assets))
  /\ (forall a b, In a assets -> In b assets ->
                  collection_slug a <> collection_slug b ->
                  eventToSale Revision2.bundleLookupTables tokenZero
                    collectionSlug _event
                  = Ok (saleOf _event [],
                        [BundleInDifferentCollectionsSkipped
                           (transaction_hash _event)]))
  /\ (Revision2.everySameSlug assets = true ->
      (forallb (fun a => includes (collection_slug a) collectionSlug) assets = true ->
       exists printed,
         eventToSale Revision2.bundleLookupTables tokenZero collectionSlug _event
         = Ok (saleOf _event (map table assets), printed))
      /\ (forallb (fun a => includes (collection_slug a) collectionSlug) assets
          = false ->
          eventToSale Revision2.bundleLookupTables tokenZero collectionSlug _event
          = Throw UnexpectedOSResponse)).
Proof.
  intros Hbundle Hzero table matching. unfold eventToSale. rewrite Hbundle.
  split; [|split].
  - rewrite (Revision1_bundleLookupTables_filter _ _ _ _ _ Hzero). reflexivity.
  - intros a b Ha Hb Hne. unfold Revision2.bundleLookupTables.
    rewrite (everySameSlug_false assets a b Ha Hb Hne). reflexivity.
  - intros Huniform. unfold Revision2.bundleLookupTables. rewrite Huniform.
    split; intros Hall.
    + destruct (Revision2_uniform_accepted _ _ collectionSlug _event assets Hzero Hall)
        as [printed Hrun].
      exists printed. rewrite Hrun. reflexivity.
    + rewrite (Revision2_uniform_rejected _ _ collectionSlug _event assets Hzero Hall).
      reflexivity.
Qed.

(** C5 as worded fails for the first revision: of the sample bundle, with
    one asset in the requested collection and one in another, the matching
    asset is kept. *)
Lemma mixed_bundle_counterexample :
  ~ mixedBundleContributesNothing Revision1.bundleLookupTables.
Proof.
  intros Hclaim.
  destruct (Hclaim sampleTokenZero "chromie-squiggle" mixedBundle
              [ {| asset_token_id := "7"; collection_slug := "chromie-squiggle" |};
                {| asset_token_id := "8"; collection_slug := "cryptopunks" |} ]
              {| asset_token_id := "7"; collection_slug := "chromie-squiggle" |}
              {| asset_token_id := "8"; collection_slug := "cryptopunks" |}
              eq_refl (or_introl eq_refl) (or_intror (or_introl eq_refl))
              eq_refl eq_refl) as [printed [Hrun _]].
  vm_compute in Hrun. discriminate.
Qed.

(** ** Instances *)

Lemma getAllSalesBetweenBlockNumbers_one_block_page_witness :
  findBlockToSplit (-1)
    (rev (getSalesBetweenBlockNumbers oneBlockIndexed 1000 0 0 10))
  = Throw TypeError
  /\ scrollSales oneBlockIndexed 1000 1 [] 0 10 = Some (Throw TypeError)
  /\ getAllSalesBetweenBlockNumbers oneBlockIndexed 1 (0, 10)
     = Some (Throw TypeError).
Proof.
  apply (getAllSalesBetweenBlockNumbers_one_block_page oneBlockIndexed 0 [] 0 10 7);
    vm_compute; reflexivity.
Defined.

Lemma share_is_price_by_original_token_count_witness :
  let projectReports' :=
    orEmpty (browseSale sampleResolver sampleParseInt ∅ bundleOfThree) in
  measureAt (totalIn "ETH") projectReports' "P" = 33
  /\ measureAt (totalIn "ETH") projectReports' "Q" = 33
  /\ measureAt (totalIn "ETH") projectReports' "R" = 33
  /\ sumOver (totalIn "ETH") projectReports' = 99
  /\ 99 < price bundleOfThree.
Proof.
  intros projectReports'.
  destruct (share_is_price_by_original_token_count sampleResolver sampleParseInt
              ∅ projectReports' bundleOfThree "ETH")
    as [Hproject [_ [Hsum Hexample]]];
    [vm_compute; reflexivity|vm_compute; reflexivity|].
  rewrite !Hproject, Hsum.
  destruct (Hexample eq_refl eq_refl) as [_ [_ Hless]].
  repeat split; vm_compute; reflexivity.
Defined.

Lemma computeCryptoDue_splits_exactly_witness :
  exists this' due,
    computeCryptoDue (Some 2) sampleReport = Ok this'
    /\ cryptoDue this' !! "ETH" = Some due
    /\ toArtist due = 800 /\ toAdditional due = 200
    /\ toArtist due + toAdditional due = 1000.
Proof.
  destruct (computeCryptoDue_splits_exactly 2 sampleReport "ETH"
              {| total := 20000; volume_OSV1 := 20000; volume_OSV2 := 0;
                 volume_LOOKSRARE := 0 |})
    as [this' [due [Hrun [Hdue [_ [_ [Hsum [_ [_ Hpayee]]]]]]]]].
  { vm_compute. reflexivity. }
  { unfold safeNumber, MAX_SAFE. lia. }
  { intros p Hp. vm_compute in Hp. injection Hp as <-.
    unfold safeNumber, MAX_SAFE. lia. }
  exists this', due.
  destruct (Hpayee 20 eq_refl) as [_ [_ Hexample]].
  destruct (Hexample eq_refl eq_refl) as [Hartist Hadditional].
  repeat split; assumption.
Defined.

Lemma early_stop_by_revision_witness :
  scrollEvents Revision1.bundleLookupTables Revision1.scanPage sampleApi 1
    "chromie-squiggle" sampleTokenZero 0 5 [] [] ""
  = Some (Ok ([sampleSaleOf "1" 10], []))
  /\ scrollEvents Revision2.bundleLookupTables Revision2.scanPage sampleApi 1
       "chromie-squiggle" sampleTokenZero 0 5 [] [] ""
     = Some (Ok ([sampleSaleOf "1" 10; sampleSaleOf "3" 8], [])).
Proof.
  destruct (early_stop_by_revision sampleApi 0 "chromie-squiggle" sampleTokenZero
              0 5 [] [] "" [sampleSaleOf "1" 10] (sampleSaleOf "2" 3)
              [sampleSaleOf "3" 8] [] eq_refl eq_refl) as [H1 H2].
  split; [exact (H1 eq_refl)|exact (H2 eq_refl)].
Defined.

Lemma bundle_assets_by_revision_witness :
  (exists kept printed,
      eventToSale Revision1.bundleLookupTables sampleTokenZero
        "chromie-squiggle" mixedBundle
      = Ok (saleOf mixedBundle [kept], [printed]))
  /\ eventToSale Revision2.bundleLookupTables sampleTokenZero
       "chromie-squiggle" mixedBundle
     = Ok (saleOf mixedBundle [],
           [BundleInDifferentCollectionsSkipped (transaction_hash mixedBundle)]).
Proof.
  destruct (bundle_assets_by_revision sampleTokenZero
              {| token_id := "0xc-0"; token_contract := {| contract_id := "0xc" |};
                 token_project := sampleProject "P" None |}
              "chromie-squiggle" mixedBundle
              [ {| asset_token_id := "7"; collection_slug := "chromie-squiggle" |};
                {| asset_token_id := "8"; collection_slug := "cryptopunks" |} ]
              eq_refl eq_refl) as [H1 [H2 _]].
  split.
  - eexists. eexists. exact H1.
  - apply (H2 {| asset_token_id := "7"; collection_slug := "chromie-squiggle" |}
              {| asset_token_id := "8"; collection_slug := "cryptopunks" |});
      [simpl; auto|simpl; auto|discriminate].
Defined.

Lemma saleHasRoyalties_private_threshold_witness :
  processSales_filters 100 noFilter sampleSalesToFilter
  = Ok [privateAt; publicSale]
  /\ saleHasRoyalties 100 privateBefore = false
  /\ saleHasRoyalties 100 privateAt = true
  /\ forall sale',
       In sale' [privateAt; publicSale] <->
       exists sale,
         In sale sampleSalesToFilter
         /\ narrowSale noFilter sale = Ok sale'
         /\ saleLookupTables sale' <> []
         /\ saleHasRoyalties 100 sale = true.
Proof.
  assert (Hrun : processSales_filters 100 noFilter sampleSalesToFilter
                 = Ok [privateAt; publicSale]) by (vm_compute; reflexivity).
  destruct (saleHasRoyalties_private_threshold 100 noFilter sampleSalesToFilter
              [privateAt; publicSale] Hrun) as [_ [_ [Hedge [_ Hkept]]]].
  split; [exact Hrun|]. split; [|split; [|exact Hkept]].
  - exact (proj1 (Hedge privateBefore eq_refl) eq_refl).
  - exact (proj2 (Hedge privateAt eq_refl) eq_refl).
Defined.

Lemma totalSales_conservation_witness :
  sumTotalSales
    (orEmpty (browseAllSales sampleResolver sampleParseInt
                [bundleOfOneProject; bundleOfThree]))
  = 5
  /\ salesWithTables [bundleOfOneProject; bundleOfThree] = 2.
Proof.
  destruct (totalSales_conservation sampleResolver sampleParseInt
              [bundleOfOneProject; bundleOfThree]
              (orEmpty (browseAllSales sampleResolver sampleParseInt
                          [bundleOfOneProject; bundleOfThree])))
    as [Hsum _]; [vm_compute; reflexivity|].
  rewrite Hsum. split; reflexivity.
Defined.

(** * Further properties *)

(** ** [getAllSalesBetweenBlockNumbers]: rounds and outcome *)

Lemma existsb_false_In {A} (f : A -> bool) l x :
  existsb f l = false -> In x l -> f x = false.
Proof.
  intros Hnone Hx. destruct (f x) eqn:E; [|reflexivity].
  rewrite <- Hnone. symmetry. apply existsb_exists. exists x. auto.
Qed.

Lemma blockFillsAPage_false first rows :
  first <> 0%nat ->
  blockFillsAPage first rows = false ->
  forall b : Z,
    (length (List.filter (fun s => (blockNumber s =? b)%Z) rows) < first)%nat.
Proof.
  intros Hfirst Hnone b.
  destruct (List.filter (fun s => blockNumber s =? b) rows) as [|x l] eqn:E;
    [simpl; lia|].
  assert (Hx : In x (List.filter (fun s => blockNumber s =? b) rows))
    by (rewrite E; simpl; auto).
  apply filter_In in Hx. destruct Hx as [Hx Hb]. apply Z.eqb_eq in Hb.
  pose proof (existsb_false_In _ _ x Hnone Hx) as Hcount. cbv beta in Hcount.
  rewrite Hb, E in Hcount. apply Nat.leb_gt in Hcount. exact Hcount.
Qed.

(** X1. With rows served by descending, non-negative block numbers,
    [getAllSalesBetweenBlockNumbers] ends within [hi - lo + 1] rounds
    whatever the source holds: it raises when some block of the range holds
    1000 rows or more, and returns the rows of the range otherwise. *)
Theorem getAllSalesBetweenBlockNumbers_outcome
    (indexed : list T_Sale) (lo hi : Z) (fuel : nat) :
  StronglySorted desc indexed ->
  Forall (fun s => 0 <= blockNumber s) indexed ->
  (Z.to_nat (hi - lo) < fuel)%nat ->
  getAllSalesBetweenBlockNumbers indexed fuel (lo, hi)
  = Some (if blockFillsAPage 1000 (List.filter (inBlockRange lo hi) indexed)
          then Throw TypeError
          else Ok (List.filter (inBlockRange lo hi) indexed)).
Proof.
  intros Hdesc Hnonneg Hfuel. unfold getAllSalesBetweenBlockNumbers. cbn [fst snd].
  destruct (blockFillsAPage 1000 (List.filter (inBlockRange lo hi) indexed))
    eqn:Hfills.
  - unfold blockFillsAPage in Hfills. apply existsb_exists in Hfills.
    destruct Hfills as [s [_ Hs]]. apply Nat.leb_le in Hs.
    apply (scrollSales_block_fills_a_page indexed 1000 lo (blockNumber s));
      auto.
  - apply scrollSales_invariant; auto.
    apply blockFillsAPage_false; [discriminate|exact Hfills].
Qed.

(** X2. A range with fewer than 1000 rows, an empty range included, is
    answered in one round with the rows of the range in the order of the
    source, whatever that order is. *)
Theorem getAllSalesBetweenBlockNumbers_short_range
    (indexed : list T_Sale) (lo hi : Z) (fuel : nat) :
  (length (List.filter (inBlockRange lo hi) indexed) < 1000)%nat ->
  getAllSalesBetweenBlockNumbers indexed (S fuel) (lo, hi)
  = Some (Ok (List.filter (inBlockRange lo hi) indexed))
  /\ scrollSales indexed 1000 1 [] lo hi
     = Some (Ok (List.filter (inBlockRange lo hi) indexed)).
Proof.
  intros Hshort.
  assert (Hround : forall n,
             scrollSales indexed 1000 (S n) [] lo hi
             = Some (Ok (List.filter (inBlockRange lo hi) indexed))).
  { intros n. cbn [scrollSales]. unfold getSalesBetweenBlockNumbers.
    change (skipn 0 (List.filter (inBlockRange lo hi) indexed))
      with (List.filter (inBlockRange lo hi) indexed).
    rewrite firstn_all2 by lia.
    destruct (Nat.ltb_spec (length (List.filter (inBlockRange lo hi) indexed)) 1000);
      [reflexivity|lia]. }
  split; [|apply Hround].
  unfold getAllSalesBetweenBlockNumbers. apply Hround.
Qed.

(** ** The sale filters of [processSales]: fixed points and partitions *)

Lemma filterR_idempotent {A} (callback : A -> result bool) l : forall l',
  filterR callback l = Ok l' -> filterR callback l' = Ok l'.
Proof.
  induction l as [|x l IH]; intros l'; cbn [filterR].
  - intros [= <-]. reflexivity.
  - destruct (callback x) as [keep|e] eqn:Hx; cbn; [|discriminate].
    destruct (filterR callback l) as [rest|e] eqn:Hl; cbn; [|discriminate].
    intros [= <-]. specialize (IH rest eq_refl).
    destruct keep; [|exact IH].
    cbn [filterR]. rewrite Hx, IH. reflexivity.
Qed.

Lemma narrowSale_idempotent salesFilter sale sale' :
  narrowSale salesFilter sale = Ok sale' ->
  narrowSale salesFilter sale' = Ok sale'.
Proof.
  unfold narrowSale.
  destruct (filterR _ (saleLookupTables sale)) as [l|e] eqn:Hl; cbn; [|discriminate].
  intros [= <-]. cbn [saleLookupTables with_saleLookupTables].
  rewrite (filterR_idempotent _ _ _ Hl). reflexivity.
Qed.

Lemma filterMatchingSales_settled salesFilter sales : forall kept,
  filterMatchingSales salesFilter sales = Ok kept ->
  Forall (settled salesFilter) kept.
Proof.
  induction sales as [|sale sales IH]; intros kept; cbn [filterMatchingSales].
  - intros [= <-]. constructor.
  - destruct (narrowSale salesFilter sale) as [sale'|e] eqn:Hn; cbn; [|discriminate].
    destruct (filterMatchingSales salesFilter sales) as [rest|e] eqn:Hr; cbn;
      [|discriminate].
    intros [= <-]. specialize (IH rest eq_refl).
    destruct (saleLookupTables sale') as [|t l] eqn:Ht; cbn; [exact IH|].
    constructor; [|exact IH]. split.
    + exact (narrowSale_idempotent _ _ _ Hn).
    + rewrite Ht. discriminate.
Qed.

Lemma filterMatchingSales_of_settled salesFilter sales :
  Forall (settled salesFilter) sales ->
  filterMatchingSales salesFilter sales = Ok sales.
Proof.
  induction 1 as [|sale sales [Hn Hne] _ IH]; [reflexivity|].
  cbn [filterMatchingSales]. rewrite Hn, IH. cbn.
  destruct (saleLookupTables sale); [contradiction|reflexivity].
Qed.

Lemma Forall_filter_keeps {A} (P : A -> Prop) (p : A -> bool) l :
  Forall P l -> Forall P (List.filter p l).
Proof.
  rewrite !List.Forall_forall. intros H x Hx. apply filter_In in Hx. apply H, Hx.
Qed.

Lemma filter_twice {A} (p : A -> bool) l :
  List.filter p (List.filter p l) = List.filter p l.
Proof.
  apply filter_all. intros x Hx. apply filter_In in Hx. tauto.
Qed.

(** X3. Filtering what the two filters of [processSales] returned, with the
    same filter and threshold, changes nothing: the sales, their order and
    their lookup tables stay as they are. *)
Theorem processSales_filters_idempotent
    (BLOCK_WHERE_PRIVATE_SALES_HAVE_ROYALTIES : Z) (salesFilter : SalesFilter)
    (sales kept : list T_Sale) :
  processSales_filters BLOCK_WHERE_PRIVATE_SALES_HAVE_ROYALTIES salesFilter sales
    = Ok kept ->
  processSales_filters BLOCK_WHERE_PRIVATE_SALES_HAVE_ROYALTIES salesFilter kept
    = Ok kept.
Proof.
  unfold processSales_filters.
  destruct (filterMatchingSales salesFilter sales) as [matching|e] eqn:Hm; cbn;
    [|discriminate].
  intros [= <-].
  apply filterMatchingSales_settled in Hm.
  rewrite (filterMatchingSales_of_settled salesFilter
             (List.filter _ matching) (Forall_filter_keeps _ _ _ Hm)).
  cbn. rewrite filter_twice. reflexivity.
Qed.

Lemma processSales_filters_idempotent_witness :
  processSales_filters 100 noFilter [privateAt; publicSale]
  = Ok [privateAt; publicSale].
Proof.
  apply (processSales_filters_idempotent 100 noFilter sampleSalesToFilter).
  vm_compute. reflexivity.
Defined.

Lemma lookupTablePasses_complete salesFilter t :
  filterIsComplete salesFilter = true ->
  lookupTablePasses salesFilter t = Ok (tablePasses salesFilter t).
Proof.
  unfold filterIsComplete, lookupTablePasses, tablePasses, contractsFilter_includes.
  destruct (contractFilterType salesFilter) as [[|]|],
    (contractsFilter salesFilter) as [l|]; intros H; try discriminate; reflexivity.
Qed.

Lemma filterR_pure {A} (callback : A -> result bool) (p : A -> bool) l :
  (forall x, callback x = Ok (p x)) ->
  filterR callback l = Ok (List.filter p l).
Proof.
  intros H. induction l as [|x l IH]; [reflexivity|].
  cbn [filterR List.filter]. rewrite H, IH. cbn. destruct (p x); reflexivity.
Qed.

Lemma narrowSale_complete salesFilter sale :
  filterIsComplete salesFilter = true ->
  narrowSale salesFilter sale = Ok (narrowed salesFilter sale).
Proof.
  intros H. unfold narrowSale, narrowed.
  rewrite (filterR_pure _ (tablePasses salesFilter))
    by (intros; apply lookupTablePasses_complete, H).
  reflexivity.
Qed.

Lemma filterMatchingSales_complete salesFilter sales :
  filterIsComplete salesFilter = true ->
  filterMatchingSales salesFilter sales
  = Ok (List.filter hasTables (map (narrowed salesFilter) sales)).
Proof.
  intros H. induction sales as [|sale sales IH]; [reflexivity|].
  cbn [filterMatchingSales map List.filter].
  rewrite (narrowSale_complete _ _ H), IH. reflexivity.
Qed.

Lemma filter_complement_Permutation {A} (p : A -> bool) l :
  List.filter p l ++ List.filter (fun x => negb (p x)) l ≡ₚ l.
Proof.
  induction l as [|x l IH]; [reflexivity|].
  cbn [List.filter]. destruct (p x); cbn.
  - constructor. exact IH.
  - rewrite <- Permutation_middle. constructor. exact IH.
Qed.

Lemma filter_and {A} (p q : A -> bool) l :
  List.filter (fun x => p x && q x) l = List.filter q (List.filter p l).
Proof.
  induction l as [|x l IH]; [reflexivity|].
  cbn [List.filter]. destruct (p x); cbn; [|exact IH].
  destruct (q x); rewrite IH; reflexivity.
Qed.

(** X4. With one collection filter and one list of contracts, the filter
    type ONLY and the filter type ONLY_NOT split the lookup tables that the
    collection filter alone keeps: put together, what the two keep of a sale
    is a rearrangement of what the collection filter keeps, and no lookup
    table is kept by both. *)
Theorem contract_filters_partition
    (collection : option Collection) (contracts : list string) (sale : T_Sale) :
  exists byCollection only onlyNot,
    narrowSale {| collectionFilter := collection; contractFilterType := None;
                  contractsFilter := None |} sale = Ok byCollection
    /\ narrowSale (contractFilter collection (Some ONLY) contracts) sale = Ok only
    /\ narrowSale (contractFilter collection (Some ONLY_NOT) contracts) sale
       = Ok onlyNot
    /\ saleLookupTables only ++ saleLookupTables onlyNot
       ≡ₚ saleLookupTables byCollection
    /\ (length (saleLookupTables only) + length (saleLookupTables onlyNot)
        = length (saleLookupTables byCollection))%nat
    /\ (forall t, In t (saleLookupTables only) ->
                  In t (saleLookupTables onlyNot) -> False).
Proof.
  do 3 eexists.
  split; [apply narrowSale_complete; reflexivity|].
  split; [apply narrowSale_complete; reflexivity|].
  split; [apply narrowSale_complete; reflexivity|].
  cbn [narrowed saleLookupTables with_saleLookupTables].
  set (byCollection := fun t : T_SaleLookupTable =>
         match collection with
         | None => true
         | Some c => Collection_eqb (curationStatus (token_project (slt_token t))) c
         end).
  set (listed := fun t : T_SaleLookupTable =>
         array_includes contracts (contract_id (token_contract (slt_token t)))).
  assert (Hall : List.filter
                   (tablePasses {| collectionFilter := collection;
                                   contractFilterType := None;
                                   contractsFilter := None |})
                   (saleLookupTables sale)
                 = List.filter byCollection (saleLookupTables sale)).
  { apply filter_ext. intros t. unfold tablePasses, byCollection. cbn.
    apply andb_true_r. }
  assert (Honly : List.filter
                    (tablePasses (contractFilter collection (Some ONLY) contracts))
                    (saleLookupTables sale)
                  = List.filter listed
                      (List.filter byCollection (saleLookupTables sale))).
  { rewrite <- filter_and. apply filter_ext. intros t. reflexivity. }
  assert (Hnot : List.filter
                   (tablePasses (contractFilter collection (Some ONLY_NOT) contracts))
                   (saleLookupTables sale)
                 = List.filter (fun t => negb (listed t))
                     (List.filter byCollection (saleLookupTables sale))).
  { rewrite <- filter_and. apply filter_ext. intros t. reflexivity. }
  rewrite Hall, Honly, Hnot.
  pose proof (filter_complement_Permutation listed
                (List.filter byCollection (saleLookupTables sale))) as Hperm.
  split; [exact Hperm|]. split.
  - rewrite <- (Permutation_length Hperm), List.length_app. reflexivity.
  - intros t Hin Hout. apply filter_In in Hin, Hout.
    destruct Hin as [_ Hin], Hout as [_ Hout]. rewrite Hin in Hout. discriminate.
Qed.

(** X5. The filter that the command handler builds never makes the filters
    of [processSales] raise, whatever the flags: the call returns the sales
    that keep a lookup table under the plain test and have royalties, with
    their lookup tables narrowed by that test. *)
Theorem handler_filter_never_raises
    (AB_FLAGSHIP_CONTRACTS : list string) (toLowerCase : string -> string)
    (collection : option Collection) (flagship pbab : option bool)
    (contract : option string)
    (BLOCK_WHERE_PRIVATE_SALES_HAVE_ROYALTIES : Z) (sales : list T_Sale) :
  let salesFilter :=
    buildSalesFilter AB_FLAGSHIP_CONTRACTS toLowerCase collection flagship pbab
      contract in
  filterIsComplete salesFilter = true
  /\ processSales_filters BLOCK_WHERE_PRIVATE_SALES_HAVE_ROYALTIES salesFilter sales
     = Ok (List.filter (saleHasRoyalties BLOCK_WHERE_PRIVATE_SALES_HAVE_ROYALTIES)
             (List.filter hasTables (map (narrowed salesFilter) sales))).
Proof.
  intros salesFilter.
  assert (Hcomplete : filterIsComplete salesFilter = true).
  { unfold salesFilter, buildSalesFilter.
    destruct (flagSet flagship), (flagSet pbab), (stringSet contract); reflexivity. }
  split; [exact Hcomplete|].
  unfold processSales_filters.
  rewrite (filterMatchingSales_complete _ _ Hcomplete). reflexivity.
Qed.

Lemma filterR_incomplete salesFilter t l :
  filterIsComplete salesFilter = false ->
  filterR (lookupTablePasses salesFilter) (t :: l) = Throw TypeError.
Proof.
  unfold filterIsComplete. intros H. cbn [filterR].
  unfold lookupTablePasses, contractsFilter_includes.
  destruct (contractFilterType salesFilter) as [[|]|],
    (contractsFilter salesFilter); try discriminate; reflexivity.
Qed.

(** X6. A filter that carries a contract filter type without a list of
    contracts makes the filters of [processSales] raise a TypeError as soon
    as one sale has a lookup table; on sales without any, nothing is kept
    and nothing is raised. *)
Theorem incomplete_filter_raises
    (BLOCK_WHERE_PRIVATE_SALES_HAVE_ROYALTIES : Z) (salesFilter : SalesFilter)
    (sales : list T_Sale) :
  filterIsComplete salesFilter = false ->
  processSales_filters BLOCK_WHERE_PRIVATE_SALES_HAVE_ROYALTIES salesFilter sales
  = if existsb hasTables sales then Throw TypeError else Ok [].
Proof.
  intros Hincomplete. unfold processSales_filters.
  assert (H : filterMatchingSales salesFilter sales
              = if existsb hasTables sales then Throw TypeError else Ok []).
  { induction sales as [|sale sales IH]; [reflexivity|].
    cbn [filterMatchingSales existsb]. unfold narrowSale, hasTables at 1.
    destruct (saleLookupTables sale) as [|t l] eqn:Ht.
    - cbn. rewrite IH. destruct (existsb hasTables sales); reflexivity.
    - rewrite (filterR_incomplete _ _ _ Hincomplete). reflexivity. }
  rewrite H. destruct (existsb hasTables sales); reflexivity.
Qed.

Lemma incomplete_filter_raises_witness :
  processSales_filters 100
    {| collectionFilter := None; contractFilterType := Some ONLY;
       contractsFilter := None |} sampleSalesToFilter
  = Throw TypeError.
Proof.
  rewrite (incomplete_filter_raises 100 _ sampleSalesToFilter); reflexivity.
Defined.

(** ** The report paths of [processSales] *)

Lemma string_length_app (a b : string) :
  String.length (a ++ b)%string = (String.length a + String.length b)%nat.
Proof. induction a as [|c a IH]; simpl; [reflexivity|]. rewrite IH. reflexivity. Qed.

Lemma prefix_length pat : forall s,
  String.prefix pat s = true ->
  (String.length (string_skip (String.length pat) s) + String.length pat
   = String.length s)%nat.
Proof.
  induction pat as [|c pat IH]; intros s; simpl.
  - intros _. lia.
  - destruct s as [|d s]; simpl; [discriminate|].
    destruct (ascii_dec c d); [|discriminate].
    intros H. specialize (IH s H). simpl. lia.
Qed.

Lemma replace_without s pat rep :
  includes s pat = false -> replace s pat rep = s.
Proof.
  induction s as [|c s IH]; cbn [includes replace].
  - destruct (String.prefix pat ""); [discriminate|reflexivity].
  - destruct (String.prefix pat (String c s)); [discriminate|].
    intros H. rewrite (IH H). reflexivity.
Qed.

Lemma replace_length s pat rep :
  includes s pat = true ->
  (String.length (replace s pat rep) + String.length pat
   = String.length s + String.length rep)%nat.
Proof.
  induction s as [|c s IH]; cbn [includes replace].
  - destruct (String.prefix pat "") eqn:E; [|discriminate].
    intros _. rewrite string_length_app.
    pose proof (prefix_length pat "" E). lia.
  - destruct (String.prefix pat (String c s)) eqn:E.
    + intros _. rewrite string_length_app.
      pose proof (prefix_length pat (String c s) E). lia.
    + intros H. specialize (IH H). simpl. lia.
Qed.

Lemma includes_app_r a b pat :
  includes b pat = true -> includes (a ++ b) pat = true.
Proof.
  intros H. induction a as [|c a IH]; [exact H|].
  change (String c a ++ b)%string with (String c (a ++ b)%string).
  cbn [includes]. rewrite IH.
  destruct (String.prefix pat (String c (a ++ b))); reflexivity.
Qed.

Lemma length_neq (a b : string) :
  String.length a <> String.length b -> a <> b.
Proof. intros H ->. contradiction. Qed.

Lemma csvOutputFilePaths_NoDup csvOutputFilePath :
  includes csvOutputFilePath ".csv" = true ->
  NoDup (csvOutputFilePaths csvOutputFilePath).
Proof.
  intros E. unfold csvOutputFilePaths.
  pose proof (replace_length csvOutputFilePath ".csv" "_raw.csv" E) as Hraw.
  pose proof (replace_length csvOutputFilePath ".csv" "_detailed.csv" E) as Hdet.
  cbn [String.length] in Hraw, Hdet.
  repeat constructor.
  - rewrite !elem_of_cons, elem_of_nil.
    intros [H|[H|[]]]; apply (f_equal String.length) in H; lia.
  - rewrite !elem_of_cons, elem_of_nil.
    intros [H|[]]; apply (f_equal String.length) in H; lia.
  - apply not_elem_of_nil.
Qed.

(** X7. The three report files of [processSales] have three different
    paths exactly when the given path contains [.csv]; for a path without
    [.csv] the summary, the detailed and the raw report are all sent to the
    given path itself. *)
Theorem csvOutputFilePaths_distinct_or_same (csvOutputFilePath : string) :
  if includes csvOutputFilePath ".csv"
  then NoDup (csvOutputFilePaths csvOutputFilePath)
  else csvOutputFilePaths csvOutputFilePath
       = [csvOutputFilePath; csvOutputFilePath; csvOutputFilePath].
Proof.
  destruct (includes csvOutputFilePath ".csv") eqn:E.
  - apply csvOutputFilePaths_NoDup, E.
  - unfold csvOutputFilePaths. rewrite !replace_without by exact E. reflexivity.
Qed.

(** X8. The path that the handler makes up when [--csv] comes without
    [--outputPath] always contains [.csv], whatever the folder, the command
    and the blocks: its three report files never share a path. *)
Theorem friendly_path_reports_distinct
    (REPORTS_FOLDER : string) (numberToString : Z -> string)
    (command : string) (previousBlock currentBlock : Z) :
  let path :=
    generateFriendlyCsvOutputFilePath REPORTS_FOLDER numberToString command
      previousBlock currentBlock in
  includes path ".csv" = true /\ NoDup (csvOutputFilePaths path).
Proof.
  intros path.
  assert (Hcsv : includes path ".csv" = true).
  { unfold path, generateFriendlyCsvOutputFilePath.
    repeat apply includes_app_r. reflexivity. }
  split; [exact Hcsv|]. apply csvOutputFilePaths_NoDup, Hcsv.
Qed.

(** ** The request of one page *)

Lemma requestPage_ends attempts : forall fuel i response retries,
  (retries <= MAX_RETRIES)%nat ->
  (S MAX_RETRIES - retries <= fuel)%nat ->
  exists outcome calls delays,
    requestPage fuel attempts i response retries = Some (outcome, calls, delays)
    /\ (i < calls)%nat
    /\ (calls + retries <= i + S MAX_RETRIES)%nat
    /\ (delays <= S MAX_RETRIES)%nat.
Proof.
  unfold MAX_RETRIES.
  induction fuel as [|fuel IH]; intros i response retries Hretries Hfuel; [lia|].
  cbn [requestPage].
  destruct (match attempts i with
            | Answered ok data => Some (ok, data)
            | FetchThrew => response
            end) as [[ok data]|].
  - destruct ok; cbn [negb].
    + do 3 eexists. split; [reflexivity|]. lia.
    + unfold MAX_RETRIES.
      destruct (Nat.ltb_spec retries 15) as [Hlt|Hge].
      * destruct (IH (S i) (Some (false, data)) (S retries)) as
          [outcome [calls [delays [Hrun [Hi [Hcalls Hdelays]]]]]]; [lia|lia|].
        exists outcome, calls, delays. split; [exact Hrun|]. lia.
      * do 3 eexists. split; [reflexivity|]. lia.
  - do 3 eexists. split; [reflexivity|]. lia.
Qed.

Lemma requestPage_more_fuel attempts : forall n i response retries o,
  requestPage n attempts i response retries = Some o ->
  forall m, (n <= m)%nat ->
            requestPage m attempts i response retries = Some o.
Proof.
  induction n as [|n IHn]; intros i response retries o Hn m Hm; [discriminate|].
  destruct m as [|m]; [lia|]. cbn [requestPage] in *.
  destruct (match attempts i with
            | Answered ok data => Some (ok, data)
            | FetchThrew => response
            end) as [[[|] data]|]; cbn [negb] in *; try exact Hn.
  destruct (retries <? MAX_RETRIES)%nat; [|exact Hn].
  apply (IHn _ _ _ _ Hn). lia.
Qed.

(** X9. The request of a page always ends, whatever the server does: it
    makes at most 16 calls of [fetch], the first try and 15 retries, and
    waits at most 16 cool-offs. *)
Theorem requestPage_at_most_16_calls
    (attempts : nat -> FetchAttempt) (fuel : nat) :
  (16 <= fuel)%nat ->
  exists outcome calls delays,
    requestPageFromStart fuel attempts = Some (outcome, calls, delays)
    /\ (1 <= calls <= 16)%nat
    /\ (delays <= 16)%nat.
Proof.
  intros Hfuel. unfold requestPageFromStart.
  destruct (requestPage_ends attempts 16 0 None 0)
    as [outcome [calls [delays [Hrun [Hi [Hcalls Hdelays]]]]]];
    [unfold MAX_RETRIES; lia|unfold MAX_RETRIES; lia|].
  exists outcome, calls, delays.
  split; [apply (requestPage_more_fuel _ _ _ _ _ _ Hrun); exact Hfuel|].
  unfold MAX_RETRIES in *. lia.
Qed.

Lemma requestPage_at_most_16_calls_witness :
  exists outcome calls delays,
    requestPageFromStart 16 thirdTimeLucky = Some (outcome, calls, delays)
    /\ (1 <= calls <= 16)%nat
    /\ (delays <= 16)%nat.
Proof. apply (requestPage_at_most_16_calls thirdTimeLucky 16). lia. Defined.

(** A run of refusals after a refused answer only moves the counters. *)
Lemma requestPage_refusals attempts : forall n fuel i data retries,
  (forall j, (j < n)%nat -> refused (attempts (i + j)%nat) = true) ->
  (retries + n <= MAX_RETRIES)%nat ->
  exists data',
    requestPage (n + fuel) attempts i (Some (false, data)) retries
    = requestPage fuel attempts (i + n) (Some (false, data')) (retries + n).
Proof.
  induction n as [|n IH]; intros fuel i data retries Hrefused Hretries.
  - exists data. rewrite !Nat.add_0_r. reflexivity.
  - assert (Hlt : (retries <? MAX_RETRIES)%nat = true) by (apply Nat.ltb_lt; lia).
    assert (Hrest : forall j, (j < n)%nat -> refused (attempts (S i + j)%nat) = true).
    { intros j Hj. replace (S i + j)%nat with (i + S j)%nat by lia.
      apply Hrefused. lia. }
    pose proof (Hrefused 0%nat ltac:(lia)) as Hfirst. rewrite Nat.add_0_r in Hfirst.
    cbn [Nat.add requestPage].
    destruct (attempts i) as [[|] data1|]; [discriminate| |]; cbn [negb];
      rewrite Hlt.
    + destruct (IH fuel (S i) data1 (S retries) Hrest ltac:(lia)) as [data' Hrun].
      exists data'. rewrite Hrun. f_equal; lia.
    + destruct (IH fuel (S i) data (S retries) Hrest ltac:(lia)) as [data' Hrun].
      exists data'. rewrite Hrun. f_equal; lia.
Qed.

(** X10. When the first call of [fetch] is answered, the page handed on is
    the body of the first answer with [ok] set, as long as it is among the
    first 16 calls: [k] refusals before it, thrown calls among them, cost
    [k] cool-offs and [k + 1] calls. *)
Theorem requestPage_first_accepted_answer
    (attempts : nat -> FetchAttempt) (k fuel : nat) (data : OpenSea.Page) :
  answered (attempts 0%nat) = true ->
  (forall j, (j < k)%nat -> refused (attempts j) = true) ->
  attempts k = Answered true data ->
  (k <= MAX_RETRIES)%nat ->
  (k < fuel)%nat ->
  requestPageFromStart fuel attempts = Some (Fetched data, S k, k).
Proof.
  intros Hfirst Hrefused Hk Hbound Hfuel. unfold requestPageFromStart.
  destruct k as [|k].
  - destruct fuel as [|fuel]; [lia|]. cbn [requestPage]. rewrite Hk. reflexivity.
  - destruct fuel as [|fuel]; [lia|]. cbn [requestPage].
    pose proof (Hrefused 0%nat ltac:(lia)) as H0.
    destruct (attempts 0%nat) as [[|] data0|]; try discriminate. cbn [negb].
    assert (Hlt : (0 <? MAX_RETRIES)%nat = true) by reflexivity. rewrite Hlt.
    destruct (requestPage_refusals attempts k (fuel - k) 1 data0 1) as [data' Hrun].
    { intros j Hj. apply Hrefused. lia. }
    { lia. }
    replace (k + (fuel - k))%nat with fuel in Hrun by lia. rewrite Hrun.
    destruct (fuel - k)%nat as [|rest] eqn:Hrest; [lia|].
    cbn [requestPage]. replace (1 + k)%nat with (S k) by lia.
    rewrite Hk. reflexivity.
Qed.

Lemma requestPage_first_accepted_answer_witness :
  requestPageFromStart 16 thirdTimeLucky
  = Some (Fetched (sampleApi "" 0 ""), 3%nat, 2%nat).
Proof.
  apply (requestPage_first_accepted_answer thirdTimeLucky 2 16).
  - reflexivity.
  - intros [|[|j]] Hj; [reflexivity|reflexivity|lia].
  - reflexivity.
  - unfold MAX_RETRIES. lia.
  - lia.
Defined.

(** X11. A first call of [fetch] that throws is not retried: the loop ends
    on the TypeError of reading [ok] off no response, after one call and no
    cool-off. When the first call is answered and the first 16 calls are all
    refused, the loop gives up after 16 calls and 16 cool-offs. *)
Theorem requestPage_gives_up (attempts : nat -> FetchAttempt) (fuel : nat) :
  (attempts 0%nat = FetchThrew ->
   requestPageFromStart (S fuel) attempts = Some (ResponseUndefined, 1%nat, 0%nat))
  /\ (answered (attempts 0%nat) = true ->
      (forall j, (j < 16)%nat -> refused (attempts j) = true) ->
      requestPageFromStart (16 + fuel) attempts
      = Some (MaxRetriesReached, 16%nat, 16%nat)).
Proof.
  unfold requestPageFromStart. split.
  - intros H. cbn [requestPage]. rewrite H. reflexivity.
  - intros Hfirst Hrefused.
    change (16 + fuel)%nat with (S (15 + fuel)). cbn [requestPage].
    pose proof (Hrefused 0%nat ltac:(lia)) as H0.
    destruct (attempts 0%nat) as [[|] data0|]; try discriminate. cbn [negb].
    assert (Hlt : (0 <? MAX_RETRIES)%nat = true) by reflexivity. rewrite Hlt.
    destruct (requestPage_refusals attempts 14 (S fuel) 1 data0 1) as [data' Hrun].
    { intros j Hj. apply Hrefused. lia. }
    { unfold MAX_RETRIES. lia. }
    change (15 + fuel)%nat with (14 + S fuel)%nat. rewrite Hrun.
    cbn [Nat.add requestPage].
    pose proof (Hrefused 15%nat ltac:(lia)) as H15.
    destruct (attempts 15%nat) as [[|] data15|]; try discriminate; reflexivity.
Qed.

(** ** [computeCryptoDue] once more *)

Lemma computeCryptoDue_lookup fee this :
  paymentTokenVolumes this = ∅
  \/ (safeNumber fee /\ safePercentage (report_additionalPayeePercentage this)) ->
  exists due,
    computeCryptoDue (Some fee) this
    = Ok {| projectId := projectId this; name := name this;
            artistAddress := artistAddress this;
            additionalPayeeAddress := additionalPayeeAddress this;
            report_additionalPayeePercentage :=
              report_additionalPayeePercentage this;
            totalSales := totalSales this;
            paymentTokenVolumes := paymentTokenVolumes this;
            cryptoDue := due |}
    /\ forall crypto,
         due !! crypto
         = match paymentTokenVolumes this !! crypto with
           | Some volumeTotal =>
               Some (repartitionOf fee (report_additionalPayeePercentage this)
                       volumeTotal)
           | None => cryptoDue this !! crypto
           end.
Proof.
  unfold computeCryptoDue. intros [Hempty|[Hfee Hpercentage]].
  - rewrite Hempty, map_to_list_empty. cbn [forOf mbind result_bind].
    exists (cryptoDue this). split; [reflexivity|].
    intros crypto. rewrite lookup_empty. reflexivity.
  - destruct (forOf_insert_lookup
                (cryptoDueOf (Some fee) (report_additionalPayeePercentage this))
                (repartitionOf fee (report_additionalPayeePercentage this))
                (map_to_list (paymentTokenVolumes this))
                (fun volume =>
                   cryptoDueOf_supplied fee
                     (report_additionalPayeePercentage this) volume Hfee
                     Hpercentage)
                (cryptoDue this)) as [due [Hrun [Hout Hin]]].
    exists due. rewrite Hrun. split; [reflexivity|].
    intros crypto.
    destruct (paymentTokenVolumes this !! crypto) as [volumeTotal|] eqn:Hv.
    + apply (Hin (NoDup_fst_map_to_list _)). apply elem_of_map_to_list, Hv.
    + apply Hout. intros Hk. apply list_elem_of_fmap in Hk.
      destruct Hk as [[k v] [-> Hkv]]. apply elem_of_map_to_list in Hkv.
      cbn in Hv. congruence.
Qed.

(** A call that returns on a report with a volume was given numbers that
    [BigNumber.from] accepts. *)
Lemma computeCryptoDue_Ok_safe fee this this' :
  computeCryptoDue (Some fee) this = Ok this' ->
  paymentTokenVolumes this = ∅
  \/ (safeNumber fee /\ safePercentage (report_additionalPayeePercentage this)).
Proof.
  unfold computeCryptoDue.
  destruct (map_to_list (paymentTokenVolumes this)) as [|[k v] l] eqn:E.
  - intros _. left. apply map_to_list_empty_iff, E.
  - cbn [forOf snd fst].
    destruct (cryptoDueOf (Some fee) (report_additionalPayeePercentage this) v)
      as [repartition|e] eqn:Hstep; [|discriminate].
    intros _. right. exact (cryptoDueOf_Ok_safe _ _ _ _ Hstep).
Qed.

Lemma computeCryptoDue_unsafe fee this :
  paymentTokenVolumes this <> ∅ ->
  ~ (safeNumber fee /\ safePercentage (report_additionalPayeePercentage this)) ->
  computeCryptoDue (Some fee) this = Throw NumericFault.
Proof.
  intros Hvolumes Hunsafe. unfold computeCryptoDue.
  destruct (map_to_list (paymentTokenVolumes this)) as [|[k v] l] eqn:E.
  - apply map_to_list_empty_iff in E. contradiction.
  - cbn [forOf snd fst].
    assert (Hstep : cryptoDueOf (Some fee)
                      (report_additionalPayeePercentage this) v
                    = Throw NumericFault).
    { unfold cryptoDueOf.
      destruct (BigNumber_from_cases fee) as [[Hfee _]|[Hfee _]].
      - rewrite (globalDue_supplied _ _ Hfee). cbn [mbind result_bind].
        destruct (report_additionalPayeePercentage this) as [p|].
        + destruct (BigNumber_from_cases p) as [[Hp _]|[Hp _]].
          * exfalso. apply Hunsafe. split; [exact Hfee|].
            intros q [= <-]. exact Hp.
          * rewrite (BigNumber_mul_unsafe _ _ Hp). reflexivity.
        + exfalso. apply Hunsafe. split; [exact Hfee|]. intros q Hq.
          discriminate.
      - rewrite (globalDue_unsafe _ _ Hfee). reflexivity. }
    rewrite Hstep. reflexivity.
Qed.

(** X12. [computeCryptoDue] with a fee writes a split for every payment
    token that has a volume and leaves the entries of other tokens as they
    were; calling it again with the same fee on its result changes
    nothing. *)
Theorem computeCryptoDue_again (fee : Z) (this this' : ProjectReport) :
  computeCryptoDue (Some fee) this = Ok this' ->
  computeCryptoDue (Some fee) this' = Ok this'
  /\ dom (cryptoDue this') = dom (paymentTokenVolumes this) ∪ dom (cryptoDue this)
  /\ forall crypto,
       cryptoDue this' !! crypto
       = match paymentTokenVolumes this !! crypto with
         | Some volumeTotal =>
             Some (repartitionOf fee (report_additionalPayeePercentage this)
                     volumeTotal)
         | None => cryptoDue this !! crypto
         end.
Proof.
  intros Hrun.
  pose proof (computeCryptoDue_Ok_safe fee this this' Hrun) as Hsafe.
  destruct (computeCryptoDue_lookup fee this Hsafe) as [due [Hfirst Hdue]].
  rewrite Hfirst in Hrun. injection Hrun as <-.
  destruct (computeCryptoDue_lookup fee
              {| projectId := projectId this; name := name this;
                 artistAddress := artistAddress this;
                 additionalPayeeAddress := additionalPayeeAddress this;
                 report_additionalPayeePercentage :=
                   report_additionalPayeePercentage this;
                 totalSales := totalSales this;
                 paymentTokenVolumes := paymentTokenVolumes this;
                 cryptoDue := due |} Hsafe) as [due' [Hsecond Hdue']].
  cbn in Hsecond, Hdue'. split; [|split].
  - rewrite Hsecond. do 2 f_equal. apply map_eq. intros crypto.
    rewrite Hdue', Hdue.
    destruct (paymentTokenVolumes this !! crypto); reflexivity.
  - cbn. apply set_eq. intros crypto.
    rewrite elem_of_union, !elem_of_dom, Hdue.
    destruct (paymentTokenVolumes this !! crypto) as [v|] eqn:Hv.
    + split; [intros _; left|intros _]; eauto.
    + split; [intros H; right; exact H|].
      intros [[x Hx]|H]; [discriminate|exact H].
  - exact Hdue.
Qed.

Lemma computeCryptoDue_again_witness :
  exists this',
    computeCryptoDue (Some 2) sampleReport = Ok this'
    /\ computeCryptoDue (Some 2) this' = Ok this'.
Proof.
  assert (Hsafe : paymentTokenVolumes sampleReport = ∅
                  \/ (safeNumber 2
                      /\ safePercentage
                           (report_additionalPayeePercentage sampleReport))).
  { right. split; [unfold safeNumber, MAX_SAFE; lia|].
    intros p Hp. vm_compute in Hp. injection Hp as <-.
    unfold safeNumber, MAX_SAFE. lia. }
  destruct (computeCryptoDue_lookup 2 sampleReport Hsafe) as [due [Hrun _]].
  eexists. split; [exact Hrun|].
  exact (proj1 (computeCryptoDue_again 2 sampleReport _ Hrun)).
Defined.

(** ** What the reports keep while the sales are browsed *)

Lemma forOf_invariant {A S} (step : S -> A -> result S) (P : S -> Prop) xs :
  (forall acc x acc', In x xs -> P acc -> step acc x = Ok acc' -> P acc') ->
  forall acc acc', P acc -> forOf step xs acc = Ok acc' -> P acc'.
Proof.
  induction xs as [|x xs IH]; intros Hstep acc acc' Hacc; cbn [forOf].
  - intros [= <-]. exact Hacc.
  - destruct (step acc x) as [mid|e] eqn:Hx; cbn; [|discriminate].
    apply IH.
    + intros a y a' Hy. apply Hstep. simpl. auto.
    + apply (Hstep acc x mid); simpl; auto.
Qed.

Section ReportInvariant.

Variable addressToPaymentToken : string -> option string.
Variable parseInt : string -> Z.

(** [fresh] holds of a report that was just made, [kept] of a report that
    is in the map, and [good] of the sales browsed. *)
Variable fresh kept : string -> ProjectReport -> Prop.
Variable good : T_Sale -> Prop.

Hypothesis fresh_new : forall p : T_Project,
  fresh (project_name p)
    (new_ProjectReport (parseInt (project_id p)) (project_name p)
       (project_artistAddress p) (additionalPayee p)
       (additionalPayeePercentage p)).
Hypothesis kept_fresh : forall k r, kept k r -> fresh k r.
Hypothesis kept_addSale : forall k r r' sale nb,
  good sale -> fresh k r ->
  addSale addressToPaymentToken r sale nb = Ok r' -> kept k r'.

Let allKept (projectReports : gmap string ProjectReport) : Prop :=
  forall k r, projectReports !! k = Some r -> kept k r.

Lemma browseLookupTable_keeps sale nb reports t reports' :
  good sale -> allKept reports ->
  browseLookupTable addressToPaymentToken parseInt sale nb reports t = Ok reports' ->
  allKept reports'.
Proof.
  intros Hgood Hall. unfold browseLookupTable.
  set (p := token_project (slt_token t)).
  set (r := match reports !! project_name p with Some r => r | None => _ end).
  destruct (addSale addressToPaymentToken r sale nb) as [r'|e] eqn:Hadd;
    [|discriminate].
  cbn. intros [= <-] k r0.
  destruct (decide (project_name p = k)) as [<-|Hne].
  - rewrite lookup_insert_eq. intros [= <-].
    apply (kept_addSale _ r _ sale nb Hgood); [|exact Hadd].
    subst r. destruct (reports !! project_name p) as [r1|] eqn:Hr.
    + apply kept_fresh, Hall, Hr.
    + apply fresh_new.
  - rewrite lookup_insert_ne by exact Hne. apply Hall.
Qed.

Lemma browseAllSales_keeps sales reports :
  Forall good sales ->
  browseAllSales addressToPaymentToken parseInt sales = Ok reports ->
  forall k r, reports !! k = Some r -> kept k r.
Proof.
  intros Hgood Hrun. unfold browseAllSales in Hrun.
  apply (forOf_invariant _ (fun m => allKept m /\ True) sales) with (acc := ∅) in Hrun.
  - apply Hrun.
  - intros acc sale acc' Hsale [Hacc _] Hstep. split; [|exact I].
    unfold browseSale in Hstep.
    apply (forOf_invariant _ allKept (saleLookupTables sale)) with (acc := acc)
      in Hstep; [exact Hstep| |exact Hacc].
    intros a t a' _ Ha. apply browseLookupTable_keeps; [|exact Ha].
    rewrite List.Forall_forall in Hgood. apply Hgood, Hsale.
  - split; [|exact I]. intros k r Hk. rewrite lookup_empty in Hk. discriminate.
Qed.

End ReportInvariant.

Lemma addSale_fields resolver r r' sale nb :
  addSale resolver r sale nb = Ok r' ->
  name r' = name r
  /\ projectId r' = projectId r
  /\ artistAddress r' = artistAddress r
  /\ additionalPayeeAddress r' = additionalPayeeAddress r
  /\ report_additionalPayeePercentage r' = report_additionalPayeePercentage r
  /\ cryptoDue r' = cryptoDue r
  /\ exists crypto volume,
       resolver (paymentToken sale) = Some crypto
       /\ paymentTokenVolumes r'
          = <[crypto := volume]> (paymentTokenVolumes r)
       /\ let old := match paymentTokenVolumes r !! crypto with
                     | Some v => v
                     | None => {| total := 0; volume_OSV1 := 0; volume_OSV2 := 0;
                                  volume_LOOKSRARE := 0 |}
                     end in
          let share := Z.quot (price sale) (Z.of_nat nb) in
          total volume = total old + share
          /\ volume_OSV1 volume + volume_OSV2 volume + volume_LOOKSRARE volume
             = volume_OSV1 old + volume_OSV2 old + volume_LOOKSRARE old + share
          /\ (0 <= share -> volumeNonNegative old -> volumeNonNegative volume).
Proof.
  unfold addSale, BigNumber_div.
  destruct (Z.of_nat nb =? 0); [discriminate|].
  destruct (resolver (paymentToken sale)) as [crypto|]; [|discriminate].
  cbn. intros [= <-]. cbn.
  repeat (split; [reflexivity|]).
  do 2 eexists. split; [reflexivity|]. split; [reflexivity|].
  unfold volumeNonNegative.
  destruct (paymentTokenVolumes r !! crypto) as [v|];
    destruct (exchange sale); cbn; repeat split; lia.
Qed.

(** X13. After the sales have been browsed by [generateProjectReports],
    every volume of every report is balanced: its total is the sum of its
    sub-totals for the three exchanges. *)
Theorem browseAllSales_volumes_balanced
    (addressToPaymentToken : string -> option string) (parseInt : string -> Z)
    (sales : list T_Sale) (projectReports : gmap string ProjectReport)
    (projectName crypto : string) (report : ProjectReport)
    (volume : PaymentTokenVolume) :
  browseAllSales addressToPaymentToken parseInt sales = Ok projectReports ->
  projectReports !! projectName = Some report ->
  paymentTokenVolumes report !! crypto = Some volume ->
  total volume
  = volume_OSV1 volume + volume_OSV2 volume + volume_LOOKSRARE volume.
Proof.
  intros Hrun Hreport Hvolume.
  pose (balanced := fun (_ : string) (r : ProjectReport) =>
          forall c v, paymentTokenVolumes r !! c = Some v -> volumeBalanced v).
  apply (browseAllSales_keeps addressToPaymentToken parseInt balanced balanced
           (fun _ => True)) with (k := projectName) (r := report) in Hrun.
  - exact (Hrun crypto volume Hvolume).
  - intros p c v H. cbn in H. rewrite lookup_empty in H. discriminate.
  - auto.
  - intros k r r' sale nb _ Hr Hadd c v Hv.
    apply addSale_fields in Hadd.
    destruct Hadd as (_ & _ & _ & _ & _ & _ & c0 & v0 & _ & Hvolumes & Htotal & Hsum & _).
    rewrite Hvolumes in Hv.
    destruct (decide (c0 = c)) as [<-|Hne].
    + rewrite lookup_insert_eq in Hv. injection Hv as <-.
      unfold volumeBalanced. rewrite Htotal, Hsum.
      destruct (paymentTokenVolumes r !! c0) as [old|] eqn:Hold; cbn; [|lia].
      pose proof (Hr c0 old Hold) as Hbal. unfold volumeBalanced in Hbal. lia.
    + rewrite lookup_insert_ne in Hv by exact Hne. exact (Hr c v Hv).
  - apply List.Forall_forall. auto.
  - exact Hreport.
Qed.

Lemma browseAllSales_volumes_balanced_witness :
  let projectReports :=
    orEmpty (browseAllSales sampleResolver sampleParseInt [bundleOfOneProject]) in
  let report := default sampleReport (projectReports !! "Chromie Squiggle") in
  let volume :=
    default {| total := 1; volume_OSV1 := 0; volume_OSV2 := 0;
               volume_LOOKSRARE := 0 |}
      (paymentTokenVolumes report !! "ETH") in
  total volume = 100
  /\ total volume
     = volume_OSV1 volume + volume_OSV2 volume + volume_LOOKSRARE volume.
Proof.
  intros projectReports report volume. split; [vm_compute; reflexivity|].
  apply (browseAllSales_volumes_balanced sampleResolver sampleParseInt
           [bundleOfOneProject] projectReports "Chromie Squiggle" "ETH" report);
    vm_compute; reflexivity.
Defined.

Lemma browseLookupTable_dom resolver parseInt sale nb reports t reports' :
  browseLookupTable resolver parseInt sale nb reports t = Ok reports' ->
  forall k, is_Some (reports' !! k) <-> is_Some (reports !! k) \/ projectNameOf t = k.
Proof.
  unfold browseLookupTable. fold (projectNameOf t).
  destruct (addSale _ _ sale nb) as [r'|e]; cbn; [|discriminate].
  intros [= <-] k. destruct (decide (projectNameOf t = k)) as [<-|Hne].
  - rewrite lookup_insert_eq. split; eauto.
  - rewrite lookup_insert_ne by exact Hne. tauto.
Qed.

Lemma browseLookupTables_dom resolver parseInt sale nb tables :
  forall reports reports',
    forOf (browseLookupTable resolver parseInt sale nb) tables reports = Ok reports' ->
    forall k, is_Some (reports' !! k) <->
              is_Some (reports !! k) \/ In k (map projectNameOf tables).
Proof.
  induction tables as [|t tables IH]; intros reports reports'; cbn [forOf map].
  - intros [= <-] k. simpl. tauto.
  - destruct (browseLookupTable _ _ sale nb reports t) as [mid|e] eqn:Hstep; cbn;
      [|discriminate].
    intros Hrest k. rewrite (IH _ _ Hrest k), (browseLookupTable_dom _ _ _ _ _ _ _ Hstep k).
    simpl. tauto.
Qed.

Lemma browseSales_dom resolver parseInt sales : forall reports reports',
  forOf (browseSale resolver parseInt) sales reports = Ok reports' ->
  forall k, is_Some (reports' !! k) <->
            is_Some (reports !! k)
            \/ exists sale, In sale sales
                            /\ In k (map projectNameOf (saleLookupTables sale)).
Proof.
  induction sales as [|sale sales IH]; intros reports reports'; cbn [forOf].
  - intros [= <-] k. split; [auto|]. intros [H|[s [[] _]]]. exact H.
  - destruct (browseSale _ _ reports sale) as [mid|e] eqn:Hstep; cbn; [|discriminate].
    intros Hrest k. unfold browseSale in Hstep.
    rewrite (IH _ _ Hrest k), (browseLookupTables_dom _ _ _ _ _ _ _ Hstep k).
    split.
    + intros [[H|H]|[s [Hs H]]]; [left; exact H|right; exists sale|right; exists s];
        simpl; auto.
    + intros [H|[s [[<-|Hs] H]]]; [auto|auto|]. right. exists s. auto.
Qed.

(** X14. After the sales have been browsed by [generateProjectReports],
    there is a report under a name exactly when some lookup table of some
    sale belongs to a project of that name; the report carries that name,
    counts at least one sale, holds at least one volume and has no amount due
    yet. *)
Theorem browseAllSales_reports_by_name
    (addressToPaymentToken : string -> option string) (parseInt : string -> Z)
    (sales : list T_Sale) (projectReports : gmap string ProjectReport) :
  browseAllSales addressToPaymentToken parseInt sales = Ok projectReports ->
  (forall projectName,
      is_Some (projectReports !! projectName) <->
      exists sale t,
        In sale sales /\ In t (saleLookupTables sale)
        /\ project_name (token_project (slt_token t)) = projectName)
  /\ (forall projectName report,
         projectReports !! projectName = Some report ->
         name report = projectName
         /\ (1 <= totalSales report)%nat
         /\ paymentTokenVolumes report <> ∅
         /\ cryptoDue report = ∅).
Proof.
  intros Hrun. split.
  - intros projectName. unfold browseAllSales in Hrun.
    rewrite (browseSales_dom _ _ _ _ _ Hrun projectName), lookup_empty.
    split.
    + intros [[x Hx]|[sale [Hsale Hk]]]; [discriminate|].
      apply in_map_iff in Hk. destruct Hk as [t [Ht Hin]].
      exists sale, t. auto.
    + intros [sale [t [Hsale [Ht Hk]]]]. right. exists sale. split; [exact Hsale|].
      apply in_map_iff. exists t. auto.
  - intros projectName report Hreport.
    apply (browseAllSales_keeps addressToPaymentToken parseInt
             (fun k r => name r = k /\ cryptoDue r = ∅)
             (fun k r => (name r = k /\ cryptoDue r = ∅)
                         /\ (1 <= totalSales r)%nat
                         /\ paymentTokenVolumes r <> ∅)
             (fun _ => True))
      with (k := projectName) (r := report) in Hrun.
    + tauto.
    + intros p. split; reflexivity.
    + tauto.
    + intros k r r' sale nb _ [Hname Hdue] Hadd.
      pose proof (addSale_Ok _ _ _ _ _ Hadd) as (_ & _ & _ & Hcount & _).
      apply addSale_fields in Hadd.
      destruct Hadd as (Hn & _ & _ & _ & _ & Hd & c & v & _ & Hvolumes & _).
      repeat split; [congruence|congruence|lia|].
      rewrite Hvolumes. apply insert_non_empty.
    + apply List.Forall_forall. auto.
    + exact Hreport.
Qed.

Lemma browseAllSales_reports_by_name_witness :
  let projectReports :=
    orEmpty (browseAllSales sampleResolver sampleParseInt sameNameSales) in
  is_Some (projectReports !! "Untitled")
  /\ ~ is_Some (projectReports !! "Other")
  /\ (artistAddress <$> projectReports !! "Untitled") = Some "0xfirst"
  /\ (totalSales <$> projectReports !! "Untitled") = Some 2%nat.
Proof.
  intros projectReports.
  destruct (browseAllSales_reports_by_name sampleResolver sampleParseInt
              sameNameSales projectReports) as [Hdom _];
    [vm_compute; reflexivity|].
  split; [|split; [|split; vm_compute; reflexivity]].
  - apply Hdom. do 2 eexists. split; [left; reflexivity|].
    split; [left; reflexivity|reflexivity].
  - rewrite Hdom. intros [sale [t [Hsale [Ht Hname]]]].
    destruct Hsale as [<-|[<-|[]]]; destruct Ht as [<-|[]]; discriminate.
Defined.

Lemma additionalDue_bounds percentage due :
  0 <= due ->
  (forall p, percentage = Some p -> 0 <= p <= 100) ->
  0 <= additionalDue percentage due <= due.
Proof.
  intros Hdue Hp. destruct percentage as [p|]; cbn; [|lia].
  specialize (Hp p eq_refl).
  rewrite Z.quot_div_nonneg by nia. split.
  - apply Z.div_pos; nia.
  - apply Z.div_le_upper_bound; nia.
Qed.

(** X15. When no price is negative, no volume of a browsed report is
    negative; finalized with a fee that is not negative and below
    [MAX_SAFE], the bound of [BigNumber.from] on a number, a report whose
    additional-payee percentage, if any, lies between 0 and 100 then holds
    only amounts due that are not negative, and the additional payee is never
    due more than the royalty. *)
Theorem amounts_due_never_negative
    (addressToPaymentToken : string -> option string) (parseInt : string -> Z)
    (sales : list T_Sale) (projectReports : gmap string ProjectReport)
    (projectName : string) (report : ProjectReport) (fee : Z) :
  Forall (fun sale => 0 <= price sale) sales ->
  browseAllSales addressToPaymentToken parseInt sales = Ok projectReports ->
  projectReports !! projectName = Some report ->
  0 <= fee < MAX_SAFE ->
  (forall p, report_additionalPayeePercentage report = Some p -> 0 <= p <= 100) ->
  (forall crypto volume,
      paymentTokenVolumes report !! crypto = Some volume ->
      0 <= volume_OSV1 volume /\ 0 <= volume_OSV2 volume
      /\ 0 <= volume_LOOKSRARE volume /\ 0 <= total volume)
  /\ exists report',
       computeCryptoDue (Some fee) report = Ok report'
       /\ forall crypto due,
            cryptoDue report' !! crypto = Some due ->
            0 <= toArtist due
            /\ 0 <= toAdditional due
            /\ toAdditional due <= toArtist due + toAdditional due.
Proof.
  intros Hprices Hrun Hreport Hfee Hpercentage.
  pose (sound := fun (_ : string) (r : ProjectReport) =>
          cryptoDue r = ∅
          /\ forall c v, paymentTokenVolumes r !! c = Some v -> volumeNonNegative v).
  assert (Hsound : sound projectName report).
  { apply (browseAllSales_keeps addressToPaymentToken parseInt sound sound
             (fun sale => 0 <= price sale) ) with (sales := sales)
        (reports := projectReports); auto.
    - intros p. split; [reflexivity|]. intros c v H. cbn in H.
      rewrite lookup_empty in H. discriminate.
    - intros k r r' sale nb Hprice [Hdue Hr] Hadd.
      apply addSale_fields in Hadd.
      destruct Hadd as (_ & _ & _ & _ & _ & Hd & c0 & v0 & _ & Hvolumes & _ & _ & Hnn).
      split; [congruence|]. intros c v Hv. rewrite Hvolumes in Hv.
      destruct (decide (c0 = c)) as [<-|Hne].
      + rewrite lookup_insert_eq in Hv. injection Hv as <-. apply Hnn.
        * destruct nb as [|nb]; [rewrite Z.quot_0_r_ext by reflexivity; lia|].
          apply Z.quot_pos; lia.
        * destruct (paymentTokenVolumes r !! c0) as [old|] eqn:Hold; cbn.
          -- exact (Hr c0 old Hold).
          -- unfold volumeNonNegative. cbn. lia.
      + rewrite lookup_insert_ne in Hv by exact Hne. exact (Hr c v Hv). }
  destruct Hsound as [Hempty Hvolumes]. split; [exact Hvolumes|].
  assert (Hsafe : paymentTokenVolumes report = ∅
                  \/ (safeNumber fee
                      /\ safePercentage (report_additionalPayeePercentage report))).
  { right. split; [unfold safeNumber; lia|].
    intros p Hp. specialize (Hpercentage p Hp).
    unfold safeNumber, MAX_SAFE. lia. }
  destruct (computeCryptoDue_lookup fee report Hsafe) as [due [Hfinal Hdue]].
  eexists. split; [exact Hfinal|]. cbn. intros crypto d Hd.
  rewrite Hdue in Hd.
  destruct (paymentTokenVolumes report !! crypto) as [v|] eqn:Hv.
  - injection Hd as <-. cbn.
    destruct (Hvolumes crypto v Hv) as (H1 & H2 & H3 & _).
    pose proof (royaltyDue_nonneg fee v (proj1 Hfee) H1 H2 H3) as Hg.
    pose proof (additionalDue_bounds _ _ Hg Hpercentage). lia.
  - rewrite Hempty, lookup_empty in Hd. discriminate.
Qed.

Lemma amounts_due_never_negative_witness :
  let projectReports :=
    orEmpty (browseAllSales sampleResolver sampleParseInt [looksRareSale]) in
  let report := default sampleReport (projectReports !! "P") in
  exists report',
    computeCryptoDue (Some 2) report = Ok report'
    /\ forall crypto due,
         cryptoDue report' !! crypto = Some due ->
         0 <= toArtist due
         /\ 0 <= toAdditional due
         /\ toAdditional due <= toArtist due + toAdditional due.
Proof.
  intros projectReports report.
  apply (amounts_due_never_negative sampleResolver sampleParseInt
           [looksRareSale] projectReports "P" report 2).
  - repeat constructor. vm_compute. discriminate.
  - vm_compute. reflexivity.
  - vm_compute. reflexivity.
  - unfold MAX_SAFE. lia.
  - intros p Hp. vm_compute in Hp. injection Hp as <-. lia.
Defined.

(** ** The outcome of [generateProjectReports] *)

Lemma browseLookupTable_known resolver parseInt sale nb reports t crypto :
  nb <> 0%nat -> resolver (paymentToken sale) = Some crypto ->
  exists reports',
    browseLookupTable resolver parseInt sale nb reports t = Ok reports'.
Proof.
  intros Hnb Hc. unfold browseLookupTable, addSale, BigNumber_div.
  destruct (Z.eqb_spec (Z.of_nat nb) 0) as [H0|_]; [lia|].
  rewrite Hc. cbn. eauto.
Qed.

Lemma browseLookupTable_unknown resolver parseInt sale nb reports t :
  nb <> 0%nat -> resolver (paymentToken sale) = None ->
  browseLookupTable resolver parseInt sale nb reports t
  = Throw UnknownPaymentToken.
Proof.
  intros Hnb Hc. unfold browseLookupTable, addSale, BigNumber_div.
  destruct (Z.eqb_spec (Z.of_nat nb) 0) as [H0|_]; [lia|].
  rewrite Hc. reflexivity.
Qed.

Lemma browseSale_outcome resolver parseInt sale : forall reports,
  if payable resolver sale
  then exists reports', browseSale resolver parseInt reports sale = Ok reports'
  else browseSale resolver parseInt reports sale = Throw UnknownPaymentToken.
Proof.
  unfold payable, browseSale.
  pose proof (split_from_nonempty (summaryTokensSold sale) []) as [Hnb _].
  fold (split_colons (summaryTokensSold sale)) in Hnb.
  set (nb := length (split_colons (summaryTokensSold sale))) in *.
  assert (Hnb' : nb <> 0%nat) by lia.
  destruct (resolver (paymentToken sale)) as [crypto|] eqn:Hc.
  - assert (Hall : forall tables reports,
               exists reports',
                 forOf (browseLookupTable resolver parseInt sale nb) tables reports
                 = Ok reports').
    { induction tables as [|t tables IH]; intros reports; cbn [forOf]; [eauto|].
      destruct (browseLookupTable_known resolver parseInt sale nb reports t
                  crypto Hnb' Hc) as [mid Hmid].
      rewrite Hmid. apply IH. }
    intros reports. destruct (saleLookupTables sale); apply Hall.
  - intros reports. destruct (saleLookupTables sale) as [|t tables]; [cbn; eauto|].
    cbn [forOf].
    rewrite (browseLookupTable_unknown resolver parseInt sale nb reports t Hnb' Hc).
    reflexivity.
Qed.

Lemma browseSales_outcome resolver parseInt sales : forall reports,
  if forallb (payable resolver) sales
  then exists reports',
         forOf (browseSale resolver parseInt) sales reports = Ok reports'
  else forOf (browseSale resolver parseInt) sales reports
       = Throw UnknownPaymentToken.
Proof.
  induction sales as [|sale sales IH]; intros reports; cbn [forallb forOf];
    [eauto|].
  pose proof (browseSale_outcome resolver parseInt sale reports) as Hsale.
  destruct (payable resolver sale); cbn [andb].
  - destruct Hsale as [mid Hmid]. rewrite Hmid. cbn. apply IH.
  - rewrite Hsale. reflexivity.
Qed.

(** X16. Browsing the sales succeeds exactly when every sale that has a
    lookup table is paid in a known token; otherwise it raises the
    unknown-token error, and no other error is possible. *)
Theorem browseAllSales_succeeds_iff_payable
    (addressToPaymentToken : string -> option string) (parseInt : string -> Z)
    (sales : list T_Sale) :
  if forallb (payable addressToPaymentToken) sales
  then exists projectReports,
         browseAllSales addressToPaymentToken parseInt sales = Ok projectReports
  else browseAllSales addressToPaymentToken parseInt sales
       = Throw UnknownPaymentToken.
Proof. apply browseSales_outcome. Qed.

Lemma no_tables_no_reports resolver parseInt sales : forall reports,
  existsb hasTables sales = false ->
  forOf (browseSale resolver parseInt) sales reports = Ok reports.
Proof.
  induction sales as [|sale sales IH]; intros reports; cbn [existsb forOf];
    [reflexivity|].
  intros H. apply orb_false_iff in H. destruct H as [Hsale Hrest].
  assert (Hstep : browseSale resolver parseInt reports sale = Ok reports).
  { unfold browseSale. unfold hasTables in Hsale.
    destruct (saleLookupTables sale); [reflexivity|discriminate]. }
  rewrite Hstep. apply IH, Hrest.
Qed.

Lemma finalize_raises (reports : gmap string ProjectReport) :
  reports <> ∅ ->
  (forall k r, reports !! k = Some r -> paymentTokenVolumes r <> ∅) ->
  forOf finalizeReport (map_to_list reports).*1 reports
  = Throw InvalidBigNumberValue.
Proof.
  intros Hne Hvolumes.
  destruct (map_to_list reports) as [|[k r] l] eqn:E.
  - apply map_to_list_empty_iff in E. contradiction.
  - assert (Hk : reports !! k = Some r).
    { apply elem_of_map_to_list. rewrite E. left. }
    assert (Hstep : finalizeReport reports k = Throw InvalidBigNumberValue).
    { unfold finalizeReport. rewrite Hk.
      rewrite (computeCryptoDue_without_fee r (Hvolumes k r Hk)). reflexivity. }
    rewrite fmap_cons. cbn [fst forOf]. rewrite Hstep. reflexivity.
Qed.

Lemma generateProjectReports_cases
    (addressToPaymentToken : string -> option string) (parseInt : string -> Z)
    (sales : list T_Sale) :
  generateProjectReports addressToPaymentToken parseInt sales
  = if negb (forallb (payable addressToPaymentToken) sales)
    then Throw UnknownPaymentToken
    else if existsb hasTables sales
    then Throw InvalidBigNumberValue
    else Ok ∅.
Proof.
  unfold generateProjectReports.
  pose proof (browseSales_outcome addressToPaymentToken parseInt sales ∅) as Hbrowse.
  fold (browseAllSales addressToPaymentToken parseInt sales) in Hbrowse.
  destruct (forallb (payable addressToPaymentToken) sales); cbn [negb];
    [|rewrite Hbrowse; reflexivity].
  destruct Hbrowse as [reports Hrun]. rewrite Hrun. cbn.
  destruct (existsb hasTables sales) eqn:Htables.
  - apply finalize_raises.
    + apply existsb_exists in Htables. destruct Htables as [sale [Hsale Ht]].
      unfold hasTables in Ht.
      destruct (saleLookupTables sale) as [|t tables] eqn:Hlt; [discriminate|].
      unfold browseAllSales in Hrun.
      pose proof (proj2 (browseSales_dom _ _ _ _ _ Hrun (projectNameOf t))) as Hdom.
      intros ->. destruct Hdom as [x Hx]; [|rewrite lookup_empty in Hx; discriminate].
      right. exists sale. split; [exact Hsale|]. rewrite Hlt. left. reflexivity.
    + intros k r Hk.
      apply (browseAllSales_keeps addressToPaymentToken parseInt
               (fun _ _ => True) (fun _ r => paymentTokenVolumes r <> ∅)
               (fun _ => True)) with (k := k) (r := r) in Hrun; auto.
      * intros k0 r0 r' sale nb _ _ Hadd. apply addSale_fields in Hadd.
        destruct Hadd as (_ & _ & _ & _ & _ & _ & c & v & _ & Hvolumes & _).
        rewrite Hvolumes. apply insert_non_empty.
      * apply List.Forall_forall. auto.
  - unfold browseAllSales in Hrun.
    rewrite (no_tables_no_reports _ _ _ _ Htables) in Hrun. injection Hrun as <-.
    rewrite map_to_list_empty. reflexivity.
Qed.

(** X17. The outcome of [generateProjectReports] on any list of sales: the
    unknown-token error when a sale with a lookup table is paid in an unknown
    token; otherwise, as soon as one sale has a lookup table, the exception
    that the call of [computeCryptoDue] without a fee raises; and the empty
    map when no sale has a lookup table. *)
Theorem generateProjectReports_outcome
    (addressToPaymentToken : string -> option string) (parseInt : string -> Z)
    (sales : list T_Sale) :
  generateProjectReports addressToPaymentToken parseInt sales
  = if negb (forallb (payable addressToPaymentToken) sales)
    then Throw UnknownPaymentToken
    else if existsb hasTables sales
    then Throw InvalidBigNumberValue
    else Ok ∅.
Proof. apply generateProjectReports_cases. Qed.

(** ** Projects that share a name *)

Section FirstProject.

Variable addressToPaymentToken : string -> option string.
Variable parseInt : string -> Z.

Let firstSeen (projectReports : gmap string ProjectReport)
    (seen : list T_SaleLookupTable) : Prop :=
  forall projectName,
    match projectReports !! projectName with
    | Some report =>
        exists t, firstTableOf projectName seen = Some t
                  /\ identifiedBy parseInt (token_project (slt_token t)) report
    | None => firstTableOf projectName seen = None
    end.

Lemma firstTableOf_snoc projectName seen t :
  firstTableOf projectName (seen ++ [t])
  = match firstTableOf projectName seen with
    | Some u => Some u
    | None => if String.eqb (projectNameOf t) projectName then Some t else None
    end.
Proof.
  unfold firstTableOf. induction seen as [|u seen IH]; cbn; [reflexivity|].
  destruct (String.eqb (projectNameOf u) projectName); [reflexivity|exact IH].
Qed.

Lemma browseLookupTable_first sale nb reports t reports' seen :
  firstSeen reports seen ->
  browseLookupTable addressToPaymentToken parseInt sale nb reports t = Ok reports' ->
  firstSeen reports' (seen ++ [t]).
Proof.
  intros Hseen. unfold browseLookupTable.
  set (p := token_project (slt_token t)).
  set (r := match reports !! project_name p with Some r => r | None => _ end).
  destruct (addSale addressToPaymentToken r sale nb) as [r'|e] eqn:Hadd;
    [|discriminate].
  cbn. intros [= <-] projectName. rewrite firstTableOf_snoc.
  apply addSale_fields in Hadd.
  destruct Hadd as (Hn & Hi & Ha & Hp & Hpp & _).
  pose proof (Hseen projectName) as Hk.
  destruct (decide (project_name p = projectName)) as [<-|Hne].
  - rewrite lookup_insert_eq. subst r.
    destruct (reports !! project_name p) as [r1|] eqn:Hr.
    + destruct Hk as [u [Hu Hid]]. exists u. rewrite Hu. split; [reflexivity|].
      unfold identifiedBy in *. rewrite Hn, Hi, Ha, Hp, Hpp. exact Hid.
    + rewrite Hk. unfold projectNameOf. fold p. rewrite String.eqb_refl.
      exists t. split; [reflexivity|].
      unfold identifiedBy. fold p. rewrite Hn, Hi, Ha, Hp, Hpp.
      cbn. repeat split; reflexivity.
  - rewrite lookup_insert_ne by exact Hne.
    destruct (reports !! projectName) as [r1|].
    + destruct Hk as [u [Hu Hid]]. exists u. rewrite Hu. auto.
    + rewrite Hk. unfold projectNameOf. fold p.
      destruct (String.eqb_spec (project_name p) projectName);
        [contradiction|reflexivity].
Qed.

Lemma browseLookupTables_first sale nb tables : forall reports reports' seen,
  firstSeen reports seen ->
  forOf (browseLookupTable addressToPaymentToken parseInt sale nb) tables reports
  = Ok reports' ->
  firstSeen reports' (seen ++ tables).
Proof.
  induction tables as [|t tables IH]; intros reports reports' seen Hseen;
    cbn [forOf].
  - intros [= <-]. rewrite app_nil_r. exact Hseen.
  - destruct (browseLookupTable _ _ sale nb reports t) as [mid|e] eqn:Hstep; cbn;
      [|discriminate].
    intros Hrest. change (t :: tables) with ([t] ++ tables). rewrite app_assoc.
    apply (IH mid); [|exact Hrest].
    apply (browseLookupTable_first sale nb reports); assumption.
Qed.

Lemma browseSales_first sales : forall reports reports' seen,
  firstSeen reports seen ->
  forOf (browseSale addressToPaymentToken parseInt) sales reports = Ok reports' ->
  firstSeen reports' (seen ++ tablesBrowsed sales).
Proof.
  induction sales as [|sale sales IH]; intros reports reports' seen Hseen;
    cbn [forOf].
  - intros [= <-]. unfold tablesBrowsed. cbn. rewrite app_nil_r. exact Hseen.
  - destruct (browseSale _ _ reports sale) as [mid|e] eqn:Hstep; cbn;
      [|discriminate].
    intros Hrest. unfold tablesBrowsed. cbn [List.flat_map].
    rewrite app_assoc. apply (IH mid); [|exact Hrest].
    unfold browseSale in Hstep.
    eapply browseLookupTables_first; eassumption.
Qed.

(** X18. The reports of [generateProjectReports] are keyed by project name:
    after the sales have been browsed, the report under a name carries the
    identifier, the artist address and the additional payee of the project
    of the first lookup table browsed that has this name, whatever the
    projects of the later lookup tables of that name are. *)
Theorem report_identity_is_first_project
    (sales : list T_Sale) (projectReports : gmap string ProjectReport)
    (projectName : string) (report : ProjectReport) :
  browseAllSales addressToPaymentToken parseInt sales = Ok projectReports ->
  projectReports !! projectName = Some report ->
  exists t,
    firstTableOf projectName (tablesBrowsed sales) = Some t
    /\ identifiedBy parseInt (token_project (slt_token t)) report.
Proof.
  intros Hrun Hreport. unfold browseAllSales in Hrun.
  apply (browseSales_first sales ∅ projectReports []) in Hrun.
  - specialize (Hrun projectName). rewrite Hreport in Hrun. exact Hrun.
  - intros k. rewrite lookup_empty. reflexivity.
Qed.

End FirstProject.

Lemma report_identity_is_first_project_witness :
  let projectReports :=
    orEmpty (browseAllSales sampleResolver sampleParseInt sameNameSales) in
  let report := default sampleReport (projectReports !! "Untitled") in
  exists t,
    firstTableOf "Untitled" (tablesBrowsed sameNameSales) = Some t
    /\ identifiedBy sampleParseInt (token_project (slt_token t)) report.
Proof.
  intros projectReports report.
  apply (report_identity_is_first_project sampleResolver sampleParseInt
           sameNameSales projectReports "Untitled" report).
  - vm_compute. reflexivity.
  - vm_compute. reflexivity.
Defined.

(** * Further properties of the importer *)

(** ** The summary that the importer writes and the reports read *)

Lemma split_from_dummy s :
  (forall piece,
      length (split_from piece (s ++ "::dummy")%string)
      = S (length (split_from piece s)))
  /\ forall c piece,
       length (split_from piece (String c s ++ "::dummy")%string)
       = S (length (split_from piece (String c s))).
Proof.
  induction s as [|d s [IH1 IH2]].
  - split; [intros piece; reflexivity|].
    intros c piece.
    change (String c "" ++ "::dummy")%string with (String c "::dummy").
    cbn [split_from]. destruct (Ascii.eqb c colon); reflexivity.
  - split; [intros piece; apply IH2|].
    intros c piece.
    change (String c (String d s) ++ "::dummy")%string
      with (String c (String d (s ++ "::dummy")%string)).
    cbn [split_from].
    destruct (Ascii.eqb c colon && Ascii.eqb d colon)%bool.
    + cbn [length]. rewrite IH1. reflexivity.
    + apply (IH2 d (c :: piece)).
Qed.

Lemma split_colons_summaryAfter k :
  length (split_colons (summaryAfter k)) = S k.
Proof.
  induction k as [|k IH]; [reflexivity|].
  cbn [summaryAfter]. unfold split_colons in *.
  rewrite (proj1 (split_from_dummy (summaryAfter k)) []), IH. reflexivity.
Qed.

(** X19. The summary that [openSeaEventModelToSubgraphModel] writes for an
    event, read back the way [generateProjectReports] reads the number of
    tokens sold, gives 1 for a single sale and the number of assets for a
    bundle (1 for a bundle without assets), whatever number of lookup tables
    the sale is given. *)
Theorem imported_summary_counts_assets (_event : Event)
    (_openSeaLookupTables : list T_OpenSeaSaleLookupTable) :
  length (split_colons
            (os_summaryTokensSold (saleOf _event _openSeaLookupTables)))
  = match asset_bundle _event with
    | None => 1%nat
    | Some assets => Nat.max 1 (length assets)
    end.
Proof.
  cbn [saleOf os_summaryTokensSold]. unfold summaryTokensSoldOf.
  destruct (asset_bundle _event) as [assets|]; [|reflexivity].
  rewrite split_colons_summaryAfter. lia.
Qed.

(** ** One sale for each event *)

Lemma eventToSale_convertedFrom bundleLookupTables tokenZero collectionSlug
    _event sale printed :
  eventToSale bundleLookupTables tokenZero collectionSlug _event
  = Ok (sale, printed) ->
  convertedFrom _event sale.
Proof.
  unfold eventToSale, convertedFrom.
  destruct (asset_bundle _event) as [assets|] eqn:Hb.
  - destruct (bundleLookupTables tokenZero collectionSlug _event assets)
      as [[tables warnings]|e]; cbn; [|discriminate].
    intros [= <- _]. reflexivity.
  - destruct (singleLookupTables tokenZero _event) as [tables|e]; cbn;
      [|discriminate].
    intros [= <- _]. reflexivity.
Qed.

Lemma conversion_Forall2 bundleLookupTables tokenZero collectionSlug :
  forall openSeaEvents sales printed,
    OpenSea.openSeaEventModelToSubgraphModel bundleLookupTables tokenZero
      collectionSlug openSeaEvents
    = Ok (sales, printed) ->
    Forall2 convertedFrom openSeaEvents sales.
Proof.
  induction openSeaEvents as [|_event rest IH]; intros sales printed;
    cbn [OpenSea.openSeaEventModelToSubgraphModel].
  - intros [= <- _]. constructor.
  - destruct (eventToSale bundleLookupTables tokenZero collectionSlug _event)
      as [[sale warnings]|e] eqn:Hhead; cbn; [|discriminate].
    destruct (OpenSea.openSeaEventModelToSubgraphModel bundleLookupTables
                tokenZero collectionSlug rest) as [[tail warnings']|e] eqn:Htail;
      cbn; [|discriminate].
    intros [= <- _]. constructor.
    + exact (eventToSale_convertedFrom _ _ _ _ _ _ Hhead).
    + exact (IH _ _ eq_refl).
Qed.

(** X20. Whatever a revision does with the assets of a bundle, a conversion
    that returns gives one sale for each event, in the order of the events,
    and each sale carries the identifier, the block number, the price and
    the other fields of its event: an event is never dropped, not even the
    bundle that the second revision skips. *)
Theorem conversion_keeps_every_event
    (bundleLookupTables :
       T_TokenZero -> string -> Event -> list Asset ->
       result (list T_OpenSeaSaleLookupTable * list Diagnostic))
    (tokenZero : T_TokenZero) (collectionSlug : string)
    (openSeaEvents : list Event) (sales : list T_OpenSeaSale)
    (printed : list Diagnostic) :
  OpenSea.openSeaEventModelToSubgraphModel bundleLookupTables tokenZero
    collectionSlug openSeaEvents
  = Ok (sales, printed) ->
  Forall2 convertedFrom openSeaEvents sales
  /\ length sales = length openSeaEvents
  /\ map os_sale_id sales = map event_id openSeaEvents
  /\ map os_blockNumber sales = map transaction_block_number openSeaEvents
  /\ map os_price sales = map total_price openSeaEvents.
Proof.
  intros Hrun. apply conversion_Forall2 in Hrun.
  split; [exact Hrun|].
  induction Hrun as [|_event sale events sales' Hsale _ IH]; [auto|].
  destruct IH as (Hlen & Hid & Hblock & Hprice).
  cbn [length map]. rewrite Hlen, Hid, Hblock, Hprice, Hsale.
  repeat split; reflexivity.
Qed.

Lemma conversion_keeps_every_event_witness :
  let openSeaEvents := [singleEvent "1" 10; mixedBundle] in
  let run :=
    Some (Revision2.openSeaEventModelToSubgraphModel sampleTokenZero
            "chromie-squiggle" openSeaEvents) in
  Forall2 convertedFrom openSeaEvents (salesOf run)
  /\ length (salesOf run) = length openSeaEvents
  /\ map os_sale_id (salesOf run) = map event_id openSeaEvents
  /\ map os_blockNumber (salesOf run)
     = map transaction_block_number openSeaEvents
  /\ map os_price (salesOf run) = map total_price openSeaEvents.
Proof.
  intros openSeaEvents run.
  apply (conversion_keeps_every_event Revision2.bundleLookupTables
           sampleTokenZero "chromie-squiggle" openSeaEvents (salesOf run)
           (printedOf run)).
  vm_compute. reflexivity.
Defined.

(** ** What [getOpenSeaSalesEvents] returns *)

Lemma Forall2_In_r {A B} (P : A -> B -> Prop) l l' :
  Forall2 P l l' -> forall y, In y l' -> exists x, In x l /\ P x y.
Proof.
  induction 1 as [|x y l l' Hxy _ IH]; intros z; [intros []|].
  intros [<-|Hz].
  - exists x. split; [left; reflexivity|exact Hxy].
  - destruct (IH z Hz) as [x' [Hx' Hp]]. exists x'. split; [right|]; assumption.
Qed.

Section ScanSound.

Variable bundleLookupTables :
  T_TokenZero -> string -> Event -> list Asset ->
  result (list T_OpenSeaSaleLookupTable * list Diagnostic).
Variable scanPage :
  Z -> list T_OpenSeaSale -> list T_OpenSeaSale -> list T_OpenSeaSale * bool.
Variable api : string -> Z -> string -> Page.

Hypothesis scanPage_sound : forall minBlockNumber page collected sale,
  In sale (scanPage minBlockNumber page collected).1 ->
  In sale collected
  \/ (In sale page /\ atOrAbove minBlockNumber sale = true).

Variable collectionSlug : string.
Variable tokenZero : T_TokenZero.
Variable occurredBeforeTimestamp minBlockNumber : Z.

Let served (sale : T_OpenSeaSale) : Prop :=
  atOrAbove minBlockNumber sale = true
  /\ exists cursor _event,
       In _event (asset_events (api collectionSlug occurredBeforeTimestamp cursor))
       /\ convertedFrom _event sale.

Lemma scrollEvents_sound fuel : forall openSeaSales printed _next sales printed',
  (forall sale, In sale openSeaSales -> served sale) ->
  scrollEvents bundleLookupTables scanPage api fuel collectionSlug tokenZero
    occurredBeforeTimestamp minBlockNumber openSeaSales printed _next
  = Some (Ok (sales, printed')) ->
  forall sale, In sale sales -> served sale.
Proof.
  induction fuel as [|fuel IH]; intros openSeaSales printed _next sales printed'
    Hcollected; cbn [scrollEvents]; [discriminate|].
  set (data := api collectionSlug occurredBeforeTimestamp _next).
  destruct (OpenSea.openSeaEventModelToSubgraphModel bundleLookupTables
              tokenZero collectionSlug (asset_events data))
    as [[newOpenSeaSales warnings]|e] eqn:Hconvert; [|discriminate].
  assert (Hscanned : forall sale,
             In sale (scanPage minBlockNumber newOpenSeaSales openSeaSales).1 ->
             served sale).
  { intros sale Hin. apply scanPage_sound in Hin.
    destruct Hin as [Hin|[Hin Hblock]]; [apply Hcollected, Hin|].
    split; [exact Hblock|].
    apply conversion_Forall2 in Hconvert.
    destruct (Forall2_In_r _ _ _ Hconvert sale Hin) as [_event [He Hc]].
    exists _next, _event. split; assumption. }
  cbn [fst snd].
  destruct (next data) as [cursor|].
  - destruct (scanPage minBlockNumber newOpenSeaSales openSeaSales).2.
    + intros [= <- _]. exact Hscanned.
    + apply IH. exact Hscanned.
  - intros [= <- _]. exact Hscanned.
Qed.

Lemma getOpenSeaSalesEvents_sound fuel sales printed :
  OpenSea.getOpenSeaSalesEvents bundleLookupTables scanPage api fuel
    collectionSlug tokenZero occurredBeforeTimestamp minBlockNumber
  = Some (Ok (sales, printed)) ->
  forall sale, In sale sales -> served sale.
Proof.
  unfold OpenSea.getOpenSeaSalesEvents.
  destruct (String.eqb collectionSlug "cryptocitizensofficial").
  - intros [= <- _] sale [].
  - apply scrollEvents_sound. intros sale [].
Qed.

End ScanSound.

Lemma Revision1_scanPage_sound minBlockNumber page : forall collected sale,
  In sale (Revision1.scanPage minBlockNumber page collected).1 ->
  In sale collected \/ (In sale page /\ atOrAbove minBlockNumber sale = true).
Proof.
  induction page as [|s page IH]; intros collected sale; cbn [Revision1.scanPage].
  - auto.
  - change (os_blockNumber s >=? minBlockNumber) with (atOrAbove minBlockNumber s).
    destruct (atOrAbove minBlockNumber s) eqn:Hs; [|auto].
    intros Hin. apply IH in Hin. destruct Hin as [Hin|[Hin Hblock]].
    + apply in_app_or in Hin. destruct Hin as [Hin|[<-|[]]]; [auto|].
      right. split; [left; reflexivity|exact Hs].
    + right. split; [right|]; assumption.
Qed.

Lemma Revision2_scanPage_sound minBlockNumber page collected sale :
  In sale (Revision2.scanPage minBlockNumber page collected).1 ->
  In sale collected \/ (In sale page /\ atOrAbove minBlockNumber sale = true).
Proof.
  rewrite Revision2_scanPage_filters. cbn [fst]. intros Hin.
  apply in_app_or in Hin. destruct Hin as [Hin|Hin]; [auto|].
  right. apply filter_In. exact Hin.
Qed.

(** X21. In both revisions, every sale that [getOpenSeaSalesEvents] returns
    was converted from an event of a page that the API served for this
    collection and this timestamp, and its block number is not below
    [minBlockNumber]. *)
Theorem getOpenSeaSalesEvents_returns_served_sales
    (api : string -> Z -> string -> Page) (fuel : nat) (collectionSlug : string)
    (tokenZero : T_TokenZero) (occurredBeforeTimestamp minBlockNumber : Z)
    (sales : list T_OpenSeaSale) (printed : list Diagnostic) :
  Revision1.getOpenSeaSalesEvents api fuel collectionSlug tokenZero
    occurredBeforeTimestamp minBlockNumber = Some (Ok (sales, printed))
  \/ Revision2.getOpenSeaSalesEvents api fuel collectionSlug tokenZero
       occurredBeforeTimestamp minBlockNumber = Some (Ok (sales, printed)) ->
  forall sale, In sale sales ->
    minBlockNumber <= os_blockNumber sale
    /\ exists cursor _event,
         In _event
           (asset_events (api collectionSlug occurredBeforeTimestamp cursor))
         /\ convertedFrom _event sale.
Proof.
  intros Hrun sale Hin.
  assert (Hserved : atOrAbove minBlockNumber sale = true
                    /\ exists cursor _event,
                         In _event
                           (asset_events
                              (api collectionSlug occurredBeforeTimestamp cursor))
                         /\ convertedFrom _event sale).
  { destruct Hrun as [Hrun|Hrun].
    - exact (getOpenSeaSalesEvents_sound Revision1.bundleLookupTables
               Revision1.scanPage api Revision1_scanPage_sound collectionSlug
               tokenZero occurredBeforeTimestamp minBlockNumber fuel sales
               printed Hrun sale Hin).
    - exact (getOpenSeaSalesEvents_sound Revision2.bundleLookupTables
               Revision2.scanPage api Revision2_scanPage_sound collectionSlug
               tokenZero occurredBeforeTimestamp minBlockNumber fuel sales
               printed Hrun sale Hin). }
  destruct Hserved as [Hblock Hfrom]. split; [|exact Hfrom].
  unfold atOrAbove in Hblock. lia.
Qed.

Lemma getOpenSeaSalesEvents_returns_served_sales_witness :
  5 <= os_blockNumber (sampleSaleOf "3" 8)
  /\ exists cursor _event,
       In _event (asset_events (sampleApi "chromie-squiggle" 0 cursor))
       /\ convertedFrom _event (sampleSaleOf "3" 8).
Proof.
  pose (run := Revision2.getOpenSeaSalesEvents sampleApi 2 "chromie-squiggle"
                 sampleTokenZero 0 5).
  apply (getOpenSeaSalesEvents_returns_served_sales sampleApi 2
           "chromie-squiggle" sampleTokenZero 0 5 (salesOf run) (printedOf run)).
  - right. vm_compute. reflexivity.
  - vm_compute. right. left. reflexivity.
Defined.

(** ** Where the two revisions agree *)

Lemma Revision2_scanPage_all_below minBlockNumber page : forall collected,
  Forall (fun sale => os_blockNumber sale < minBlockNumber) page ->
  (Revision2.scanPage minBlockNumber page collected).1 = collected.
Proof.
  induction page as [|s page IH]; intros collected Hpage;
    cbn [Revision2.scanPage]; [reflexivity|].
  inversion Hpage as [|? ? Hs Hrest]; subst.
  destruct (Z.geb_spec (os_blockNumber s) minBlockNumber); [lia|].
  cbn [fst]. apply IH, Hrest.
Qed.

Lemma scanPage_agree minBlockNumber page : forall collected,
  salesDescending page ->
  Revision1.scanPage minBlockNumber page collected
  = Revision2.scanPage minBlockNumber page collected.
Proof.
  induction page as [|s page IH]; intros collected Hsorted;
    cbn [Revision1.scanPage Revision2.scanPage]; [reflexivity|].
  apply StronglySorted_inv in Hsorted. destruct Hsorted as [Hrest Hs].
  destruct (Z.geb_spec (os_blockNumber s) minBlockNumber) as [|Hbelow].
  - apply IH, Hrest.
  - rewrite Revision2_scanPage_all_below; [reflexivity|].
    rewrite List.Forall_forall in Hs |- *. intros x Hx.
    specialize (Hs x Hx). cbn in Hs. lia.
Qed.

Lemma conversion_descending bundleLookupTables tokenZero collectionSlug
    openSeaEvents sales printed :
  OpenSea.openSeaEventModelToSubgraphModel bundleLookupTables tokenZero
    collectionSlug openSeaEvents
  = Ok (sales, printed) ->
  eventsDescending openSeaEvents -> salesDescending sales.
Proof.
  intros Hrun. apply conversion_Forall2 in Hrun.
  unfold eventsDescending, salesDescending.
  induction Hrun as [|_event sale events sales' Hsale Hrest IH]; intros Hsorted;
    [constructor|].
  apply StronglySorted_inv in Hsorted. destruct Hsorted as [Hsorted Hhead].
  constructor; [apply IH, Hsorted|].
  rewrite List.Forall_forall in Hhead |- *. intros x Hx.
  destruct (Forall2_In_r _ _ _ Hrest x Hx) as [e [He Hc]].
  specialize (Hhead e He). cbn in Hhead.
  rewrite Hsale, Hc. cbn. exact Hhead.
Qed.

(** X22. On an API whose pages all come in descending block order, leaving
    the scan of a page at the first sale below [minBlockNumber] and going
    through the whole page give the same run of [getOpenSeaSalesEvents]: the
    same sales, the same pages requested and the same outcome, for any
    treatment of the bundles. *)
Theorem page_scans_agree_on_descending_pages
    (bundleLookupTables :
       T_TokenZero -> string -> Event -> list Asset ->
       result (list T_OpenSeaSaleLookupTable * list Diagnostic))
    (api : string -> Z -> string -> Page) (fuel : nat) (collectionSlug : string)
    (tokenZero : T_TokenZero) (occurredBeforeTimestamp minBlockNumber : Z) :
  (forall cursor,
      eventsDescending
        (asset_events (api collectionSlug occurredBeforeTimestamp cursor))) ->
  OpenSea.getOpenSeaSalesEvents bundleLookupTables Revision1.scanPage api fuel
    collectionSlug tokenZero occurredBeforeTimestamp minBlockNumber
  = OpenSea.getOpenSeaSalesEvents bundleLookupTables Revision2.scanPage api fuel
      collectionSlug tokenZero occurredBeforeTimestamp minBlockNumber.
Proof.
  intros Hpages. unfold OpenSea.getOpenSeaSalesEvents.
  destruct (String.eqb collectionSlug "cryptocitizensofficial"); [reflexivity|].
  generalize (@nil T_OpenSeaSale) (@nil Diagnostic) ""%string.
  induction fuel as [|fuel IH]; intros openSeaSales printed _next;
    cbn [scrollEvents]; [reflexivity|].
  destruct (OpenSea.openSeaEventModelToSubgraphModel bundleLookupTables
              tokenZero collectionSlug
              (asset_events (api collectionSlug occurredBeforeTimestamp _next)))
    as [[newOpenSeaSales warnings]|e] eqn:Hconvert; [|reflexivity].
  rewrite (scanPage_agree minBlockNumber newOpenSeaSales openSeaSales
             (conversion_descending _ _ _ _ _ _ Hconvert (Hpages _next))).
  destruct (next (api collectionSlug occurredBeforeTimestamp _next));
    [|reflexivity].
  destruct (Revision2.scanPage minBlockNumber newOpenSeaSales openSeaSales).2;
    [reflexivity|apply IH].
Qed.

Lemma page_scans_agree_on_descending_pages_witness :
  OpenSea.getOpenSeaSalesEvents Revision2.bundleLookupTables Revision1.scanPage
    descendingApi 3 "chromie-squiggle" sampleTokenZero 0 5
  = OpenSea.getOpenSeaSalesEvents Revision2.bundleLookupTables Revision2.scanPage
      descendingApi 3 "chromie-squiggle" sampleTokenZero 0 5.
Proof.
  apply (page_scans_agree_on_descending_pages Revision2.bundleLookupTables
           descendingApi 3 "chromie-squiggle" sampleTokenZero 0 5).
  intros cursor. unfold descendingApi.
  destruct (String.eqb cursor ""); cbn [asset_events];
    repeat (constructor; cbn; try lia).
Defined.

Lemma everySameSlug_ofCollection collectionSlug assets :
  forallb (ofCollection collectionSlug) assets = true ->
  Revision2.everySameSlug assets = true.
Proof.
  destruct assets as [|first rest]; [reflexivity|].
  intros Hall. unfold Revision2.everySameSlug.
  apply forallb_forall. intros a Ha.
  rewrite forallb_forall in Hall.
  pose proof (Hall a Ha) as H1. pose proof (Hall first (or_introl eq_refl)) as H2.
  unfold ofCollection in H1, H2.
  apply String.eqb_eq in H1, H2. rewrite H1, H2. apply String.eqb_refl.
Qed.

Lemma bundleLookupTables_agree tokenZero collectionSlug _event assets :
  forallb (ofCollection collectionSlug) assets = true ->
  Revision1.bundleLookupTables tokenZero collectionSlug _event assets
  = Revision2.bundleLookupTables tokenZero collectionSlug _event assets.
Proof.
  intros Hall. unfold Revision2.bundleLookupTables.
  rewrite (everySameSlug_ofCollection _ _ Hall).
  induction assets as [|a rest IH];
    cbn [Revision1.bundleLookupTables Revision2.uniformBundleLookupTables];
    [reflexivity|].
  cbn [forallb] in Hall. apply andb_true_iff in Hall. destruct Hall as [Ha Hrest].
  unfold ofCollection in Ha. rewrite Ha. cbn [negb andb].
  rewrite andb_false_r. rewrite Ha. rewrite (IH Hrest). reflexivity.
Qed.

Lemma conversions_agree tokenZero collectionSlug openSeaEvents :
  bundlesOfCollection collectionSlug openSeaEvents = true ->
  Revision1.openSeaEventModelToSubgraphModel tokenZero collectionSlug
    openSeaEvents
  = Revision2.openSeaEventModelToSubgraphModel tokenZero collectionSlug
      openSeaEvents.
Proof.
  unfold Revision1.openSeaEventModelToSubgraphModel,
    Revision2.openSeaEventModelToSubgraphModel.
  induction openSeaEvents as [|_event rest IH]; intros Hall;
    cbn [OpenSea.openSeaEventModelToSubgraphModel]; [reflexivity|].
  cbn [bundlesOfCollection forallb] in Hall.
  apply andb_true_iff in Hall. destruct Hall as [Hevent Hrest].
  rewrite (IH Hrest).
  assert (Hhead : eventToSale Revision1.bundleLookupTables tokenZero
                    collectionSlug _event
                  = eventToSale Revision2.bundleLookupTables tokenZero
                      collectionSlug _event).
  { unfold eventToSale. destruct (asset_bundle _event) as [assets|];
      [|reflexivity].
    rewrite (bundleLookupTables_agree _ _ _ _ Hevent). reflexivity. }
  rewrite Hhead. reflexivity.
Qed.

(** X23. On events whose bundles hold only assets that report the requested
    collection slug, the two revisions of [openSeaEventModelToSubgraphModel]
    give the same sales and print the same, or raise the same exception. *)
Theorem revisions_convert_alike
    (tokenZero : T_TokenZero) (collectionSlug : string)
    (openSeaEvents : list Event) :
  bundlesOfCollection collectionSlug openSeaEvents = true ->
  Revision1.openSeaEventModelToSubgraphModel tokenZero collectionSlug
    openSeaEvents
  = Revision2.openSeaEventModelToSubgraphModel tokenZero collectionSlug
      openSeaEvents.
Proof. apply conversions_agree. Qed.

Lemma revisions_convert_alike_witness :
  Revision1.openSeaEventModelToSubgraphModel sampleTokenZero "chromie-squiggle"
    [singleEvent "1" 10; squiggleBundle]
  = Revision2.openSeaEventModelToSubgraphModel sampleTokenZero
      "chromie-squiggle" [singleEvent "1" 10; squiggleBundle].
Proof.
  apply (revisions_convert_alike sampleTokenZero "chromie-squiggle"
           [singleEvent "1" 10; squiggleBundle]).
  vm_compute. reflexivity.
Defined.

(** X24. On an API whose pages all come in descending block order and whose
    bundles hold only assets that report the requested collection slug, the
    two revisions of [getOpenSeaSalesEvents] have the same outcome. *)
Theorem revisions_import_alike
    (api : string -> Z -> string -> Page) (fuel : nat) (collectionSlug : string)
    (tokenZero : T_TokenZero) (occurredBeforeTimestamp minBlockNumber : Z) :
  (forall cursor,
      eventsDescending
        (asset_events (api collectionSlug occurredBeforeTimestamp cursor))
      /\ bundlesOfCollection collectionSlug
           (asset_events (api collectionSlug occurredBeforeTimestamp cursor))
         = true) ->
  Revision1.getOpenSeaSalesEvents api fuel collectionSlug tokenZero
    occurredBeforeTimestamp minBlockNumber
  = Revision2.getOpenSeaSalesEvents api fuel collectionSlug tokenZero
      occurredBeforeTimestamp minBlockNumber.
Proof.
  intros Hpages.
  unfold Revision1.getOpenSeaSalesEvents, Revision2.getOpenSeaSalesEvents,
    OpenSea.getOpenSeaSalesEvents.
  destruct (String.eqb collectionSlug "cryptocitizensofficial"); [reflexivity|].
  generalize (@nil T_OpenSeaSale) (@nil Diagnostic) ""%string.
  induction fuel as [|fuel IH]; intros openSeaSales printed _next;
    cbn [scrollEvents]; [reflexivity|].
  destruct (Hpages _next) as [Hsorted Hbundles].
  pose proof (conversions_agree tokenZero collectionSlug _ Hbundles) as Hsame.
  unfold Revision1.openSeaEventModelToSubgraphModel,
    Revision2.openSeaEventModelToSubgraphModel in Hsame.
  rewrite Hsame.
  destruct (OpenSea.openSeaEventModelToSubgraphModel Revision2.bundleLookupTables
              tokenZero collectionSlug
              (asset_events (api collectionSlug occurredBeforeTimestamp _next)))
    as [[newOpenSeaSales warnings]|e] eqn:Hconvert; [|reflexivity].
  rewrite (scanPage_agree minBlockNumber newOpenSeaSales openSeaSales
             (conversion_descending _ _ _ _ _ _ Hconvert Hsorted)).
  destruct (next (api collectionSlug occurredBeforeTimestamp _next));
    [|reflexivity].
  destruct (Revision2.scanPage minBlockNumber newOpenSeaSales openSeaSales).2;
    [reflexivity|apply IH].
Qed.

Lemma revisions_import_alike_witness :
  Revision1.getOpenSeaSalesEvents descendingApi 3 "chromie-squiggle"
    sampleTokenZero 0 5
  = Revision2.getOpenSeaSalesEvents descendingApi 3 "chromie-squiggle"
      sampleTokenZero 0 5.
Proof.
  apply (revisions_import_alike descendingApi 3 "chromie-squiggle"
           sampleTokenZero 0 5).
  intros cursor. unfold descendingApi.
  destruct (String.eqb cursor ""); cbn [asset_events];
    (split; [repeat (constructor; cbn; try lia)|reflexivity]).
Defined.

(** * Further properties of the filters: the counters *)

Example countMatchingSales_sample :
  countMatchingSales flagshipOnly [twoContractsSale; publicSale]
    newFilterCounters
  = Ok ([narrowed flagshipOnly twoContractsSale],
        {| additionalSalesFoundInBundledSales := 1;
           skippedOtherContractsTokens := 2;
           skippedCurationStatus := 0 |}).
Proof. vm_compute. reflexivity. Qed.

Lemma lookupTablePasses_split salesFilter t :
  lookupTablePasses salesFilter t
  = (contractsPass ← contractsFilterPass salesFilter t;
     Ok (curationFilterPass salesFilter t && contractsPass)).
Proof. reflexivity. Qed.

Lemma countLookupTable_step salesFilter n counters t contractsPass :
  contractsFilterPass salesFilter t = Ok contractsPass ->
  exists counters',
    countLookupTable salesFilter (n, counters) t
    = Ok (curationFilterPass salesFilter t && contractsPass, (S n, counters'))
    /\ skippedCurationStatus counters'
       = (skippedCurationStatus counters
          + if curationFilterPass salesFilter t then 0 else 1)%nat
    /\ skippedOtherContractsTokens counters'
       = (skippedOtherContractsTokens counters
          + if curationFilterPass salesFilter t && negb contractsPass
            then 1 else 0)%nat
    /\ additionalSalesFoundInBundledSales counters'
       = (additionalSalesFoundInBundledSales counters
          + if (n =? 0)%nat then 0 else 1)%nat.
Proof.
  intros Hpass. unfold countLookupTable. rewrite Hpass.
  cbn [mbind result_bind fst snd]. eexists. split; [reflexivity|].
  destruct n as [|n]; destruct (curationFilterPass salesFilter t), contractsPass;
    cbn; repeat split; lia.
Qed.

Lemma countLookupTable_throw salesFilter state t e :
  contractsFilterPass salesFilter t = Throw e ->
  countLookupTable salesFilter state t = Throw e.
Proof. intros Hpass. unfold countLookupTable. rewrite Hpass. reflexivity. Qed.

Lemma filterS_countLookupTable salesFilter tables : forall n counters,
  match filterS (countLookupTable salesFilter) tables (n, counters) with
  | Ok (kept, (n', counters')) =>
      filterR (lookupTablePasses salesFilter) tables = Ok kept
      /\ n' = (n + length tables)%nat
      /\ (skipped counters' + length kept
          = skipped counters + length tables)%nat
      /\ (additionalSalesFoundInBundledSales counters' + Nat.max 1 n
          = additionalSalesFoundInBundledSales counters
            + Nat.max 1 (n + length tables))%nat
  | Throw e => filterR (lookupTablePasses salesFilter) tables = Throw e
  end.
Proof.
  induction tables as [|t tables IH]; intros n counters;
    cbn [filterS filterR length].
  - repeat split; lia.
  - rewrite lookupTablePasses_split.
    destruct (contractsFilterPass salesFilter t) as [contractsPass|e] eqn:Hpass.
    + destruct (countLookupTable_step salesFilter n counters t contractsPass Hpass)
        as (counters1 & Hstep & Hcuration & Hother & Hadditional).
      rewrite Hstep. cbn [mbind result_bind fst snd].
      specialize (IH (S n) counters1).
      destruct (filterS (countLookupTable salesFilter) tables (S n, counters1))
        as [[kept [n' counters']]|e]; cbn [mbind result_bind fst snd];
        cbv beta iota in IH.
      * destruct IH as (Hkept & Hn & Hskipped' & Hadditional').
        rewrite Hkept. cbn [mbind result_bind fst snd].
        split; [reflexivity|]. split; [lia|].
        unfold skipped in *. revert Hcuration Hother Hadditional.
        destruct n as [|n];
          destruct (curationFilterPass salesFilter t), contractsPass;
          cbn [negb andb length Nat.eqb]; intros; split; lia.
      * rewrite IH. reflexivity.
    + rewrite (countLookupTable_throw _ _ _ _ Hpass). reflexivity.
Qed.

Lemma countNarrowSale_spec salesFilter counters sale :
  match countNarrowSale salesFilter counters sale with
  | Ok (sale', counters') =>
      narrowSale salesFilter sale = Ok sale'
      /\ (skipped counters' + length (saleLookupTables sale')
          = skipped counters + length (saleLookupTables sale))%nat
      /\ (additionalSalesFoundInBundledSales counters'
          + (if hasTables sale then 1 else 0)
          = additionalSalesFoundInBundledSales counters
            + length (saleLookupTables sale))%nat
  | Throw e => narrowSale salesFilter sale = Throw e
  end.
Proof.
  unfold countNarrowSale, narrowSale.
  pose proof (filterS_countLookupTable salesFilter (saleLookupTables sale) 0
                counters) as H.
  destruct (filterS (countLookupTable salesFilter) (saleLookupTables sale)
              (0%nat, counters)) as [[kept [n' counters']]|e];
    cbn [mbind result_bind fst snd]; cbv beta iota in H.
  - destruct H as (Hkept & _ & Hskipped & Hadditional). rewrite Hkept.
    cbn [mbind result_bind fst snd]. split; [reflexivity|].
    split; [destruct sale; exact Hskipped|].
    unfold hasTables. destruct (saleLookupTables sale); cbn in *; lia.
  - rewrite H. reflexivity.
Qed.

Lemma countMatchingSales_spec salesFilter sales : forall counters,
  match countMatchingSales salesFilter sales counters with
  | Ok (kept, counters') =>
      filterMatchingSales salesFilter sales = Ok kept
      /\ (skipped counters' + length (tablesBrowsed kept)
          = skipped counters + length (tablesBrowsed sales))%nat
      /\ (additionalSalesFoundInBundledSales counters'
          + length (List.filter hasTables sales)
          = additionalSalesFoundInBundledSales counters
            + length (tablesBrowsed sales))%nat
  | Throw e => filterMatchingSales salesFilter sales = Throw e
  end.
Proof.
  induction sales as [|sale sales IH]; intros counters;
    cbn [countMatchingSales filterMatchingSales].
  - repeat split; reflexivity.
  - pose proof (countNarrowSale_spec salesFilter counters sale) as Hsale.
    destruct (countNarrowSale salesFilter counters sale)
      as [[sale' counters1]|e]; cbn [mbind result_bind fst snd];
      cbv beta iota in Hsale.
    + destruct Hsale as (Hnarrow & Hskipped & Hadditional). rewrite Hnarrow.
      cbn [mbind result_bind fst snd].
      specialize (IH counters1).
      destruct (countMatchingSales salesFilter sales counters1)
        as [[kept counters2]|e]; cbn [mbind result_bind fst snd];
        cbv beta iota in IH.
      * destruct IH as (Hkept & Hskipped' & Hadditional'). rewrite Hkept.
        cbn [mbind result_bind fst snd]. split; [reflexivity|].
        unfold tablesBrowsed in *. cbn [List.flat_map List.filter].
        rewrite List.length_app.
        split.
        -- destruct (saleLookupTables sale') as [|t l] eqn:Hl;
             cbn [length Nat.ltb Nat.leb List.flat_map] in *.
           ++ lia.
           ++ rewrite List.length_app, Hl. cbn [length]. lia.
        -- destruct (hasTables sale); cbn [length]; lia.
      * rewrite IH. reflexivity.
    + rewrite Hsale. reflexivity.
Qed.

(** X25. The counters that the first filter of [processSales] keeps do not
    change what it returns, sales or exception. When it returns, every
    lookup table it examined is either kept or counted as skipped, once, and
    the additional sales counted are the lookup tables beyond the first of
    each sale. *)
Theorem filter_counters_account_for_every_table
    (salesFilter : SalesFilter) (sales : list T_Sale) :
  match countMatchingSales salesFilter sales newFilterCounters with
  | Ok (kept, counters) =>
      filterMatchingSales salesFilter sales = Ok kept
      /\ (skippedCurationStatus counters + skippedOtherContractsTokens counters
          + length (tablesBrowsed kept)
          = length (tablesBrowsed sales))%nat
      /\ (additionalSalesFoundInBundledSales counters
          + length (List.filter hasTables sales)
          = length (tablesBrowsed sales))%nat
  | Throw e => filterMatchingSales salesFilter sales = Throw e
  end.
Proof.
  pose proof (countMatchingSales_spec salesFilter sales newFilterCounters) as H.
  destruct (countMatchingSales salesFilter sales newFilterCounters)
    as [[kept counters]|e]; [|exact H].
  unfold skipped in H. cbn in H. exact H.
Qed.

(** X26. With a filter that cannot raise, a lookup table is counted as
    skipped for its curation status exactly when its project is not of the
    collection asked for, also when its contract would be refused too; it
    is counted as skipped for its contract only when its curation status
    passes. *)
Theorem filter_counts_curation_first
    (salesFilter : SalesFilter) (sales : list T_Sale) :
  filterIsComplete salesFilter = true ->
  exists kept counters,
    countMatchingSales salesFilter sales newFilterCounters = Ok (kept, counters)
    /\ skippedCurationStatus counters
       = length (List.filter (fun t => negb (curationFilterPass salesFilter t))
                   (tablesBrowsed sales))
    /\ skippedOtherContractsTokens counters
       = length (List.filter
                   (fun t => curationFilterPass salesFilter t
                             && negb (tablePasses salesFilter t))
                   (tablesBrowsed sales)).
Proof.
  intros Hcomplete.
  assert (Hcontracts : forall t,
             exists b, contractsFilterPass salesFilter t = Ok b
                       /\ tablePasses salesFilter t
                          = curationFilterPass salesFilter t && b).
  { intros t. unfold filterIsComplete in Hcomplete.
    unfold contractsFilterPass, tablePasses, curationFilterPass,
      contractsFilter_includes.
    destruct (contractFilterType salesFilter) as [[|]|],
      (contractsFilter salesFilter) as [l|]; try discriminate; cbn; eauto. }
  assert (Htables : forall tables n counters,
             exists kept n' counters',
               filterS (countLookupTable salesFilter) tables (n, counters)
               = Ok (kept, (n', counters'))
               /\ skippedCurationStatus counters'
                  = (skippedCurationStatus counters
                     + length (List.filter
                                 (fun t => negb (curationFilterPass salesFilter t))
                                 tables))%nat
               /\ skippedOtherContractsTokens counters'
                  = (skippedOtherContractsTokens counters
                     + length (List.filter
                                 (fun t => curationFilterPass salesFilter t
                                           && negb (tablePasses salesFilter t))
                                 tables))%nat).
  { induction tables as [|t tables IH]; intros n counters;
      cbn [filterS List.filter length].
    - do 3 eexists. split; [reflexivity|]. split; lia.
    - destruct (Hcontracts t) as [b [Hb Hpass]].
      destruct (countLookupTable_step salesFilter n counters t b Hb)
        as (counters1 & Hstep & Hcuration & Hother & _).
      rewrite Hstep. cbn [mbind result_bind fst snd].
      destruct (IH (S n) counters1) as (kept & n' & counters' & Hrun & Hc & Ho).
      rewrite Hrun. cbn [mbind result_bind fst snd].
      do 3 eexists. split; [reflexivity|].
      rewrite Hc, Ho, Hcuration, Hother, Hpass.
      destruct (curationFilterPass salesFilter t), b; cbn; split; lia. }
  assert (Hsales : forall sales counters,
             exists kept counters',
               countMatchingSales salesFilter sales counters
               = Ok (kept, counters')
               /\ skippedCurationStatus counters'
                  = (skippedCurationStatus counters
                     + length (List.filter
                                 (fun t => negb (curationFilterPass salesFilter t))
                                 (tablesBrowsed sales)))%nat
               /\ skippedOtherContractsTokens counters'
                  = (skippedOtherContractsTokens counters
                     + length (List.filter
                                 (fun t => curationFilterPass salesFilter t
                                           && negb (tablePasses salesFilter t))
                                 (tablesBrowsed sales)))%nat).
  { clear sales. induction sales as [|sale sales IH]; intros counters;
      cbn [countMatchingSales].
    - do 2 eexists. split; [reflexivity|]. cbn. split; lia.
    - unfold countNarrowSale.
      destruct (Htables (saleLookupTables sale) 0%nat counters)
        as (kept & n' & counters1 & Hrun & Hc & Ho).
      rewrite Hrun. cbn [mbind result_bind fst snd].
      destruct (IH counters1) as (kept' & counters2 & Hrun' & Hc' & Ho').
      rewrite Hrun'. cbn [mbind result_bind fst snd].
      do 2 eexists. split; [reflexivity|].
      unfold tablesBrowsed in *. cbn [List.flat_map].
      rewrite !List.filter_app, !List.length_app. split; lia. }
  destruct (Hsales sales newFilterCounters) as (kept & counters & Hrun & Hc & Ho).
  exists kept, counters. split; [exact Hrun|]. split; [exact Hc|exact Ho].
Qed.

Lemma filter_counts_curation_first_witness :
  exists kept counters,
    countMatchingSales flagshipOnly [twoContractsSale; publicSale]
      newFilterCounters = Ok (kept, counters)
    /\ skippedCurationStatus counters
       = length (List.filter (fun t => negb (curationFilterPass flagshipOnly t))
                   (tablesBrowsed [twoContractsSale; publicSale]))
    /\ skippedOtherContractsTokens counters
       = length (List.filter
                   (fun t => curationFilterPass flagshipOnly t
                             && negb (tablePasses flagshipOnly t))
                   (tablesBrowsed [twoContractsSale; publicSale])).
Proof.
  apply (filter_counts_curation_first flagshipOnly
           [twoContractsSale; publicSale]).
  reflexivity.
Defined.

Lemma requestPage_gives_up_witness :
  requestPageFromStart 1 (fun _ => FetchThrew)
  = Some (ResponseUndefined, 1%nat, 0%nat)
  /\ requestPageFromStart 16 (fun _ => Answered false emptyPage)
     = Some (MaxRetriesReached, 16%nat, 16%nat).
Proof.
  split.
  - apply (proj1 (requestPage_gives_up (fun _ => FetchThrew) 0)). reflexivity.
  - apply (proj2 (requestPage_gives_up (fun _ => Answered false emptyPage) 0)).
    + reflexivity.
    + intros j _. reflexivity.
Defined.

(** * Further properties: the whole of [processSales] *)

Lemma processSales_filters_hasTables BLOCK salesFilter sales kept :
  processSales_filters BLOCK salesFilter sales = Ok kept ->
  forallb hasTables kept = true.
Proof.
  unfold processSales_filters.
  destruct (filterMatchingSales salesFilter sales) as [matching|e] eqn:Hm;
    cbn [mbind result_bind]; [|discriminate].
  intros [= <-]. apply filterMatchingSales_settled in Hm.
  apply forallb_forall. intros sale Hsale. apply filter_In in Hsale.
  rewrite List.Forall_forall in Hm. destruct (Hm sale (proj1 Hsale)) as [_ Htables].
  unfold hasTables. destruct (saleLookupTables sale); [contradiction|reflexivity].
Qed.

(** X27. As the code stands, [processSales] never hands a report over, to
    a file or to the console: when the block range is fetched and the two
    filters return, either no sale is left and the run ends on the
    no-sales message, or [generateProjectReports] raises, on an unknown
    payment token or on the call of [computeCryptoDue] without a fee. *)
Theorem processSales_never_reports
    (BLOCK_WHERE_PRIVATE_SALES_HAVE_ROYALTIES : Z) (indexed : list T_Sale)
    (addressToPaymentToken : string -> option string) (parseInt : string -> Z)
    (fuel : nat) (blockRange : Z * Z) (salesFilter : SalesFilter)
    (csvOutputFilePath : option string) :
  processSales BLOCK_WHERE_PRIVATE_SALES_HAVE_ROYALTIES indexed
    addressToPaymentToken parseInt fuel blockRange salesFilter csvOutputFilePath
  = match getAllSalesBetweenBlockNumbers indexed fuel blockRange with
    | None => None
    | Some fetched =>
        Some (sales ← fetched;
              kept ← processSales_filters
                       BLOCK_WHERE_PRIVATE_SALES_HAVE_ROYALTIES salesFilter sales;
              match kept with
              | [] => Ok NoSalesFound
              | _ :: _ =>
                  Throw (if forallb (payable addressToPaymentToken) kept
                         then InvalidBigNumberValue
                         else UnknownPaymentToken)
              end)
    end.
Proof.
  unfold processSales.
  destruct (getAllSalesBetweenBlockNumbers indexed fuel blockRange)
    as [[sales|e]|]; [|reflexivity|reflexivity].
  cbn [mbind result_bind]. f_equal.
  destruct (processSales_filters BLOCK_WHERE_PRIVATE_SALES_HAVE_ROYALTIES
              salesFilter sales) as [kept|e] eqn:Hkept;
    cbn [mbind result_bind]; [|reflexivity].
  apply processSales_filters_hasTables in Hkept.
  destruct kept as [|sale kept]; [reflexivity|].
  cbn [length Nat.leb].
  rewrite generateProjectReports_cases.
  cbn [forallb] in Hkept. apply andb_true_iff in Hkept.
  cbn [existsb]. rewrite (proj1 Hkept). cbn [orb].
  destruct (forallb (payable addressToPaymentToken) (sale :: kept));
    reflexivity.
Qed.

(** * Further properties of the importer: the first revision returns *)

(** X28. With a token to take as model and events that carry their asset,
    the conversion of the first revision returns for any events, whatever
    slugs the assets of the bundles report: it has no exception of its
    own. *)
Theorem Revision1_conversion_returns
    (tokenZero : T_TokenZero) (zero : T_Token) (collectionSlug : string)
    (openSeaEvents : list Event) :
  tokenZero_first tokenZero = Ok zero ->
  forallb carriesItsAsset openSeaEvents = true ->
  exists sales printed,
    Revision1.openSeaEventModelToSubgraphModel tokenZero collectionSlug
      openSeaEvents
    = Ok (sales, printed).
Proof.
  intros Hzero. unfold Revision1.openSeaEventModelToSubgraphModel.
  induction openSeaEvents as [|_event rest IH]; intros Hall;
    cbn [OpenSea.openSeaEventModelToSubgraphModel]; [eauto|].
  cbn [forallb] in Hall. apply andb_true_iff in Hall.
  destruct Hall as [Hevent Hrest].
  destruct (IH Hrest) as (sales & printed & Htail). rewrite Htail.
  assert (Hhead : exists sale warnings,
             eventToSale Revision1.bundleLookupTables tokenZero collectionSlug
               _event = Ok (sale, warnings)).
  { unfold eventToSale, carriesItsAsset in *.
    destruct (asset_bundle _event) as [assets|].
    - rewrite (Revision1_bundleLookupTables_filter _ _ _ _ _ Hzero).
      cbn [mbind result_bind]. eauto.
    - unfold singleLookupTables, lookupTableFor.
      destruct (asset _event) as [a|]; [|discriminate].
      rewrite Hzero. cbn [mbind result_bind]. eauto. }
  destruct Hhead as (sale & warnings & Hhead). rewrite Hhead.
  cbn [mbind result_bind]. eauto.
Qed.

Lemma Revision1_conversion_returns_witness :
  exists sales printed,
    Revision1.openSeaEventModelToSubgraphModel sampleTokenZero
      "chromie-squiggle" [singleEvent "1" 10; mixedBundle]
    = Ok (sales, printed).
Proof.
  apply (Revision1_conversion_returns sampleTokenZero
           {| token_id := "0xc-0";
              token_contract := {| contract_id := "0xc" |};
              token_project := sampleProject "P" None |}
           "chromie-squiggle" [singleEvent "1" 10; mixedBundle]).
  - reflexivity.
  - reflexivity.
Defined.

(** * Further properties: the numbers that [computeCryptoDue] accepts *)

(** X29. On a report with a volume, [computeCryptoDue] returns when the
    fee and the additional-payee percentage, if any, lie strictly between
    [-MAX_SAFE] and [MAX_SAFE], and otherwise ends on the overflow fault of
    [BigNumber.from], the first payment token being enough to raise it. *)
Theorem computeCryptoDue_returns_iff_safe (fee : Z) (this : ProjectReport) :
  paymentTokenVolumes this <> ∅ ->
  (safeNumber fee /\ safePercentage (report_additionalPayeePercentage this) ->
   exists this', computeCryptoDue (Some fee) this = Ok this')
  /\ (~ (safeNumber fee
         /\ safePercentage (report_additionalPayeePercentage this)) ->
      computeCryptoDue (Some fee) this = Throw NumericFault).
Proof.
  intros Hvolumes. split.
  - intros Hsafe.
    destruct (computeCryptoDue_lookup fee this (or_intror Hsafe))
      as [due [Hrun _]].
    eexists. exact Hrun.
  - apply computeCryptoDue_unsafe, Hvolumes.
Qed.

Lemma computeCryptoDue_returns_iff_safe_witness :
  (exists this',
      computeCryptoDue (Some 9007199254740990) sampleReport = Ok this')
  /\ computeCryptoDue (Some 9007199254740991) sampleReport
     = Throw NumericFault.
Proof.
  assert (Hvolumes : paymentTokenVolumes sampleReport <> ∅).
  { intros H. apply (f_equal (fun m => m !! "ETH")) in H.
    vm_compute in H. discriminate. }
  split.
  - apply (proj1 (computeCryptoDue_returns_iff_safe 9007199254740990
                    sampleReport Hvolumes)).
    split; [unfold safeNumber, MAX_SAFE; lia|].
    intros p Hp. vm_compute in Hp. injection Hp as <-.
    unfold safeNumber, MAX_SAFE. lia.
  - apply (proj2 (computeCryptoDue_returns_iff_safe 9007199254740991
                    sampleReport Hvolumes)).
    intros [[_ H] _]. unfold MAX_SAFE in H. lia.
Defined.

(** * Instances on a source of two pages *)

Lemma descendingb_spec rows :
  descendingb rows = true -> StronglySorted desc rows.
Proof.
  induction rows as [|a rest IH]; cbn [descendingb]; [constructor|].
  intros H. apply andb_true_iff in H. destruct H as [Hhead Hrest].
  constructor; [apply IH, Hrest|].
  apply List.Forall_forall. intros b Hb.
  rewrite forallb_forall in Hhead. specialize (Hhead b Hb).
  unfold desc. lia.
Qed.

Lemma nonnegative_spec (rows : list T_Sale) :
  forallb (fun s => 0 <=? blockNumber s) rows = true ->
  Forall (fun s => 0 <= blockNumber s) rows.
Proof.
  intros H. apply List.Forall_forall. intros s Hs.
  rewrite forallb_forall in H. specialize (H s Hs). lia.
Qed.

Lemma getAllSalesBetweenBlockNumbers_complete_witness :
  exists sales,
    getAllSalesBetweenBlockNumbers twoPagesIndexed 652 (100, 751)
    = Some (Ok sales)
    /\ sales = List.filter (inBlockRange 100 751) twoPagesIndexed
    /\ (forall s, In s sales <->
                  In s twoPagesIndexed /\ 100 <= blockNumber s < 751)
    /\ (List.NoDup (map sale_id twoPagesIndexed) ->
        List.NoDup (map sale_id sales))
    /\ StronglySorted desc sales.
Proof.
  apply (getAllSalesBetweenBlockNumbers_complete twoPagesIndexed 100 751 652).
  - apply descendingb_spec. vm_compute. reflexivity.
  - apply nonnegative_spec. vm_compute. reflexivity.
  - apply blockFillsAPage_false; [discriminate|]. vm_compute. reflexivity.
  - apply Nat.ltb_lt. vm_compute. reflexivity.
Defined.

Lemma getAllSalesBetweenBlockNumbers_outcome_witness :
  getAllSalesBetweenBlockNumbers twoPagesIndexed 752 (0, 751)
  = Some (Ok twoPagesIndexed)
  /\ getAllSalesBetweenBlockNumbers twoPagesIndexed 1 (0, 751) = None
  /\ getAllSalesBetweenBlockNumbers oneBlockIndexed 11 (0, 10)
     = Some (Throw TypeError).
Proof.
  split; [|split].
  - rewrite (getAllSalesBetweenBlockNumbers_outcome twoPagesIndexed 0 751 752).
    + vm_compute. reflexivity.
    + apply descendingb_spec. vm_compute. reflexivity.
    + apply nonnegative_spec. vm_compute. reflexivity.
    + apply Nat.ltb_lt. vm_compute. reflexivity.
  - vm_compute. reflexivity.
  - rewrite (getAllSalesBetweenBlockNumbers_outcome oneBlockIndexed 0 10 11).
    + vm_compute. reflexivity.
    + apply descendingb_spec. vm_compute. reflexivity.
    + apply nonnegative_spec. vm_compute. reflexivity.
    + apply Nat.ltb_lt. vm_compute. reflexivity.
Defined.

Lemma getAllSalesBetweenBlockNumbers_short_range_witness :
  getAllSalesBetweenBlockNumbers unsortedIndexed 1 (6, 10)
  = Some (Ok [ sampleSale "b" OSV2 9 100 false "t" [sampleTable "t" "P"];
               sampleSale "c" OSV1 8 100 false "t" [sampleTable "t" "Q"] ])
  /\ scrollSales unsortedIndexed 1000 1 [] 6 10
     = Some (Ok [ sampleSale "b" OSV2 9 100 false "t" [sampleTable "t" "P"];
                  sampleSale "c" OSV1 8 100 false "t" [sampleTable "t" "Q"] ]).
Proof.
  apply (getAllSalesBetweenBlockNumbers_short_range unsortedIndexed 6 10 0).
  apply Nat.ltb_lt. vm_compute. reflexivity.
Defined.
